(** * KET speaking coach: session orchestration and speech I/O

  A shallow embedding of the TypeScript sources

  - [services/geminiService.ts]: WAV packaging, the audio cache and player,
    the text-to-speech coordinator and the evaluation request;
  - [components/StudentBox.tsx]: transcript assembly and submit;
  - [components/TestSession.tsx]: the turn-taking state machine;
  - [App.tsx]: the day selector, with [generateDayPlan];

  together with the properties the specification states about them and
  further properties of the code.

  Conventions.  A JavaScript string is the list of its UTF-16 code units
  ([list N]).  JavaScript objects used as dictionaries ([Record<string,
  string>], [Map<string, string>]) are finite maps ([gmap]).  An [async]
  function is cut at its [await]s: one definition for the part that runs
  when the function is called, one for each resumption.  Platform calls
  that can raise (DOM media calls, the local voice, [atob], the network)
  get their behaviour from an explicit oracle, and [try]/[catch] is written
  out over an exception monad. *)

From Stdlib Require Import ZArith NArith List Strings.String Strings.Ascii Strings.Byte QArith Lia Bool.
From stdpp Require Import base option list gmap fin_maps.

Local Open Scope Z_scope.
Local Open Scope list_scope.

(* ===================================================================== *)
(** ** JavaScript strings *)
(* ===================================================================== *)

Module JsString.

(** The code units of an ASCII literal. *)
Definition lit (s : string) : list N :=
  N_of_ascii <$> list_ascii_of_string s.

(** [!s] is false exactly for the empty string. *)
Definition truthy (s : list N) : bool :=
  match s with [] => false | _ :: _ => true end.

(** ECMAScript [WhiteSpace] and [LineTerminator] code points, the ones
    [String.prototype.trim] strips. *)
Definition isWhiteSpace (c : N) : bool :=
  ((c =? 9) || (c =? 10) || (c =? 11) || (c =? 12) || (c =? 13)
   || (c =? 32) || (c =? 160) || (c =? 5760)
   || ((8192 <=? c) && (c <=? 8202))
   || (c =? 8232) || (c =? 8233) || (c =? 8239) || (c =? 8287)
   || (c =? 12288) || (c =? 65279))%N.

Fixpoint trimStart (s : list N) : list N :=
  match s with
  | [] => []
  | c :: r => if isWhiteSpace c then trimStart r else s
  end.

Definition trimEnd (s : list N) : list N := rev (trimStart (rev s)).

Definition trim (s : list N) : list N := trimEnd (trimStart s).

(** [a + " " + b] *)
Definition spaced (a b : list N) : list N := a ++ 32%N :: b.

(** [Array.prototype.join(" ")] *)
Fixpoint joinSpace (l : list (list N)) : list N :=
  match l with
  | [] => []
  | [s] => s
  | s :: r => spaced s (joinSpace r)
  end.

(** The first code unit, if any, is not white space. *)
Definition headOk (s : list N) : Prop :=
  match s with
  | [] => True
  | c :: _ => isWhiteSpace c = false
  end.

(** A text that is not empty and whose last code unit is not white
    space. *)
Definition endsClean (s : list N) : Prop := s ≠ [] ∧ headOk (rev s).

End JsString.

(* ===================================================================== *)
(** ** WAV packaging ([createWavBlob]) *)
(* ===================================================================== *)

Module Wav.
Import JsString.

(** Gemini TTS is 24kHz, 1 channel, 16-bit PCM. *)
Definition SAMPLE_RATE : Z := 24000.

(** The low eight bits of a number, as a byte ([ToUint8]). *)
Definition u8 (v : Z) : byte :=
  match Byte.of_N (Z.to_N (Z.land v 255)) with
  | Some b => b
  | None => x00
  end.

(** [DataView.prototype.setUint8]: a [RangeError] ([None]) outside the
    buffer. *)
Definition setUint8 (buf : list byte) (off : nat) (v : Z)
  : option (list byte) :=
  if (off + 1 <=? length buf)%nat then Some (<[off := u8 v]> buf) else None.

(** [DataView.prototype.setUint16]: the value is taken modulo [2^16]. *)
Definition setUint16 (buf : list byte) (off : nat) (v : Z)
           (littleEndian : bool) : option (list byte) :=
  if (off + 2 <=? length buf)%nat then
    let lo := u8 v in
    let hi := u8 (Z.shiftr v 8) in
    Some (if littleEndian
          then <[off + 1 := hi]> (<[off := lo]> buf)
          else <[off + 1 := lo]> (<[off := hi]> buf))%nat
  else None.

(** [DataView.prototype.setUint32]: the value is taken modulo [2^32]. *)
Definition setUint32 (buf : list byte) (off : nat) (v : Z)
           (littleEndian : bool) : option (list byte) :=
  if (off + 4 <=? length buf)%nat then
    let b0 := u8 v in
    let b1 := u8 (Z.shiftr v 8) in
    let b2 := u8 (Z.shiftr v 16) in
    let b3 := u8 (Z.shiftr v 24) in
    Some (if littleEndian
          then <[off + 3 := b3]> (<[off + 2 := b2]>
                 (<[off + 1 := b1]> (<[off := b0]> buf)))
          else <[off + 3 := b0]> (<[off + 2 := b1]>
                 (<[off + 1 := b2]> (<[off := b3]> buf))))%nat
  else None.

(** The local [writeString]: one [setUint8] per code unit. *)
Fixpoint writeString (buf : list byte) (offset : nat) (s : list N)
  : option (list byte) :=
  match s with
  | [] => Some buf
  | c :: r =>
      buf' ← setUint8 buf offset (Z.of_N c);
      writeString buf' (S offset) r
  end.

(** [new Uint8Array(buffer, byteOffset).set(source)]: a [RangeError] when
    the view starts past the end of the buffer or the source does not
    fit. *)
Definition viewSet (buf : list byte) (byteOffset : nat) (source : list byte)
  : option (list byte) :=
  if (byteOffset <=? length buf)%nat then
    if (length source <=? length buf - byteOffset)%nat then
      Some (take byteOffset buf ++ source
              ++ drop (byteOffset + length source) buf)
    else None
  else None.

Record Blob := { blobBytes : list byte; blobType : list N }.

Definition createWavBlob (pcmData : list byte) : option Blob :=
  let numChannels := 1 in
  let bitsPerSample := 16 in
  let byteRate := (SAMPLE_RATE * numChannels * bitsPerSample) / 8 in
  let blockAlign := (numChannels * bitsPerSample) / 8 in
  let dataSize := length pcmData in
  let headerSize := 44%nat in
  let buffer := replicate (headerSize + dataSize) x00 in
  (* RIFF chunk descriptor *)
  buffer ← writeString buffer 0 (lit "RIFF");
  buffer ← setUint32 buffer 4 (36 + Z.of_nat dataSize) true;
  buffer ← writeString buffer 8 (lit "WAVE");
  (* fmt sub-chunk *)
  buffer ← writeString buffer 12 (lit "fmt ");
  buffer ← setUint32 buffer 16 16 true;
  buffer ← setUint16 buffer 20 1 true;
  buffer ← setUint16 buffer 22 numChannels true;
  buffer ← setUint32 buffer 24 SAMPLE_RATE true;
  buffer ← setUint32 buffer 28 byteRate true;
  buffer ← setUint16 buffer 32 blockAlign true;
  buffer ← setUint16 buffer 34 bitsPerSample true;
  (* data sub-chunk *)
  buffer ← writeString buffer 36 (lit "data");
  buffer ← setUint32 buffer 40 (Z.of_nat dataSize) true;
  (* Write PCM data *)
  buffer ← viewSet buffer headerSize pcmData;
  Some {| blobBytes := buffer; blobType := lit "audio/wav" |}.

(** Observations used to state the layout: the bytes [from, to) of the
    container, an ASCII tag as bytes, and the unsigned little-endian value
    of a byte sequence. *)
Definition slice (from to : nat) (l : list byte) : list byte :=
  take (to - from) (drop from l).

Definition tag (s : string) : list byte :=
  byte_of_ascii <$> list_ascii_of_string s.

Fixpoint leValue (l : list byte) : Z :=
  match l with
  | [] => 0
  | b :: r => Z.of_N (Byte.to_N b) + 256 * leValue r
  end.

(** The four bytes [setUint32(_, v, true)] writes, and the header of a
    container whose two size fields hold [chunkSize] and [dataSize]. *)
Definition le32 (v : Z) : list byte :=
  [u8 v; u8 (Z.shiftr v 8); u8 (Z.shiftr v 16); u8 (Z.shiftr v 24)].

Definition header (chunkSize dataSize : Z) : list byte :=
  tag "RIFF" ++ le32 chunkSize ++ tag "WAVE" ++ tag "fmt "
    ++ [x10; x00; x00; x00; x01; x00; x01; x00;
        xc0; x5d; x00; x00; x80; xbb; x00; x00; x02; x00; x10; x00]
    ++ tag "data" ++ le32 dataSize.

End Wav.


(* ===================================================================== *)
(** ** Exceptions and module state *)
(* ===================================================================== *)

(** The outcome of running JavaScript statements: a value, or a thrown
  exception.  The code never inspects what was thrown (it only logs it),
  so [Raise] carries nothing. *)
Inductive result (A : Type) : Type :=
| Ok (a : A)
| Raise.
Arguments Ok {A} a.
Arguments Raise {A}.

(** How a promise settles, with the payload of a fulfilled one: the
  base64 audio of a synthesis response, the text of an evaluation response;
  [None] when the response has no such field. *)
Inductive Settled : Type :=
| Rejected
| Fulfilled (payload : option (list N)).

Module Player.
Import JsString.

(** The [src] attribute of a media element. *)
Inductive Src := SrcNone | SrcEmpty | SrcUrl (url : nat).

(** What the code touches of an [HTMLAudioElement]. *)
Record AudioElement := { src : Src; paused : bool }.

(** The module-level variables of [geminiService.ts] and the part of the
    browser they act on.  [currentAudio] refers to an element of [audios];
    an object URL [n] names [objectUrls !! n]. *)
Record World := {
  currentAudio : option nat;
  latestTtsRequestId : N;
  audioCache : gmap (list N) nat;
  audios : list AudioElement;
  objectUrls : list Wav.Blob;
  (** [window.speechSynthesis]: absent, or its queue of (text, lang) *)
  speechSynthesis : option (list (list N * list N));
  (** texts sent to the remote speech model *)
  synthesisRequests : list (list N)
}.

(** Which platform calls raise, and whether the autoplay policy lets
    [play()] start, during one run of the code. *)
Record Faults := {
  pauseRaises : bool;
  srcRaises : bool;
  removeAttributeRaises : bool;
  cancelRaises : bool;
  speakRaises : bool;
  playBlocked : bool
}.

(** State and exceptions. *)
Definition M (A : Type) : Type := World → result A * World.

#[global] Instance M_ret : MRet M := λ A a w, (Ok a, w).
#[global] Instance M_bind : MBind M := λ A B k m w,
  match m w with
  | (Ok a, w') => k a w'
  | (Raise, w') => (Raise, w')
  end.

Definition raise {A} : M A := λ w, (Raise, w).
Definition gets {A} (f : World → A) : M A := λ w, (Ok (f w), w).
Definition modify (f : World → World) : M unit := λ w, (Ok tt, f w).

(** [try { body } catch (e) { handler }]: what [body] did before it raised
    stays done. *)
Definition tryCatch {A} (body handler : M A) : M A := λ w,
  match body w with
  | (Ok a, w') => (Ok a, w')
  | (Raise, w') => handler w'
  end.

Definition failIf (b : bool) : M unit := if b then raise else mret tt.

Definition set_currentAudio (a : option nat) (w : World) : World :=
  {| currentAudio := a;
     latestTtsRequestId := latestTtsRequestId w;
     audioCache := audioCache w;
     audios := audios w;
     objectUrls := objectUrls w;
     speechSynthesis := speechSynthesis w;
     synthesisRequests := synthesisRequests w |}.

Definition set_latestTtsRequestId (n : N) (w : World) : World :=
  {| currentAudio := currentAudio w;
     latestTtsRequestId := n;
     audioCache := audioCache w;
     audios := audios w;
     objectUrls := objectUrls w;
     speechSynthesis := speechSynthesis w;
     synthesisRequests := synthesisRequests w |}.

Definition set_audioCache (c : gmap (list N) nat) (w : World) : World :=
  {| currentAudio := currentAudio w;
     latestTtsRequestId := latestTtsRequestId w;
     audioCache := c;
     audios := audios w;
     objectUrls := objectUrls w;
     speechSynthesis := speechSynthesis w;
     synthesisRequests := synthesisRequests w |}.

Definition set_audios (l : list AudioElement) (w : World) : World :=
  {| currentAudio := currentAudio w;
     latestTtsRequestId := latestTtsRequestId w;
     audioCache := audioCache w;
     audios := l;
     objectUrls := objectUrls w;
     speechSynthesis := speechSynthesis w;
     synthesisRequests := synthesisRequests w |}.

Definition set_objectUrls (l : list Wav.Blob) (w : World) : World :=
  {| currentAudio := currentAudio w;
     latestTtsRequestId := latestTtsRequestId w;
     audioCache := audioCache w;
     audios := audios w;
     objectUrls := l;
     speechSynthesis := speechSynthesis w;
     synthesisRequests := synthesisRequests w |}.

Definition set_speechSynthesis (q : option (list (list N * list N)))
           (w : World) : World :=
  {| currentAudio := currentAudio w;
     latestTtsRequestId := latestTtsRequestId w;
     audioCache := audioCache w;
     audios := audios w;
     objectUrls := objectUrls w;
     speechSynthesis := q;
     synthesisRequests := synthesisRequests w |}.

Definition set_synthesisRequests (l : list (list N)) (w : World) : World :=
  {| currentAudio := currentAudio w;
     latestTtsRequestId := latestTtsRequestId w;
     audioCache := audioCache w;
     audios := audios w;
     objectUrls := objectUrls w;
     speechSynthesis := speechSynthesis w;
     synthesisRequests := l |}.

(** *** The media element and the local voice *)

Definition updAudio (a : nat) (g : AudioElement → AudioElement) : M unit :=
  modify (λ w, set_audios (alter g a (audios w)) w).

(** [new Audio(url)] *)
Definition newAudio (url : nat) : M nat := λ w,
  (Ok (length (audios w)),
   set_audios (audios w ++ [{| src := SrcUrl url; paused := true |}]) w).

(** [audio.pause()] *)
Definition pause (f : Faults) (a : nat) : M unit :=
  failIf (pauseRaises f);;
  updAudio a (λ e, {| src := src e; paused := true |}).

(** [audio.src = ""] *)
Definition clearSrc (f : Faults) (a : nat) : M unit :=
  failIf (srcRaises f);;
  updAudio a (λ e, {| src := SrcEmpty; paused := paused e |}).

(** [audio.removeAttribute("src")] *)
Definition removeSrc (f : Faults) (a : nat) : M unit :=
  failIf (removeAttributeRaises f);;
  updAudio a (λ e, {| src := SrcNone; paused := paused e |}).

(** The call [audio.play()]: playback starts unless the autoplay policy
    blocks it.  The promise it returns settles later. *)
Definition play (f : Faults) (a : nat) : M unit :=
  if playBlocked f then mret tt
  else updAudio a (λ e, {| src := src e; paused := false |}).

(** [window.speechSynthesis.cancel()] *)
Definition cancel (f : Faults) : M unit :=
  failIf (cancelRaises f);;
  modify (λ w, set_speechSynthesis (const [] <$> speechSynthesis w) w).

(** [window.speechSynthesis.speak(utterance)] *)
Definition speak (f : Faults) (text lang : list N) : M unit :=
  failIf (speakRaises f);;
  modify (λ w,
    set_speechSynthesis ((λ q, q ++ [(text, lang)]) <$> speechSynthesis w) w).

(** [URL.createObjectURL(blob)] *)
Definition createObjectURL (b : Wav.Blob) : M nat := λ w,
  (Ok (length (objectUrls w)), set_objectUrls (objectUrls w ++ [b]) w).

(** [++latestTtsRequestId], in double arithmetic: exact below [2^53],
    where adding one no longer changes the number. *)
Definition preIncrement (n : N) : N :=
  if (n <? 2 ^ 53)%N then (n + 1)%N else n.

(** *** [isAudioPlaying] and [stopAllAudio] *)

Definition isAudioPlaying (w : World) : bool :=
  match currentAudio w with
  | Some a =>
      match audios w !! a with
      | Some e => negb (paused e)
      | None => false
      end
  | None => false
  end.

Definition stopAllAudio (f : Faults) : M unit :=
  cur ← gets currentAudio;
  match cur with
  | Some a =>
      tryCatch
        (pause f a;;
         clearSrc f a;;
         removeSrc f a;;
         modify (set_currentAudio None))
        (mret tt) (* console.warn *)
  | None => mret tt
  end;;
  (* Cancel Browser Synthesis fallback *)
  sp ← gets speechSynthesis;
  match sp with
  | Some _ => tryCatch (cancel f) (mret tt)
  | None => mret tt
  end.

(** *** [playTextToSpeech] *)

(** Where a call of [playTextToSpeech] is suspended, with the variables
    its continuation uses. *)
Inductive Await :=
| AwaitSynthesis (requestId : N) (text : list N)
| AwaitCachedPlay (requestId : N) (audio : nat)
| AwaitFreshPlay (requestId : N) (audio : nat).

Definition requestOf (k : Await) : N :=
  match k with
  | AwaitSynthesis r _ | AwaitCachedPlay r _ | AwaitFreshPlay r _ => r
  end.

(** A call has returned its boolean, or waits at an [await]. *)
Inductive Progress :=
| Returned (b : bool)
| Suspended (k : Await).

Section Synthesis.

(** [atob]: the binary string a base64 text decodes to;
    [InvalidCharacterError] ([None]) otherwise. *)
Variable atob : list N → option (list N).

Definition base64ToUint8Array (base64 : list N) : M (list byte) :=
  match atob base64 with
  | Some binaryString =>
      mret ((λ c, Wav.u8 (Z.of_N c)) <$> binaryString)
  | None => raise
  end.

Definition createWavBlob (pcmData : list byte) : M Wav.Blob :=
  match Wav.createWavBlob pcmData with
  | Some b => mret b
  | None => raise
  end.

(** The outer [catch] block. *)
Definition fallback (f : Faults) (requestId : N) (text : list N)
  : M Progress :=
  latest ← gets latestTtsRequestId;
  if negb (requestId =? latest)%N then mret (Returned false)
  else
    (* Fallback to browser TTS *)
    sp ← gets speechSynthesis;
    match sp with
    | Some _ =>
        stopAllAudio f;;
        tryCatch
          (speak f text (lit "en-GB");; mret (Returned true))
          (mret (Returned false))
    | None => mret (Returned false)
    end.

(** From the call to the first [await]. *)
Definition playTextToSpeech (f : Faults) (text : list N) : M Progress :=
  modify (λ w,
    set_latestTtsRequestId (preIncrement (latestTtsRequestId w)) w);;
  requestId ← gets latestTtsRequestId;
  tryCatch
    (cache ← gets audioCache;
     (* 1. Check Cache first *)
     match cache !! text with
     | Some audioUrl =>
         stopAllAudio f;;
         latest ← gets latestTtsRequestId;
         if negb (requestId =? latest)%N then mret (Returned false)
         else
           audio ← newAudio audioUrl;
           modify (set_currentAudio (Some audio));;
           play f audio;;
           mret (Suspended (AwaitCachedPlay requestId audio))
     | None =>
         (* 2. Fetch from API if not cached *)
         modify (λ w,
           set_synthesisRequests (synthesisRequests w ++ [text]) w);;
         mret (Suspended (AwaitSynthesis requestId text))
     end)
    (fallback f requestId text).

(** From the settling of the awaited promise to the next [await] or the
    return. *)
Definition resume (f : Faults) (k : Await) (o : Settled) : M Progress :=
  match k with
  | AwaitSynthesis requestId text =>
      tryCatch
        (base64Audio ← match o with
                       | Rejected => raise
                       | Fulfilled d => mret d
                       end;
         latest ← gets latestTtsRequestId;
         if negb (requestId =? latest)%N then mret (Returned false)
         else
           match base64Audio with
           | None | Some [] => raise (* No audio data returned *)
           | Some base64Audio =>
               (* 3. Convert raw PCM to WAV Blob *)
               pcmBytes ← base64ToUint8Array base64Audio;
               wavBlob ← createWavBlob pcmBytes;
               audioUrl ← createObjectURL wavBlob;
               (* 4. Cache it *)
               modify (λ w,
                 set_audioCache (<[text := audioUrl]> (audioCache w)) w);;
               (* 5. Play *)
               stopAllAudio f;;
               latest ← gets latestTtsRequestId;
               if negb (requestId =? latest)%N then mret (Returned false)
               else
                 audio ← newAudio audioUrl;
                 modify (set_currentAudio (Some audio));;
                 play f audio;;
                 mret (Suspended (AwaitFreshPlay requestId audio))
           end)
        (fallback f requestId text)
  | AwaitCachedPlay _ _ | AwaitFreshPlay _ _ =>
      match o with
      | Fulfilled _ => mret (Returned true)
      | Rejected => mret (Returned false) (* console.warn *)
      end
  end.

(** *** Calls in flight

    The module state, the calls of [playTextToSpeech] that are suspended,
    and what the finished ones returned (by request id). *)
Record Sys := {
  world : World;
  inflight : list Await;
  returns : list (N * bool)
}.

Inductive Event :=
| Call (f : Faults) (text : list N)
| Settle (f : Faults) (i : nat) (o : Settled)
| StopAll (f : Faults).

Definition settleProgress (requestId : N) (p : result Progress) (s : Sys)
           (w : World) (rest : list Await) : Sys :=
  match p with
  | Ok (Returned b) =>
      {| world := w; inflight := rest;
         returns := returns s ++ [(requestId, b)] |}
  | Ok (Suspended k) =>
      {| world := w; inflight := rest ++ [k]; returns := returns s |}
  | Raise =>
      {| world := w; inflight := rest; returns := returns s |}
  end.

(** One turn of the event loop: a new call runs to its first [await],
    or the [i]-th suspended call resumes. *)
Definition step (s : Sys) (e : Event) : Sys :=
  match e with
  | Call f text =>
      let '(p, w) := playTextToSpeech f text (world s) in
      settleProgress (latestTtsRequestId w) p s w (inflight s)
  | Settle f i o =>
      match inflight s !! i with
      | Some k =>
          let '(p, w) := resume f k o (world s) in
          settleProgress (requestOf k) p s w (delete i (inflight s))
      | None => s
      end
  | StopAll f =>
      {| world := (stopAllAudio f (world s)).2;
         inflight := inflight s; returns := returns s |}
  end.

Definition run (s : Sys) (es : list Event) : Sys := foldl step s es.

End Synthesis.

(** The module as loaded: nothing cached, no request issued. *)
Definition initialWorld (voice : bool) : World :=
  {| currentAudio := None;
     latestTtsRequestId := 0;
     audioCache := ∅;
     audios := [];
     objectUrls := [];
     speechSynthesis := if voice then Some [] else None;
     synthesisRequests := [] |}.

Definition initialSys (voice : bool) : Sys :=
  {| world := initialWorld voice; inflight := []; returns := [] |}.

Definition noFaults : Faults :=
  {| pauseRaises := false; srcRaises := false;
     removeAttributeRaises := false; cancelRaises := false;
     speakRaises := false; playBlocked := false |}.

(** *** Vocabulary of the properties *)

(** The element [a] of the world is paused (or does not exist). *)
Definition silent (a : nat) (w : World) : Prop :=
  ∀ e, audios w !! a = Some e → paused e = true.

(** What [stopAllAudio] and the fallback leave alone. *)
Definition frame (w w' : World) : Prop :=
  latestTtsRequestId w' = latestTtsRequestId w
  ∧ audioCache w' = audioCache w
  ∧ objectUrls w' = objectUrls w
  ∧ synthesisRequests w' = synthesisRequests w.

(** The bytes of a decoded binary string, as [base64ToUint8Array] stores
    them. *)
Definition toBytes (binaryString : list N) : list byte :=
  (λ c, Wav.u8 (Z.of_N c)) <$> binaryString.

(** The number of requests sent to the remote model for a text. *)
Definition sentFor (t : list N) (w : World) : nat :=
  length (filter (λ x, x = t) (synthesisRequests w)).

(** The faults in force while an event is handled. *)
Definition eventFaults (e : Event) : Faults :=
  match e with
  | Call f _ | Settle f _ _ | StopAll f => f
  end.

(** A synthesis that does not end in audio: the request is rejected, the
    response has no audio data, or the data does not decode. *)
Definition synthesisFailed (atob : list N → option (list N)) (o : Settled)
  : bool :=
  match o with
  | Rejected => true
  | Fulfilled None | Fulfilled (Some []) => true
  | Fulfilled (Some base64Audio) =>
      match atob base64Audio with Some _ => false | None => true end
  end.

(** Every element that is not the current one is paused. *)
Definition exclusive (w : World) : Prop :=
  ∀ a e, audios w !! a = Some e → paused e = false → currentAudio w = Some a.

(** The handle names an element that exists; every object URL holds a
    container built by [createWavBlob]; every cache entry is such a URL. *)
Definition sound (w : World) : Prop :=
  (∀ a, currentAudio w = Some a → (a < length (audios w))%nat)
  ∧ (∀ u wav, objectUrls w !! u = Some wav →
              ∃ pcm, Wav.createWavBlob pcm = Some wav)
  ∧ (∀ t u, audioCache w !! t = Some u → (u < length (objectUrls w))%nat).

(** [w'] is [w1] with a new element for [url] created, made current and
    asked to play. *)
Definition startedFrom (f : Faults) (url : nat) (w1 w' : World) : Prop :=
  audios w' = audios w1 ++ [{| src := SrcUrl url; paused := playBlocked f |}]
  ∧ currentAudio w' = Some (length (audios w1))
  ∧ latestTtsRequestId w' = latestTtsRequestId w1
  ∧ audioCache w' = audioCache w1
  ∧ objectUrls w' = objectUrls w1
  ∧ speechSynthesis w' = speechSynthesis w1
  ∧ synthesisRequests w' = synthesisRequests w1.

(** The request ids of the calls in flight. *)
Definition inflightIds (s : Sys) : list N := requestOf <$> inflight s.

(** The number of calls of [playTextToSpeech] among the events. *)
Fixpoint callCount (es : list Event) : nat :=
  match es with
  | [] => 0
  | Call _ _ :: es => S (callCount es)
  | _ :: es => callCount es
  end.


End Player.

(* ===================================================================== *)
(** ** Plans, session data, reports ([types.ts]) and [evaluateSession] *)
(* ===================================================================== *)

Module Evaluation.
Import JsString.

Inductive Part := Part1 | Part2.
Inductive Target := Tom | Bella | Both.

Record Question := {
  id : list N;
  text : list N;
  part : Part;
  target : Target
}.

Record DailyPlan := {
  day : Z;
  topic : list N;
  questions : list Question
}.

(** questionId -> transcript *)
Record StudentSessionData := { answers : gmap (list N) (list N) }.

Record SessionData := {
  studentA : StudentSessionData;
  studentB : StudentSessionData
}.

Record EvaluationResult := {
  score : Q;
  feedback : list N;
  goodPoints : list (list N);
  badPoints : list (list N);
  suggestions : list (list N)
}.

(** [resultA] and [resultB] are the fields [studentA] and [studentB] of the
    TypeScript [FullReport]. *)
Record FullReport := {
  resultA : EvaluationResult;
  resultB : EvaluationResult;
  generalFeedback : list N
}.

(** The request to the remote evaluator.  Its prompt is built from the
    plan and the two answer maps, which stand for it here. *)
Record EvaluationRequest := {
  requestPlan : DailyPlan;
  requestAnswersA : gmap (list N) (list N);
  requestAnswersB : gmap (list N) (list N)
}.

(** What [JSON.parse(text) as FullReport] evaluates to.  The cast checks
    nothing: the value is a report, or some other JSON value, of which the
    code only tests the truthiness ([null], [false], [0] and the empty
    string are falsy). *)
Inductive ReportValue :=
| ReportObject (r : FullReport)
| OtherReport (truthyValue : bool).

Inductive EvalProgress :=
| EvalReturned (r : FullReport)
| EvalAwait (request : EvaluationRequest).

Definition noAnswersResult : EvaluationResult :=
  {| score := 0;
     feedback := lit "No answers recorded.";
     goodPoints := [];
     badPoints := [lit "No speech input detected."];
     suggestions := [lit "Check microphone settings."] |}.

Definition noAnswersReport : FullReport :=
  {| resultA := noAnswersResult;
     resultB := noAnswersResult;
     generalFeedback :=
       lit "Session ended without any recorded answers." |}.

(** [Object.keys(o).length > 0] *)
Definition hasKeys (o : gmap (list N) (list N)) : bool :=
  (0 <? size o)%nat.

(** [evaluateSession] up to its [await]. *)
Definition evaluateSession (plan : DailyPlan) (sessionData : SessionData)
  : EvalProgress :=
  let hasTomAnswers := hasKeys (answers (studentA sessionData)) in
  let hasBellaAnswers := hasKeys (answers (studentB sessionData)) in
  if negb hasTomAnswers && negb hasBellaAnswers then
    EvalReturned noAnswersReport
  else
    EvalAwait {| requestPlan := plan;
                 requestAnswersA := answers (studentA sessionData);
                 requestAnswersB := answers (studentB sessionData) |}.

Section Parse.

(** [JSON.parse]: a [SyntaxError] ([None]) on text that is not JSON. *)
Variable parseReport : list N → option ReportValue.

(** [evaluateSession] from the settling of the remote call. *)
Definition evaluateSession_resume (o : Settled) : result ReportValue :=
  match o with
  | Rejected => Raise
  | Fulfilled None | Fulfilled (Some []) =>
      Raise (* Failed to generate report *)
  | Fulfilled (Some text) =>
      match parseReport text with
      | Some v => Ok v
      | None => Raise
      end
  end.

(** What the promise returned by [evaluateSession] settles to. *)
Definition evaluateSession_settle (p : EvalProgress) (o : Settled)
  : result ReportValue :=
  match p with
  | EvalReturned r => Ok (ReportObject r)
  | EvalAwait _ => evaluateSession_resume o
  end.

End Parse.

End Evaluation.

(* ===================================================================== *)
(** ** Transcript assembly ([StudentBox.tsx]) *)
(* ===================================================================== *)

Module StudentBox.
Import JsString.

(** What the page can do: the three tests on the user agent string, the
    presence of a speech recognition constructor, and whether reading the
    user agent raises. *)
Record Platform := {
  uaRaises : bool;
  uaIOS : bool;           (* /iphone|ipad|ipod/ *)
  uaSafari : bool;        (* /safari/ *)
  uaOtherBrowser : bool;  (* /crios|fxios|crmo|edgios/ *)
  speechRecognition : bool
}.

(** Which calls on the recognition engine raise during one handler. *)
Record RecFaults := {
  constructRaises : bool;
  startRaises : bool;
  stopRaises : bool;
  abortRaises : bool
}.

Inductive RecCall := RecStartCall | RecStopCall | RecAbortCall.

(** The recognition instance held in [recognitionInstanceRef]: the calls
    it has received. *)
Record Recognition := { calls : list RecCall }.

(** One entry of [event.results]: [results[i].isFinal] and
    [results[i][0].transcript]. *)
Record SpeechResult := { isFinal : bool; alternative : list N }.

Record Box := {
  isRecording : bool;
  transcript : list N;
  interimTranscript : list N;
  errorMsg : option (list N);
  isManualMode : bool;
  manualText : list N;
  recognitionInstanceRef : option Recognition;
  fullTranscriptRef : list N;
  isMountedRef : bool
}.

(** The props [TestSession] passes down. *)
Record Props := { hasAnswered : bool; isActive : bool; disabled : bool }.

Definition set_isRecording (v : bool) (b : Box) : Box :=
  {| isRecording := v; transcript := transcript b;
     interimTranscript := interimTranscript b; errorMsg := errorMsg b;
     isManualMode := isManualMode b; manualText := manualText b;
     recognitionInstanceRef := recognitionInstanceRef b;
     fullTranscriptRef := fullTranscriptRef b;
     isMountedRef := isMountedRef b |}.

Definition set_transcript (v : list N) (b : Box) : Box :=
  {| isRecording := isRecording b; transcript := v;
     interimTranscript := interimTranscript b; errorMsg := errorMsg b;
     isManualMode := isManualMode b; manualText := manualText b;
     recognitionInstanceRef := recognitionInstanceRef b;
     fullTranscriptRef := fullTranscriptRef b;
     isMountedRef := isMountedRef b |}.

Definition set_interimTranscript (v : list N) (b : Box) : Box :=
  {| isRecording := isRecording b; transcript := transcript b;
     interimTranscript := v; errorMsg := errorMsg b;
     isManualMode := isManualMode b; manualText := manualText b;
     recognitionInstanceRef := recognitionInstanceRef b;
     fullTranscriptRef := fullTranscriptRef b;
     isMountedRef := isMountedRef b |}.

Definition set_errorMsg (v : option (list N)) (b : Box) : Box :=
  {| isRecording := isRecording b; transcript := transcript b;
     interimTranscript := interimTranscript b; errorMsg := v;
     isManualMode := isManualMode b; manualText := manualText b;
     recognitionInstanceRef := recognitionInstanceRef b;
     fullTranscriptRef := fullTranscriptRef b;
     isMountedRef := isMountedRef b |}.

Definition set_isManualMode (v : bool) (b : Box) : Box :=
  {| isRecording := isRecording b; transcript := transcript b;
     interimTranscript := interimTranscript b; errorMsg := errorMsg b;
     isManualMode := v; manualText := manualText b;
     recognitionInstanceRef := recognitionInstanceRef b;
     fullTranscriptRef := fullTranscriptRef b;
     isMountedRef := isMountedRef b |}.

Definition set_manualText (v : list N) (b : Box) : Box :=
  {| isRecording := isRecording b; transcript := transcript b;
     interimTranscript := interimTranscript b; errorMsg := errorMsg b;
     isManualMode := isManualMode b; manualText := v;
     recognitionInstanceRef := recognitionInstanceRef b;
     fullTranscriptRef := fullTranscriptRef b;
     isMountedRef := isMountedRef b |}.

Definition set_recognitionInstanceRef (v : option Recognition) (b : Box)
  : Box :=
  {| isRecording := isRecording b; transcript := transcript b;
     interimTranscript := interimTranscript b; errorMsg := errorMsg b;
     isManualMode := isManualMode b; manualText := manualText b;
     recognitionInstanceRef := v;
     fullTranscriptRef := fullTranscriptRef b;
     isMountedRef := isMountedRef b |}.

Definition set_fullTranscriptRef (v : list N) (b : Box) : Box :=
  {| isRecording := isRecording b; transcript := transcript b;
     interimTranscript := interimTranscript b; errorMsg := errorMsg b;
     isManualMode := isManualMode b; manualText := manualText b;
     recognitionInstanceRef := recognitionInstanceRef b;
     fullTranscriptRef := v;
     isMountedRef := isMountedRef b |}.

Definition set_isMountedRef (v : bool) (b : Box) : Box :=
  {| isRecording := isRecording b; transcript := transcript b;
     interimTranscript := interimTranscript b; errorMsg := errorMsg b;
     isManualMode := isManualMode b; manualText := manualText b;
     recognitionInstanceRef := recognitionInstanceRef b;
     fullTranscriptRef := fullTranscriptRef b;
     isMountedRef := v |}.

(** A method call on the instance inside [try { ... } catch(e) {}]: it is
    recorded unless it raises. *)
Definition callRecognition (raises : bool) (c : RecCall) (b : Box) : Box :=
  match recognitionInstanceRef b with
  | Some r =>
      if raises then b
      else set_recognitionInstanceRef (Some {| calls := calls r ++ [c] |}) b
  | None => b
  end.

(** The component as first rendered, before its mount effect. *)
Definition freshBox : Box :=
  {| isRecording := false; transcript := []; interimTranscript := [];
     errorMsg := None; isManualMode := false; manualText := [];
     recognitionInstanceRef := None; fullTranscriptRef := [];
     isMountedRef := true |}.

(** The effect that runs on mount (the component is keyed by the question
    id, so a new question id mounts a new component). *)
Definition mountBox (pf : Platform) : Box :=
  let b := freshBox in
  if uaRaises pf then set_isManualMode true b
  else
    let isIOS := uaIOS pf in
    let isSafari := isIOS && uaSafari pf && negb (uaOtherBrowser pf) in
    (* Strict iOS Non-Safari Check *)
    if isIOS && negb isSafari then
      set_errorMsg
        (Some (lit "Browser not supported. Please use Safari on iOS or Chrome on Android."))
        (set_isManualMode true b)
    else if negb (speechRecognition pf) then
      set_errorMsg (Some (lit "Voice not supported. Manual mode."))
        (set_isManualMode true b)
    else b.

(** Whether that effect leaves through its [return] for iOS outside
    Safari, which comes before the cleanup is returned. *)
Definition returnsEarly (pf : Platform) : bool :=
  let isIOS := uaIOS pf in
  let isSafari := isIOS && uaSafari pf && negb (uaOtherBrowser pf) in
  negb (uaRaises pf) && isIOS && negb isSafari.

(** What React runs when the component goes: the cleanup of that effect,
    where the effect returned one. *)
Definition unmountBox (pf : Platform) (f : RecFaults) (b : Box) : Box :=
  if returnsEarly pf then b
  else callRecognition (abortRaises f) RecAbortCall (set_isMountedRef false b).

(** [getRecognition]: the instance, created on first use; [None] is
    [null]. *)
Definition getRecognition (pf : Platform) (f : RecFaults) (b : Box)
  : Box * option Recognition :=
  match recognitionInstanceRef b with
  | Some r => (b, Some r)
  | None =>
      if negb (speechRecognition pf) then (b, None)
      else if constructRaises f then (b, None) (* console.error *)
      else
        let r := {| calls := [] |} in
        (set_recognitionInstanceRef (Some r) b, Some r)
  end.

(** [recognition.onstart] *)
Definition onstart (b : Box) : Box :=
  if isMountedRef b then set_errorMsg None (set_isRecording true b) else b.

(** The two accumulators of the loop in [recognition.onresult]. *)
Fixpoint collect (results : list SpeechResult) (newFinal newInterim : list N)
  : list N * list N :=
  match results with
  | [] => (newFinal, newInterim)
  | r :: rest =>
      if isFinal r then collect rest (newFinal ++ alternative r) newInterim
      else collect rest newFinal (newInterim ++ alternative r)
  end.

(** [recognition.onresult] *)
Definition onresult (results : list SpeechResult) (b : Box) : Box :=
  if negb (isMountedRef b) then b
  else
    let '(newFinal, newInterim) := collect results [] [] in
    let b :=
      if truthy newFinal then
        let full := trim (spaced (fullTranscriptRef b) newFinal) in
        set_transcript full (set_fullTranscriptRef full b)
      else b in
    set_interimTranscript newInterim b.

(** [recognition.onerror] *)
Definition onerror (error : list N) (b : Box) : Box :=
  if negb (isMountedRef b) then b
  else if bool_decide (error = lit "no-speech")
          || bool_decide (error = lit "aborted") then
    (* Ignore common non-critical errors *)
    set_isRecording false b
  else
    let b := set_isRecording false b in
    if bool_decide (error = lit "not-allowed") then
      set_errorMsg (Some (lit "Mic blocked. Check settings.")) b
    else if bool_decide (error = lit "audio-capture") then
      set_errorMsg (Some (lit "No mic found.")) b
    else if bool_decide (error = lit "network") then
      set_errorMsg (Some (lit "Network error.")) b
    else set_errorMsg (Some (lit "Error: " ++ error)) b.

(** [recognition.onend] *)
Definition onend (b : Box) : Box :=
  if isMountedRef b then set_isRecording false b else b.

(** [handleMicClick]; the boolean tells whether [stopAllAudio] was
    called. *)
Definition handleMicClick (pf : Platform) (f : RecFaults) (b : Box)
  : Box * bool :=
  (* 1. If recording, stop *)
  if isRecording b then (callRecognition (stopRaises f) RecStopCall b, false)
  else
    (* 2. Start Recording *)
    let b := set_errorMsg None b in
    let '(b, recognition) := getRecognition pf f b in
    match recognition with
    | None => (set_isManualMode true b, true)
    | Some _ =>
        (* Reset interim for new session *)
        let b := set_interimTranscript [] b in
        if startRaises f then
          (* Force manual mode on crash *)
          (set_errorMsg (Some (lit "Device error. Switched to manual."))
             (set_isManualMode true (set_isRecording false b)), true)
        else (callRecognition false RecStartCall b, true)
    end.

(** [handleSubmit]; the second component is the argument of
    [onAnswerComplete] when it is called. *)
Definition handleSubmit (f : RecFaults) (b : Box)
  : Box * option (list N) :=
  let finalText := fullTranscriptRef b in
  let finalText := if isManualMode b then manualText b else finalText in
  (* Capture leftover interim text (crucial for Android) *)
  let finalText :=
    if truthy (interimTranscript b) && negb (isManualMode b)
    then trim (spaced finalText (interimTranscript b))
    else finalText in
  if negb (truthy (trim finalText)) then
    (set_errorMsg (Some (lit "Please say something first.")) b, None)
  else
    (* Stop recognition if running *)
    let b :=
      if isRecording b then callRecognition (abortRaises f) RecAbortCall b
      else b in
    (b, Some (trim finalText)).

(** [hasText] *)
Definition hasText (b : Box) : bool :=
  if isManualMode b then (0 <? length (manualText b))%nat
  else (0 <? length (transcript b))%nat
       || (0 <? length (interimTranscript b))%nat.

(** What can happen to a box: clicks and typing on its controls, and the
    callbacks of its recognition instance. *)
Inductive BoxEvent :=
| MicClick (f : RecFaults)
| SubmitClick (f : RecFaults)
| TypeVoiceClick
| ManualChange (text : list N)
| RecStart
| RecResult (results : list SpeechResult)
| RecError (error : list N)
| RecEnd.

(** Whether the control of an event is rendered and enabled, and whether a
    callback can arrive (an instance exists). *)
Definition enabled (p : Props) (b : Box) (e : BoxEvent) : bool :=
  match e with
  | MicClick _ =>
      negb (hasAnswered p) && negb (isManualMode b) && negb (disabled p)
  | SubmitClick _ =>
      negb (hasAnswered p)
      && (isManualMode b
          || negb (disabled p
                   || (negb (hasText b)
                       && negb (truthy (interimTranscript b)))))
  | TypeVoiceClick => isActive p && negb (hasAnswered p)
  | ManualChange _ => negb (hasAnswered p) && isManualMode b
  | RecStart | RecResult _ | RecError _ | RecEnd =>
      match recognitionInstanceRef b with Some _ => true | None => false end
  end.

(** What one event does to the box: the new state, whether [stopAllAudio]
    was called, and the answer handed to [onAnswerComplete] if any. *)
Definition boxStep (pf : Platform) (p : Props) (b : Box) (e : BoxEvent)
  : Box * bool * option (list N) :=
  if negb (enabled p b e) then (b, false, None)
  else
    match e with
    | MicClick f => let '(b', s) := handleMicClick pf f b in (b', s, None)
    | SubmitClick f => let '(b', a) := handleSubmit f b in (b', false, a)
    | TypeVoiceClick => (set_isManualMode (negb (isManualMode b)) b, false, None)
    | ManualChange t => (set_manualText t b, false, None)
    | RecStart => (onstart b, false, None)
    | RecResult rs => (onresult rs b, false, None)
    | RecError c => (onerror c b, false, None)
    | RecEnd => (onend b, false, None)
    end.

(** *** Vocabulary of the properties *)

(** The final and the interim segments of a batch, in order. *)
Definition finalsOf (results : list SpeechResult) : list (list N) :=
  alternative <$> filter (λ r, isFinal r = true) results.

Definition interimsOf (results : list SpeechResult) : list (list N) :=
  alternative <$> filter (λ r, isFinal r = false) results.

(** A batch with at most one final segment, and that one not empty and not
    ending in white space. *)
Definition tidy (results : list SpeechResult) : Prop :=
  (length (finalsOf results) ≤ 1)%nat ∧ Forall endsClean (finalsOf results).

(** The batches of a recognition stream, delivered in order. *)
Definition feed (batches : list (list SpeechResult)) (b : Box) : Box :=
  foldl (λ b results, onresult results b) b batches.

(** What a submit is about: the typed text in manual mode, else the final
    transcript followed, after a space, by the interim text still pending;
    trimmed. *)
Definition submitText (b : Box) : list N :=
  trim (if isManualMode b then manualText b
        else if truthy (interimTranscript b)
             then spaced (fullTranscriptRef b) (interimTranscript b)
             else fullTranscriptRef b).

Definition final (s : string) : SpeechResult :=
  {| isFinal := true; alternative := lit s |}.

Definition interim (s : string) : SpeechResult :=
  {| isFinal := false; alternative := lit s |}.

(** The box after a sequence of events, each with the props of the render
    it arrives in. *)
Definition boxRun (pf : Platform) (b : Box) (es : list (Props * BoxEvent))
  : Box :=
  foldl (λ b pe, (boxStep pf pe.1 b pe.2).1.1) b es.

(** The callbacks of the recognition instance. *)
Definition isCallback (e : BoxEvent) : bool :=
  match e with
  | RecStart | RecResult _ | RecError _ | RecEnd => true
  | _ => false
  end.

(** What holds of a mounted box through its life: the displayed transcript
    is the accumulated one, it is trimmed, and a recognition instance
    exists only where the platform has a constructor for it. *)
Definition boxInv (pf : Platform) (b : Box) : Prop :=
  transcript b = fullTranscriptRef b
  ∧ trim (transcript b) = transcript b
  ∧ isMountedRef b = true
  ∧ (is_Some (recognitionInstanceRef b) → speechRecognition pf = true).


End StudentBox.

(* ===================================================================== *)
(** ** The turn-taking state machine ([TestSession.tsx]) *)
(* ===================================================================== *)

Module TestSession.
Import JsString Evaluation StudentBox.

Inductive Phase :=
| examiner_speaking
| student_a_turn
| student_b_turn
| evaluating
| results.

#[global] Instance Phase_eq_dec : EqDecision Phase.
Proof. solve_decision. Defined.

Inductive Student := StudentA | StudentB.

(** Calls into [geminiService.ts]. *)
Inductive Effect :=
| StopAllAudio
| PlayTextToSpeech (text : list N)
| EvaluateRemote (request : EvaluationRequest).

(** Who awaits a call of [playTextToSpeech]: the autoplay effect,
    [handleManualPlay], or the replay button. *)
Inductive TtsCaller := Autoplay | ManualPlay | Replay.

(** The state variables of the component, its two boxes, and what is
    scheduled: the autoplay timer, the confirmation timers, the awaited
    calls. [effects] records the calls made into the service, oldest
    first. *)
Record Session := {
  plan : DailyPlan;
  currentQuestionIdx : nat;
  showQuestionText : bool;
  isTTSLoading : bool;
  autoplayBlocked : bool;
  sessionData : SessionData;
  phase : Phase;
  report : option ReportValue;
  isFinishing : bool;
  confirmExit : bool;
  tomBox : Box;
  bellaBox : Box;
  autoplayTimer : bool;
  confirmTimers : nat;
  awaitedTts : list TtsCaller;
  awaitedEvaluation : option EvalProgress;
  effects : list Effect
}.

Definition set_currentQuestionIdx (v : nat) (s : Session) : Session :=
  {| plan := plan s; currentQuestionIdx := v;
     showQuestionText := showQuestionText s; isTTSLoading := isTTSLoading s;
     autoplayBlocked := autoplayBlocked s; sessionData := sessionData s;
     phase := phase s; report := report s; isFinishing := isFinishing s;
     confirmExit := confirmExit s; tomBox := tomBox s;
     bellaBox := bellaBox s; autoplayTimer := autoplayTimer s;
     confirmTimers := confirmTimers s; awaitedTts := awaitedTts s;
     awaitedEvaluation := awaitedEvaluation s; effects := effects s |}.

Definition set_showQuestionText (v : bool) (s : Session) : Session :=
  {| plan := plan s; currentQuestionIdx := currentQuestionIdx s;
     showQuestionText := v; isTTSLoading := isTTSLoading s;
     autoplayBlocked := autoplayBlocked s; sessionData := sessionData s;
     phase := phase s; report := report s; isFinishing := isFinishing s;
     confirmExit := confirmExit s; tomBox := tomBox s;
     bellaBox := bellaBox s; autoplayTimer := autoplayTimer s;
     confirmTimers := confirmTimers s; awaitedTts := awaitedTts s;
     awaitedEvaluation := awaitedEvaluation s; effects := effects s |}.

Definition set_isTTSLoading (v : bool) (s : Session) : Session :=
  {| plan := plan s; currentQuestionIdx := currentQuestionIdx s;
     showQuestionText := showQuestionText s; isTTSLoading := v;
     autoplayBlocked := autoplayBlocked s; sessionData := sessionData s;
     phase := phase s; report := report s; isFinishing := isFinishing s;
     confirmExit := confirmExit s; tomBox := tomBox s;
     bellaBox := bellaBox s; autoplayTimer := autoplayTimer s;
     confirmTimers := confirmTimers s; awaitedTts := awaitedTts s;
     awaitedEvaluation := awaitedEvaluation s; effects := effects s |}.

Definition set_autoplayBlocked (v : bool) (s : Session) : Session :=
  {| plan := plan s; currentQuestionIdx := currentQuestionIdx s;
     showQuestionText := showQuestionText s; isTTSLoading := isTTSLoading s;
     autoplayBlocked := v; sessionData := sessionData s;
     phase := phase s; report := report s; isFinishing := isFinishing s;
     confirmExit := confirmExit s; tomBox := tomBox s;
     bellaBox := bellaBox s; autoplayTimer := autoplayTimer s;
     confirmTimers := confirmTimers s; awaitedTts := awaitedTts s;
     awaitedEvaluation := awaitedEvaluation s; effects := effects s |}.

Definition set_sessionData (v : SessionData) (s : Session) : Session :=
  {| plan := plan s; currentQuestionIdx := currentQuestionIdx s;
     showQuestionText := showQuestionText s; isTTSLoading := isTTSLoading s;
     autoplayBlocked := autoplayBlocked s; sessionData := v;
     phase := phase s; report := report s; isFinishing := isFinishing s;
     confirmExit := confirmExit s; tomBox := tomBox s;
     bellaBox := bellaBox s; autoplayTimer := autoplayTimer s;
     confirmTimers := confirmTimers s; awaitedTts := awaitedTts s;
     awaitedEvaluation := awaitedEvaluation s; effects := effects s |}.

Definition set_phase (v : Phase) (s : Session) : Session :=
  {| plan := plan s; currentQuestionIdx := currentQuestionIdx s;
     showQuestionText := showQuestionText s; isTTSLoading := isTTSLoading s;
     autoplayBlocked := autoplayBlocked s; sessionData := sessionData s;
     phase := v; report := report s; isFinishing := isFinishing s;
     confirmExit := confirmExit s; tomBox := tomBox s;
     bellaBox := bellaBox s; autoplayTimer := autoplayTimer s;
     confirmTimers := confirmTimers s; awaitedTts := awaitedTts s;
     awaitedEvaluation := awaitedEvaluation s; effects := effects s |}.

Definition set_report (v : option ReportValue) (s : Session) : Session :=
  {| plan := plan s; currentQuestionIdx := currentQuestionIdx s;
     showQuestionText := showQuestionText s; isTTSLoading := isTTSLoading s;
     autoplayBlocked := autoplayBlocked s; sessionData := sessionData s;
     phase := phase s; report := v; isFinishing := isFinishing s;
     confirmExit := confirmExit s; tomBox := tomBox s;
     bellaBox := bellaBox s; autoplayTimer := autoplayTimer s;
     confirmTimers := confirmTimers s; awaitedTts := awaitedTts s;
     awaitedEvaluation := awaitedEvaluation s; effects := effects s |}.

Definition set_isFinishing (v : bool) (s : Session) : Session :=
  {| plan := plan s; currentQuestionIdx := currentQuestionIdx s;
     showQuestionText := showQuestionText s; isTTSLoading := isTTSLoading s;
     autoplayBlocked := autoplayBlocked s; sessionData := sessionData s;
     phase := phase s; report := report s; isFinishing := v;
     confirmExit := confirmExit s; tomBox := tomBox s;
     bellaBox := bellaBox s; autoplayTimer := autoplayTimer s;
     confirmTimers := confirmTimers s; awaitedTts := awaitedTts s;
     awaitedEvaluation := awaitedEvaluation s; effects := effects s |}.

Definition set_confirmExit (v : bool) (s : Session) : Session :=
  {| plan := plan s; currentQuestionIdx := currentQuestionIdx s;
     showQuestionText := showQuestionText s; isTTSLoading := isTTSLoading s;
     autoplayBlocked := autoplayBlocked s; sessionData := sessionData s;
     phase := phase s; report := report s; isFinishing := isFinishing s;
     confirmExit := v; tomBox := tomBox s;
     bellaBox := bellaBox s; autoplayTimer := autoplayTimer s;
     confirmTimers := confirmTimers s; awaitedTts := awaitedTts s;
     awaitedEvaluation := awaitedEvaluation s; effects := effects s |}.

Definition set_boxes (a b : Box) (s : Session) : Session :=
  {| plan := plan s; currentQuestionIdx := currentQuestionIdx s;
     showQuestionText := showQuestionText s; isTTSLoading := isTTSLoading s;
     autoplayBlocked := autoplayBlocked s; sessionData := sessionData s;
     phase := phase s; report := report s; isFinishing := isFinishing s;
     confirmExit := confirmExit s; tomBox := a;
     bellaBox := b; autoplayTimer := autoplayTimer s;
     confirmTimers := confirmTimers s; awaitedTts := awaitedTts s;
     awaitedEvaluation := awaitedEvaluation s; effects := effects s |}.

Definition set_autoplayTimer (v : bool) (s : Session) : Session :=
  {| plan := plan s; currentQuestionIdx := currentQuestionIdx s;
     showQuestionText := showQuestionText s; isTTSLoading := isTTSLoading s;
     autoplayBlocked := autoplayBlocked s; sessionData := sessionData s;
     phase := phase s; report := report s; isFinishing := isFinishing s;
     confirmExit := confirmExit s; tomBox := tomBox s;
     bellaBox := bellaBox s; autoplayTimer := v;
     confirmTimers := confirmTimers s; awaitedTts := awaitedTts s;
     awaitedEvaluation := awaitedEvaluation s; effects := effects s |}.

Definition set_confirmTimers (v : nat) (s : Session) : Session :=
  {| plan := plan s; currentQuestionIdx := currentQuestionIdx s;
     showQuestionText := showQuestionText s; isTTSLoading := isTTSLoading s;
     autoplayBlocked := autoplayBlocked s; sessionData := sessionData s;
     phase := phase s; report := report s; isFinishing := isFinishing s;
     confirmExit := confirmExit s; tomBox := tomBox s;
     bellaBox := bellaBox s; autoplayTimer := autoplayTimer s;
     confirmTimers := v; awaitedTts := awaitedTts s;
     awaitedEvaluation := awaitedEvaluation s; effects := effects s |}.

Definition set_awaitedTts (v : list TtsCaller) (s : Session) : Session :=
  {| plan := plan s; currentQuestionIdx := currentQuestionIdx s;
     showQuestionText := showQuestionText s; isTTSLoading := isTTSLoading s;
     autoplayBlocked := autoplayBlocked s; sessionData := sessionData s;
     phase := phase s; report := report s; isFinishing := isFinishing s;
     confirmExit := confirmExit s; tomBox := tomBox s;
     bellaBox := bellaBox s; autoplayTimer := autoplayTimer s;
     confirmTimers := confirmTimers s; awaitedTts := v;
     awaitedEvaluation := awaitedEvaluation s; effects := effects s |}.

Definition set_awaitedEvaluation (v : option EvalProgress) (s : Session)
  : Session :=
  {| plan := plan s; currentQuestionIdx := currentQuestionIdx s;
     showQuestionText := showQuestionText s; isTTSLoading := isTTSLoading s;
     autoplayBlocked := autoplayBlocked s; sessionData := sessionData s;
     phase := phase s; report := report s; isFinishing := isFinishing s;
     confirmExit := confirmExit s; tomBox := tomBox s;
     bellaBox := bellaBox s; autoplayTimer := autoplayTimer s;
     confirmTimers := confirmTimers s; awaitedTts := awaitedTts s;
     awaitedEvaluation := v; effects := effects s |}.

Definition emit (e : Effect) (s : Session) : Session :=
  {| plan := plan s; currentQuestionIdx := currentQuestionIdx s;
     showQuestionText := showQuestionText s; isTTSLoading := isTTSLoading s;
     autoplayBlocked := autoplayBlocked s; sessionData := sessionData s;
     phase := phase s; report := report s; isFinishing := isFinishing s;
     confirmExit := confirmExit s; tomBox := tomBox s;
     bellaBox := bellaBox s; autoplayTimer := autoplayTimer s;
     confirmTimers := confirmTimers s; awaitedTts := awaitedTts s;
     awaitedEvaluation := awaitedEvaluation s;
     effects := effects s ++ [e] |}.

Definition currentQuestion (s : Session) : option Question :=
  questions (plan s) !! currentQuestionIdx s.

Definition answersOf (who : Student) (d : SessionData)
  : gmap (list N) (list N) :=
  match who with
  | StudentA => answers (studentA d)
  | StudentB => answers (studentB d)
  end.

Definition turnOf (who : Student) : Phase :=
  match who with
  | StudentA => student_a_turn
  | StudentB => student_b_turn
  end.

Definition boxOf (who : Student) (s : Session) : Box :=
  match who with
  | StudentA => tomBox s
  | StudentB => bellaBox s
  end.

Definition set_boxOf (who : Student) (b : Box) (s : Session) : Session :=
  match who with
  | StudentA => set_boxes b (bellaBox s) s
  | StudentB => set_boxes (tomBox s) b s
  end.

(** The names of the properties of [Object.prototype].  The answers are
    plain objects: read under such a name, an object without an own
    property of that name yields the inherited value, which is truthy. *)
Definition inheritedKey (k : list N) : bool :=
  bool_decide
    (k ∈ [lit "constructor"; lit "__defineGetter__";
          lit "__defineSetter__"; lit "hasOwnProperty";
          lit "__lookupGetter__"; lit "__lookupSetter__";
          lit "isPrototypeOf"; lit "propertyIsEnumerable"; lit "toString";
          lit "valueOf"; lit "__proto__"; lit "toLocaleString"]).

(** [sessionData.studentX.answers[currentQuestion.id]], where it is an own
    property: the text recorded under that id. *)
Definition savedAnswer (who : Student) (s : Session) : option (list N) :=
  q ← currentQuestion s; answersOf who (sessionData s) !! id q.

(** The props of a student's box: [hasAnswered] is [!!savedAnswer], which
    is true as well where nothing is recorded under an id that names an
    inherited property. *)
Definition propsOf (who : Student) (s : Session) : Props :=
  {| hasAnswered :=
       match savedAnswer who s with
       | Some t => truthy t
       | None =>
           match currentQuestion s with
           | Some q => inheritedKey (id q)
           | None => false
           end
       end;
     isActive := bool_decide (phase s = turnOf who);
     disabled := negb (bool_decide (phase s = turnOf who)) |}.

(** The truthiness of the [report] state variable, which starts as
    [null]. *)
Definition truthyReport (r : option ReportValue) : bool :=
  match r with
  | Some (ReportObject _) => true
  | Some (OtherReport v) => v
  | None => false
  end.

(** Whether the session screen (header, examiner area, the two boxes) is
    what the component renders, rather than the report card ([phase ===
    'results' && report]) or the spinner.  The report card is rendered with
    whatever truthy value [report] holds; what the card does with a value
    that is not a report is not part of this model. *)
Definition sessionScreen (s : Session) : bool :=
  match phase s with
  | evaluating => false
  | results => negb (truthyReport (report s))
  | _ => true
  end.

(** The first return of the render: the report card, with the value it
    is given. *)
Definition reportCard (s : Session) : option ReportValue :=
  match phase s with
  | results => if truthyReport (report s) then report s else None
  | _ => None
  end.

Definition fallbackResult : EvaluationResult :=
  {| score := 0;
     feedback := lit "Incomplete data or connection error.";
     goodPoints := [];
     badPoints := [];
     suggestions := [lit "Check internet connection."] |}.

(** Fallback report so the user is not stuck. *)
Definition fallbackReport : FullReport :=
  {| resultA := fallbackResult;
     resultB := fallbackResult;
     generalFeedback :=
       lit "Session ended. We could not generate a full AI report, possibly due to network issues or no audio data recorded." |}.

(** [finishSession] up to its [await].  [rendered] is the [sessionData]
    of the render whose handlers are running: the closure reads it, not
    the updates queued by the same handler. *)
Definition finishSession (rendered : SessionData) (s : Session) : Session :=
  (* Force stop everything *)
  let s := emit StopAllAudio s in
  let s := set_isFinishing true (set_phase evaluating s) in
  let p := evaluateSession (plan s) rendered in
  let s := match p with
           | EvalAwait r => emit (EvaluateRemote r) s
           | EvalReturned _ => s
           end in
  set_awaitedEvaluation (Some p) s.

(** [goToNextQuestion]; the truncated subtraction agrees with
    [length - 1] in the comparison. *)
Definition goToNextQuestion (rendered : Session) (s : Session) : Session :=
  if (currentQuestionIdx rendered <? length (questions (plan s)) - 1)%nat
  then
    set_phase examiner_speaking
      (set_showQuestionText false
         (set_currentQuestionIdx (S (currentQuestionIdx s)) s))
  else finishSession (sessionData rendered) s.

Definition handleExaminerDone (s : Session) : Session :=
  (* ALWAYS start with Tom (Student A) *)
  set_phase student_a_turn (emit StopAllAudio s).

Definition handleStudentAComplete (q : Question) (text : list N)
           (s : Session) : Session :=
  let prev := sessionData s in
  let s :=
    set_sessionData
      {| studentA :=
           {| answers := <[id q := text]> (answers (studentA prev)) |};
         studentB := studentB prev |} s in
  (* ALWAYS move to Bella (Student B) next *)
  set_phase student_b_turn s.

Definition handleStudentBComplete (q : Question) (text : list N)
           (s : Session) : Session :=
  let prev := sessionData s in
  let s' :=
    set_sessionData
      {| studentA := studentA prev;
         studentB :=
           {| answers := <[id q := text]> (answers (studentB prev)) |} |}
      s in
  (* After Bella, go to next question *)
  goToNextQuestion s s'.

(** The [onAnswerComplete] prop of a student's box. *)
Definition onAnswerComplete (who : Student) (text : list N) (s : Session)
  : Session :=
  match currentQuestion s with
  | Some q =>
      match who with
      | StudentA => handleStudentAComplete q text s
      | StudentB => handleStudentBComplete q text s
      end
  | None => s
  end.

Definition handleEarlyFinish (s : Session) : Session :=
  if isFinishing s then s
  else if negb (confirmExit s) then
    (* Reset confirm state after 3 seconds *)
    set_confirmTimers (S (confirmTimers s)) (set_confirmExit true s)
  else finishSession (sessionData s) s.

(** A call of [playTextToSpeech(currentQuestion.text)] whose promise
    [who] awaits. *)
Definition callTts (who : TtsCaller) (s : Session) : Session :=
  match currentQuestion s with
  | Some q =>
      set_awaitedTts (awaitedTts s ++ [who])
        (emit (PlayTextToSpeech (text q)) s)
  | None => s
  end.

Definition handleManualPlay (s : Session) : Session :=
  callTts ManualPlay (set_isTTSLoading true (set_autoplayBlocked false s)).

Inductive Event :=
| BoxEv (who : Student) (e : BoxEvent)
| ExaminerDoneClick
| ManualPlayClick
| ReplayClick
| ShowTextClick
| StopAudioClick
| EarlyFinishClick (f : RecFaults)
| AutoplayTimerFired
| ConfirmTimerFired
| TtsSettled (i : nat) (r : result bool)
| EvaluationSettled (o : Settled).

Definition noRecFaults : RecFaults :=
  {| constructRaises := false; startRaises := false;
     stopRaises := false; abortRaises := false |}.

(** The recognition faults in force while an event is handled. *)
Definition faultsOf (e : Event) : RecFaults :=
  match e with
  | BoxEv _ (MicClick f) | BoxEv _ (SubmitClick f) | EarlyFinishClick f => f
  | _ => noRecFaults
  end.

Section Machine.

Variable platform : Platform.
Variable parseReport : list N → option ReportValue.

(** The handler of one event; an event whose control is not on screen
    or is disabled does nothing. *)
Definition handle (s : Session) (e : Event) : Session :=
  match e with
  | BoxEv who e =>
      if sessionScreen s then
        let '(b, stopped, answer) :=
          boxStep platform (propsOf who s) (boxOf who s) e in
        let s' := set_boxOf who b s in
        let s' := if stopped then emit StopAllAudio s' else s' in
        match answer with
        | Some t => onAnswerComplete who t s'
        | None => s'
        end
      else s
  | ExaminerDoneClick =>
      if sessionScreen s && bool_decide (phase s = examiner_speaking)
         && negb (isTTSLoading s) && negb (autoplayBlocked s)
      then handleExaminerDone s else s
  | ManualPlayClick =>
      if sessionScreen s && negb (isTTSLoading s) && autoplayBlocked s
      then handleManualPlay s else s
  | ReplayClick =>
      if sessionScreen s && negb (isTTSLoading s)
         && negb (autoplayBlocked s)
      then callTts Replay (set_isTTSLoading true s) else s
  | ShowTextClick =>
      if sessionScreen s && negb (isTTSLoading s)
         && negb (autoplayBlocked s)
      then set_showQuestionText (negb (showQuestionText s)) s else s
  | StopAudioClick =>
      if sessionScreen s then emit StopAllAudio s else s
  | EarlyFinishClick _ =>
      if sessionScreen s && negb (isFinishing s)
      then handleEarlyFinish s else s
  | AutoplayTimerFired =>
      if autoplayTimer s
      then callTts Autoplay
             (set_isTTSLoading true (set_autoplayTimer false s))
      else s
  | ConfirmTimerFired =>
      match confirmTimers s with
      | S n => set_confirmExit false (set_confirmTimers n s)
      | O => s
      end
  | TtsSettled i r =>
      match awaitedTts s !! i with
      | Some who =>
          let s := set_awaitedTts (delete i (awaitedTts s)) s in
          let s :=
            match who, r with
            | Autoplay, Ok true => s
            | Autoplay, _ => set_autoplayBlocked true s
            | _, _ => s
            end in
          set_isTTSLoading false s
      | None => s
      end
  | EvaluationSettled o =>
      match awaitedEvaluation s with
      | Some p =>
          let s := set_awaitedEvaluation None s in
          let s :=
            match evaluateSession_settle parseReport p o with
            | Ok result => set_phase results (set_report (Some result) s)
            | Raise =>
                set_phase results
                  (set_report (Some (ReportObject fallbackReport)) s)
            end in
          set_isFinishing false s
      | None => s
      end
  end.

(** What React does after the handler: the autoplay effect (dependencies
    [currentQuestion] and [phase]) and the mounting of the boxes, which
    are keyed by the question id. *)
Definition afterRender (f : RecFaults) (old new : Session) : Session :=
  let s :=
    if bool_decide (currentQuestionIdx old = currentQuestionIdx new)
       && bool_decide (phase old = phase new)
    then new
    else
      let s := set_autoplayTimer false new in
      match phase s, currentQuestion s with
      | examiner_speaking, Some _ =>
          set_autoplayTimer true (set_autoplayBlocked false s)
      | _, _ => s
      end in
  if sessionScreen s then
    if sessionScreen old
       && bool_decide (id <$> currentQuestion old = id <$> currentQuestion s)
    then s
    else set_boxes (mountBox platform) (mountBox platform) s
  else if sessionScreen old then
    set_boxes (unmountBox platform f (tomBox s))
      (unmountBox platform f (bellaBox s)) s
  else s.

Definition step (s : Session) (e : Event) : Session :=
  afterRender (faultsOf e) s (handle s e).

Definition run (s : Session) (es : list Event) : Session :=
  foldl step s es.

(** The component as mounted for a plan.  With no question the first
    render reads [currentQuestion.id] of [undefined] and throws: there is
    no session ([None]). *)
Definition mountSession (p : DailyPlan) : option Session :=
  match questions p with
  | [] => None
  | _ :: _ =>
      Some {| plan := p; currentQuestionIdx := 0;
              showQuestionText := false; isTTSLoading := false;
              autoplayBlocked := false;
              sessionData := {| studentA := {| answers := ∅ |};
                                studentB := {| answers := ∅ |} |};
              phase := examiner_speaking; report := None;
              isFinishing := false; confirmExit := false;
              tomBox := mountBox platform; bellaBox := mountBox platform;
              autoplayTimer := true; confirmTimers := 0;
              awaitedTts := []; awaitedEvaluation := None;
              effects := [] |}
  end.

(** The states a session of plan [p] can be in. *)
Definition reachable (p : DailyPlan) (s : Session) : Prop :=
  ∃ s0 es, mountSession p = Some s0 ∧ run s0 es = s.

End Machine.

(** *** Example platforms, plans and sessions *)

(** A browser without speech recognition (desktop Firefox). *)
Definition noRecognition : Platform :=
  {| uaRaises := false; uaIOS := false; uaSafari := false;
     uaOtherBrowser := false; speechRecognition := false |}.

Definition twoQuestions : DailyPlan :=
  {| day := 1; topic := lit "Hobbies";
     questions :=
       [ {| id := lit "q1"; text := lit "What do you like doing?";
            part := Part1; target := Tom |};
         {| id := lit "q2"; text := lit "Do you like football?";
            part := Part1; target := Bella |} ] |}.

(** A browser with speech recognition. *)
Definition chrome : Platform :=
  {| uaRaises := false; uaIOS := false; uaSafari := true;
     uaOtherBrowser := false; speechRecognition := true |}.

(** A browser on iOS other than Safari (Chrome for iOS), with a
    recognition constructor. *)
Definition chromeIOS : Platform :=
  {| uaRaises := false; uaIOS := true; uaSafari := true;
     uaOtherBrowser := true; speechRecognition := true |}.

(** [JSON.parse] on the text [null]; every other text stands for one that
    is not JSON. *)
Definition parseNull (text : list N) : option ReportValue :=
  if bool_decide (text = lit "null") then Some (OtherReport false) else None.

Definition oneQuestion : DailyPlan :=
  {| day := 1; topic := lit "Sport";
     questions :=
       [ {| id := lit "q1"; text := lit "Do you like sport?";
            part := Part1; target := Both |} ] |}.

(** Tom records and submits "I like football"; Bella records and submits
    "Me too". *)
Definition bothAnswer : list Event :=
  [ AutoplayTimerFired; TtsSettled 0 (Ok true); ExaminerDoneClick;
    BoxEv StudentA (MicClick noRecFaults); BoxEv StudentA RecStart;
    BoxEv StudentA (RecResult [final "I like football"]);
    BoxEv StudentA RecEnd; BoxEv StudentA (SubmitClick noRecFaults);
    BoxEv StudentB (MicClick noRecFaults); BoxEv StudentB RecStart;
    BoxEv StudentB (RecResult [final "Me too"]);
    BoxEv StudentB (SubmitClick noRecFaults) ].

(** *** Vocabulary of the properties *)

#[global] Instance Student_eq_dec : EqDecision Student.
Proof. solve_decision. Defined.

(** The session data with one more answer. *)
Definition recordAnswer (who : Student) (q : list N) (t : list N)
           (d : SessionData) : SessionData :=
  match who with
  | StudentA =>
      {| studentA := {| answers := <[q := t]> (answers (studentA d)) |};
         studentB := studentB d |}
  | StudentB =>
      {| studentA := studentA d;
         studentB := {| answers := <[q := t]> (answers (studentB d)) |} |}
  end.

(** The edges of the machine, on the variables that carry the protocol:
    question index, phase, session data, report, awaited evaluation. *)
Inductive Edge (s : Session) (e : Event) (s' : Session) : Prop :=
| EdgeStay :
    currentQuestionIdx s' = currentQuestionIdx s →
    phase s' = phase s →
    sessionData s' = sessionData s →
    report s' = report s →
    awaitedEvaluation s' = awaitedEvaluation s →
    Edge s e s'
| EdgeExaminerDone :
    e = ExaminerDoneClick →
    phase s = examiner_speaking → phase s' = student_a_turn →
    currentQuestionIdx s' = currentQuestionIdx s →
    sessionData s' = sessionData s →
    report s' = report s →
    awaitedEvaluation s' = awaitedEvaluation s →
    Edge s e s'
| EdgeAnswer who f q :
    e = BoxEv who (SubmitClick f) →
    sessionScreen s = true →
    currentQuestion s = Some q →
    hasAnswered (propsOf who s) = false →
    isManualMode (boxOf who s) = true ∨ phase s = turnOf who →
    submitText (boxOf who s) ≠ [] →
    sessionData s'
      = recordAnswer who (id q) (submitText (boxOf who s)) (sessionData s) →
    report s' = report s →
    match who with
    | StudentA =>
        phase s' = student_b_turn
        ∧ currentQuestionIdx s' = currentQuestionIdx s
        ∧ awaitedEvaluation s' = awaitedEvaluation s
    | StudentB =>
        (S (currentQuestionIdx s) < length (questions (plan s))
         ∧ phase s' = examiner_speaking
         ∧ currentQuestionIdx s' = S (currentQuestionIdx s)
         ∧ awaitedEvaluation s' = awaitedEvaluation s)%nat
        ∨ (length (questions (plan s)) ≤ S (currentQuestionIdx s)
           ∧ phase s' = evaluating
           ∧ currentQuestionIdx s' = currentQuestionIdx s
           ∧ awaitedEvaluation s'
             = Some (evaluateSession (plan s) (sessionData s)))%nat
    end →
    Edge s e s'
| EdgeEarlyFinish f :
    e = EarlyFinishClick f →
    sessionScreen s = true → confirmExit s = true →
    phase s' = evaluating →
    currentQuestionIdx s' = currentQuestionIdx s →
    sessionData s' = sessionData s →
    report s' = report s →
    awaitedEvaluation s' = Some (evaluateSession (plan s) (sessionData s)) →
    Edge s e s'
| EdgeSettled o pending :
    e = EvaluationSettled o →
    awaitedEvaluation s = Some pending →
    phase s' = results →
    currentQuestionIdx s' = currentQuestionIdx s →
    sessionData s' = sessionData s →
    is_Some (report s') →
    awaitedEvaluation s' = None →
    Edge s e s'.

(** What holds of every state of a session. *)
Definition wellFormed (s : Session) : Prop :=
  (currentQuestionIdx s < length (questions (plan s)))%nat
  ∧ (phase s = evaluating ↔ is_Some (awaitedEvaluation s))
  ∧ (phase s = results → is_Some (report s))
  ∧ (∀ who q t, answersOf who (sessionData s) !! q = Some t → t ≠ []).

(** What the turn order rests on, where the boxes mount in voice mode. *)
Definition ordered (s : Session) : Prop :=
  (∀ q, is_Some (answersOf StudentB (sessionData s) !! q) →
        is_Some (answersOf StudentA (sessionData s) !! q))
  ∧ (phase s = student_b_turn →
     ∃ cur, currentQuestion s = Some cur
            ∧ is_Some (answersOf StudentA (sessionData s) !! id cur))
  ∧ (sessionScreen s = true → isManualMode (bellaBox s) = true →
     phase s = student_b_turn
     ∨ ∃ cur, currentQuestion s = Some cur
              ∧ is_Some (answersOf StudentB (sessionData s) !! id cur)).
(** The requests made to the remote evaluator, oldest first. *)
Definition evaluationRequests (s : Session) : list EvaluationRequest :=
  omap (λ e, match e with EvaluateRemote r => Some r | _ => None end)
       (effects s).

(** The texts handed to [playTextToSpeech], oldest first. *)
Definition spokenTexts (s : Session) : list (list N) :=
  omap (λ e, match e with PlayTextToSpeech t => Some t | _ => None end)
       (effects s).

(** The calls a handler may add to [effects], from state [s] to [s']. *)
Definition callsOf (s s' : Session) (l : list Effect) : Prop :=
  l = [] ∨ l = [StopAllAudio]
  ∨ (∃ q, currentQuestion s = Some q ∧ l = [PlayTextToSpeech (text q)])
  ∨ (sessionScreen s = true ∧ phase s' = evaluating
     ∧ l = StopAllAudio
             :: match evaluateSession (plan s) (sessionData s) with
                | EvalAwait r => [EvaluateRemote r]
                | EvalReturned _ => []
                end).

(** Whether an event is the settling of an evaluation call whose response
    text parses to a falsy value, and the number of such events. *)
Definition settlesFalsy (parseReport : list N → option ReportValue)
           (e : Event) : bool :=
  match e with
  | EvaluationSettled o =>
      match evaluateSession_resume parseReport o with
      | Ok (OtherReport false) => true
      | _ => false
      end
  | _ => false
  end.

Fixpoint falsySettles (parseReport : list N → option ReportValue)
         (es : list Event) : nat :=
  match es with
  | [] => 0
  | e :: es =>
      (if settlesFalsy parseReport e then 1 else 0)
      + falsySettles parseReport es
  end.

(** A plan whose two questions carry the same id. *)
Definition sameIds : DailyPlan :=
  {| day := 2; topic := lit "Food";
     questions :=
       [ {| id := lit "q1"; text := lit "What do you eat for breakfast?";
            part := Part1; target := Tom |};
         {| id := lit "q1"; text := lit "Do you like cooking?";
            part := Part1; target := Bella |} ] |}.

(** Tom has answered the only question and Bella has dictated her answer:
    [bothAnswer] without its last click. *)
Definition bellaReady : list Event := take 11 bothAnswer.


End TestSession.


(* ===================================================================== *)
(** ** The day selector ([App.tsx]) and [generateDayPlan] *)

Module App.
Import JsString Evaluation.

(** What [JSON.parse(text) as DailyPlan] evaluates to: the cast checks
    nothing, so the value is a plan, or some other JSON value, of which
    the code only tests the truthiness. *)
Inductive PlanValue :=
| PlanObject (p : DailyPlan)
| OtherValue (truthyValue : bool).

(** The state variables of the component; [pending] holds the days of the
    calls of [generateDayPlan] that are awaited and [alerts] counts the
    calls of [alert]. *)
Record State := {
  selectedDay : option Z;
  plan : option PlanValue;
  loading : bool;
  pending : list Z;
  alerts : nat
}.

Inductive Screen :=
| Spinner
| SessionFor (v : PlanValue)
| DayGrid.

(** The three returns of the render. *)
Definition screen (s : State) : Screen :=
  if loading s then Spinner
  else
    match plan s with
    | Some (PlanObject p) => SessionFor (PlanObject p)
    | Some (OtherValue true) => SessionFor (OtherValue true)
    | Some (OtherValue false) | None => DayGrid
    end.

(** [Array.from({ length: 30 }, (_, i) => i + 1)] *)
Definition days : list Z := (λ i, Z.of_nat i + 1) <$> seq 0 30.

Section Parse.

(** [JSON.parse]: a [SyntaxError] ([None]) on text that is not JSON. *)
Variable parsePlan : list N → option PlanValue.

(** [generateDayPlan] from the settling of the remote call. *)
Definition generateDayPlan_resume (o : Settled) : result PlanValue :=
  match o with
  | Rejected => Raise
  | Fulfilled None | Fulfilled (Some []) => Raise (* No plan generated *)
  | Fulfilled (Some text) =>
      match parsePlan text with
      | Some v => Ok v
      | None => Raise
      end
  end.

(** [handleDaySelect] up to its [await]. *)
Definition handleDaySelect (day : Z) (s : State) : State :=
  {| selectedDay := Some day; plan := plan s; loading := true;
     pending := pending s ++ [day]; alerts := alerts s |}.

(** [handleDaySelect] from the settling of [generateDayPlan]. *)
Definition handleDaySelect_resume (r : result PlanValue) (s : State)
  : State :=
  match r with
  | Ok generatedPlan =>
      {| selectedDay := selectedDay s; plan := Some generatedPlan;
         loading := false; pending := pending s; alerts := alerts s |}
  | Raise =>
      (* console.error, alert *)
      {| selectedDay := None; plan := plan s; loading := false;
         pending := pending s; alerts := S (alerts s) |}
  end.

Definition reset (s : State) : State :=
  {| selectedDay := None; plan := None; loading := loading s;
     pending := pending s; alerts := alerts s |}.

(** A click on a day of the grid, the settling of the [i]-th awaited call,
    and the call of [onBack] ([reset]) that the session makes from its
    report card. *)
Inductive Event :=
| DayClick (day : Z)
| PlanSettled (i : nat) (o : Settled)
| BackClick.

(** One handler; a click on a control that is not on screen does
    nothing. *)
Definition step (s : State) (e : Event) : State :=
  match e with
  | DayClick day =>
      match screen s with
      | DayGrid => if bool_decide (day ∈ days) then handleDaySelect day s
                   else s
      | _ => s
      end
  | PlanSettled i o =>
      match pending s !! i with
      | Some _ =>
          handleDaySelect_resume (generateDayPlan_resume o)
            {| selectedDay := selectedDay s; plan := plan s;
               loading := loading s; pending := delete i (pending s);
               alerts := alerts s |}
      | None => s
      end
  | BackClick =>
      match screen s with
      | SessionFor _ => reset s
      | _ => s
      end
  end.

Definition run (s : State) (es : list Event) : State := foldl step s es.

End Parse.

Definition initial : State :=
  {| selectedDay := None; plan := None; loading := false;
     pending := []; alerts := 0 |}.

End App.

(* ===================================================================== *)
(** * Properties *)
(* ===================================================================== *)

(** ** The WAV container *)

Section WavFacts.
Import Wav JsString.

Lemma u8_value v : Z.of_N (Byte.to_N (u8 v)) = v mod 256.
Proof.
  unfold u8.
  assert (Hland : Z.land v 255 = v mod 256).
  { change 255 with (Z.ones 8). now rewrite Z.land_ones by lia. }
  assert (Hb : 0 <= v mod 256 < 256) by (apply Z.mod_pos_bound; lia).
  rewrite Hland.
  destruct (Byte.of_N (Z.to_N (v mod 256))) as [b|] eqn:E.
  - apply Byte.to_of_N in E. rewrite E. apply Z2N.id. lia.
  - apply Byte.of_N_None_iff in E. lia.
Qed.

(** Reading back the four bytes of [setUint32] gives the value modulo
    [2^32]. *)
Lemma leValue_le32 v : leValue (le32 v) = v mod 2 ^ 32.
Proof.
  unfold le32, leValue. rewrite !u8_value, !Z.shiftr_div_pow2 by lia.
  change (2 ^ 32) with (256 * (256 * (256 * 256))).
  rewrite (Z.rem_mul_r v 256 (256 * (256 * 256))) by lia.
  rewrite (Z.rem_mul_r (v / 256) 256 (256 * 256)) by lia.
  rewrite (Z.rem_mul_r (v / 256 / 256) 256 256) by lia.
  rewrite !Z.div_div by lia.
  change (2 ^ 8) with 256. change (2 ^ 16) with (256 * 256).
  change (2 ^ 24) with (256 * 256 * 256). lia.
Qed.

(** The thirteen header writes, on a buffer whose first 44 bytes are
    zero, whatever follows them and whatever is done next. *)
Lemma header_writes {B} (a d : Z) (tl : list byte)
      (k : list byte → option B) :
  (buffer ← writeString (replicate 44 x00 ++ tl) 0 (lit "RIFF");
   buffer ← setUint32 buffer 4 a true;
   buffer ← writeString buffer 8 (lit "WAVE");
   buffer ← writeString buffer 12 (lit "fmt ");
   buffer ← setUint32 buffer 16 16 true;
   buffer ← setUint16 buffer 20 1 true;
   buffer ← setUint16 buffer 22 1 true;
   buffer ← setUint32 buffer 24 SAMPLE_RATE true;
   buffer ← setUint32 buffer 28 ((SAMPLE_RATE * 1 * 16) / 8) true;
   buffer ← setUint16 buffer 32 ((1 * 16) / 8) true;
   buffer ← setUint16 buffer 34 16 true;
   buffer ← writeString buffer 36 (lit "data");
   buffer ← setUint32 buffer 40 d true;
   k buffer) = k (header a d ++ tl).
Proof. reflexivity. Qed.

(** [createWavBlob] never raises, and what it builds. *)
Lemma createWavBlob_eq pcmData :
  createWavBlob pcmData =
  Some {| blobBytes :=
            header (36 + Z.of_nat (length pcmData))
                   (Z.of_nat (length pcmData)) ++ pcmData;
          blobType := lit "audio/wav" |}.
Proof.
  unfold createWavBlob. cbv zeta.
  change (replicate (44 + length pcmData) x00) with
    (replicate 44 x00 ++ replicate (length pcmData) x00).
  etrans;
    [ apply (header_writes _ _ _
               (λ buffer, buffer0 ← viewSet buffer 44 pcmData;
                          Some {| blobBytes := buffer0;
                                  blobType := lit "audio/wav" |})) |].
  unfold viewSet.
  assert (L : length (header (36 + Z.of_nat (length pcmData))
                             (Z.of_nat (length pcmData))) = 44%nat)
    by reflexivity.
  rewrite length_app, L, length_replicate.
  replace (44 <=? 44 + length pcmData)%nat with true
    by (symmetry; apply Nat.leb_le; lia).
  replace (length pcmData <=? 44 + length pcmData - 44)%nat with true
    by (symmetry; apply Nat.leb_le; lia).
  cbn [mbind option_bind].
  rewrite take_app_length' by exact L.
  rewrite drop_app_ge by lia.
  rewrite drop_ge by (rewrite length_replicate; lia).
  now rewrite app_nil_r.
Qed.

(** The two size fields as written, for an input of any length: the
    32-bit fields hold the sizes modulo [2^32]. *)
Lemma createWavBlob_size_fields pcmData wav :
  createWavBlob pcmData = Some wav →
  leValue (slice 4 8 (blobBytes wav))
    = (36 + Z.of_nat (length pcmData)) mod 2 ^ 32
  ∧ leValue (slice 40 44 (blobBytes wav))
    = Z.of_nat (length pcmData) mod 2 ^ 32.
Proof.
  rewrite createWavBlob_eq. intros [= <-]. cbn [blobBytes].
  split.
  - change (slice 4 8 _) with (le32 (36 + Z.of_nat (length pcmData))).
    apply leValue_le32.
  - change (slice 40 44 _) with (le32 (Z.of_nat (length pcmData))).
    apply leValue_le32.
Qed.

(** C3.  For a PCM input of [N] bytes whose chunk size [36 + N] fits the
    32-bit field, [createWavBlob] returns a container of [44 + N] bytes:
    bytes 0-3 are "RIFF", bytes 4-7 hold [36 + N] little-endian, bytes
    8-11 are "WAVE", bytes 12-15 are "fmt ", bytes 22-23 hold the channel
    count 1, bytes 24-27 the sample rate 24000, bytes 36-39 are "data",
    bytes 40-43 hold [N], and the input follows from byte 44 on,
    unmodified. *)
Theorem createWavBlob_layout (pcmData : list byte) :
  36 + Z.of_nat (length pcmData) < 2 ^ 32 →
  ∃ bytes,
    createWavBlob pcmData
      = Some {| blobBytes := bytes; blobType := lit "audio/wav" |}
    ∧ length bytes = (44 + length pcmData)%nat
    ∧ slice 0 4 bytes = tag "RIFF"
    ∧ leValue (slice 4 8 bytes) = 36 + Z.of_nat (length pcmData)
    ∧ slice 8 12 bytes = tag "WAVE"
    ∧ slice 12 16 bytes = tag "fmt "
    ∧ leValue (slice 22 24 bytes) = 1
    ∧ leValue (slice 24 28 bytes) = 24000
    ∧ slice 36 40 bytes = tag "data"
    ∧ leValue (slice 40 44 bytes) = Z.of_nat (length pcmData)
    ∧ drop 44 bytes = pcmData.
Proof.
  intros Hfit.
  eexists. split; [apply createWavBlob_eq|].
  destruct (createWavBlob_size_fields pcmData _ (createWavBlob_eq pcmData))
    as [H4 H40].
  cbn [blobBytes] in H4, H40.
  repeat split; try reflexivity.
  - rewrite H4. apply Z.mod_small. lia.
  - rewrite H40. apply Z.mod_small. lia.
Qed.

Lemma createWavBlob_layout_witness :
  ∃ bytes,
    createWavBlob [x01; x02; x03]
      = Some {| blobBytes := bytes; blobType := lit "audio/wav" |}
    ∧ length bytes = 47%nat
    ∧ leValue (slice 4 8 bytes) = 39
    ∧ leValue (slice 40 44 bytes) = 3
    ∧ drop 44 bytes = [x01; x02; x03].
Proof.
  destruct (createWavBlob_layout [x01; x02; x03]) as (bytes & H); [simpl; lia|].
  exists bytes. intuition.
Defined.

End WavFacts.

(** ** The player: [stopAllAudio] *)

Section PlayerFacts.
Import Player JsString.

Ltac run_M :=
  repeat (cbn [mbind mret M_bind M_ret fst snd] in *;
          unfold stopAllAudio, pause, clearSrc, removeSrc, cancel, speak,
            play, failIf, updAudio, tryCatch, raise, gets, modify, newAudio,
            createObjectURL in *).

Lemma stopAllAudio_cases f w :
  ∃ w', stopAllAudio f w = (Ok tt, w')
    ∧ latestTtsRequestId w' = latestTtsRequestId w
    ∧ audioCache w' = audioCache w
    ∧ objectUrls w' = objectUrls w
    ∧ synthesisRequests w' = synthesisRequests w
    ∧ length (audios w') = length (audios w)
    ∧ (currentAudio w' = None ∨ currentAudio w' = currentAudio w)
    ∧ speechSynthesis w'
        = (if cancelRaises f then speechSynthesis w
           else const [] <$> speechSynthesis w)
    ∧ (pauseRaises f = false →
         ∀ a, currentAudio w = Some a → silent a w')
    ∧ (pauseRaises f = false → srcRaises f = false →
       removeAttributeRaises f = false → currentAudio w' = None)
    ∧ (pauseRaises f = true →
         currentAudio w' = currentAudio w ∧ audios w' = audios w)
    ∧ (currentAudio w = None → audios w' = audios w).
Proof.
  destruct w as [cur latest cache els urls sp reqs].
  destruct f as [pr sr rr cr kr pb].
  destruct cur as [a|], sp as [q|], pr, sr, rr, cr; run_M;
    (eexists; split; [reflexivity|]); cbn;
    repeat split; auto; try discriminate;
    rewrite ?length_alter; auto;
    try (intros _ a' [= <-] e He; cbn in He;
         rewrite !list_lookup_alter_eq in He;
         destruct (els !! a); cbn in He; [|discriminate];
         injection He as <-; reflexivity).
Qed.

(** [stopAllAudio] on the elements: their number stays, none starts
    playing, and the current one is paused unless [pause()] raises. *)
Lemma stopAllAudio_elements f w :
  ∃ w', stopAllAudio f w = (Ok tt, w')
    ∧ length (audios w') = length (audios w)
    ∧ (currentAudio w' = None ∨ currentAudio w' = currentAudio w)
    ∧ (∀ i e', audios w' !! i = Some e' →
               ∃ e, audios w !! i = Some e
                    ∧ (paused e = true → paused e' = true)
                    ∧ (paused e' = false → currentAudio w = Some i →
                       pauseRaises f = true)).
Proof.
  destruct w as [cur latest cache els urls sp reqs].
  destruct f as [pr sr rr cr kr pb].
  destruct cur as [a|], sp as [q|], pr, sr, rr, cr;
    run_M; cbn; (eexists; split; [reflexivity|]); cbn;
    rewrite ?length_alter; (split; [reflexivity|]); (split; [auto|]);
    intros i e' He';
    try (exists e'; split; [exact He'|]; split; [auto|]; intros; congruence);
    try (exists e'; split; [exact He'|]; split; [auto|]; intros; reflexivity).
  all: destruct (decide (i = a)) as [->|Hne];
    [ rewrite ?list_lookup_alter_eq in He';
      destruct (els !! a) as [e|] eqn:Ee; cbn in He'; [|discriminate];
      injection He' as <-; exists e; cbn; repeat split; auto; discriminate
    | rewrite ?list_lookup_alter_ne in He' by congruence;
      exists e'; repeat split; auto; intros; congruence ].
Qed.



End PlayerFacts.

(** ** The player: [playTextToSpeech], staleness and the cache *)

Section SynthesisFacts.
Import Player JsString.
Variable atob : list N → option (list N).

Ltac msimpl :=
  unfold mbind, M_bind, mret, M_ret, gets, modify, tryCatch, raise, failIf;
  cbn beta iota zeta.

Lemma stopAllAudio_frame f w :
  ∃ w', stopAllAudio f w = (Ok tt, w') ∧ frame w w'.
Proof.
  destruct (stopAllAudio_cases f w) as (w' & E & H1 & H2 & H3 & H4 & _).
  exists w'. unfold frame. auto.
Qed.

Lemma fallback_frame f r t w :
  ∃ b w', fallback f r t w = (Ok (Returned b), w') ∧ frame w w'
          ∧ (r ≠ latestTtsRequestId w → b = false ∧ w' = w).
Proof.
  unfold fallback. msimpl.
  destruct (r =? latestTtsRequestId w)%N eqn:E; cbn [negb].
  - apply N.eqb_eq in E.
    destruct (speechSynthesis w) eqn:Esp.
    + destruct (stopAllAudio_frame f w) as (w' & Es & Hf).
      rewrite Es. unfold speak. msimpl.
      destruct (speakRaises f); cbn.
      * exists false, w'. split; [reflexivity|]. split; [exact Hf|]. congruence.
      * eexists true, _. split; [reflexivity|]. split; [|congruence].
        destruct Hf as (?&?&?&?). unfold frame. cbn. auto.
    + exists false, w. unfold frame. repeat split; auto.
  - exists false, w. unfold frame. repeat split; auto.
Qed.

Lemma lookup_alter_last {A} (g : A → A) (l : list A) (x : A) :
  alter g (length l) (l ++ [x]) !! length l = Some (g x).
Proof.
  rewrite list_lookup_alter_eq, lookup_app_r by lia.
  now rewrite Nat.sub_diag.
Qed.


Ltac exists_ex wav := eexists _, _, wav.

Ltac lookup_new :=
  first [ apply list_lookup_middle; reflexivity
        | apply (lookup_alter_last
                   (λ e, {| src := src e; paused := false |})) ].

Lemma playTextToSpeech_hit f text w url :
  audioCache w !! text = Some url →
  ∃ w' audio,
    playTextToSpeech f text w
      = (Ok (Suspended
               (AwaitCachedPlay (preIncrement (latestTtsRequestId w)) audio)),
         w')
    ∧ latestTtsRequestId w' = preIncrement (latestTtsRequestId w)
    ∧ audioCache w' = audioCache w
    ∧ objectUrls w' = objectUrls w
    ∧ synthesisRequests w' = synthesisRequests w
    ∧ currentAudio w' = Some audio
    ∧ audios w' !! audio
        = Some {| src := SrcUrl url; paused := playBlocked f |}.
Proof.
  intros Hhit. unfold playTextToSpeech. msimpl.
  cbn [audioCache set_latestTtsRequestId latestTtsRequestId].
  rewrite Hhit.
  destruct (stopAllAudio_frame f
              (set_latestTtsRequestId (preIncrement (latestTtsRequestId w)) w))
    as (w1 & Es & Hl & Hc & Hu & Hr).
  rewrite Es. cbn in Hl, Hc, Hu, Hr.
  rewrite Hl, N.eqb_refl. cbn [negb].
  unfold newAudio, play, updAudio. msimpl.
  destruct (playBlocked f); cbn; eexists _, _; (split; [reflexivity|]);
    cbn; repeat split; auto; lookup_new.
Qed.

Lemma playTextToSpeech_miss f text w :
  audioCache w !! text = None →
  playTextToSpeech f text w
    = (Ok (Suspended
             (AwaitSynthesis (preIncrement (latestTtsRequestId w)) text)),
       set_synthesisRequests (synthesisRequests w ++ [text])
         (set_latestTtsRequestId (preIncrement (latestTtsRequestId w)) w)).
Proof.
  intros Hmiss. unfold playTextToSpeech. msimpl.
  cbn [audioCache set_latestTtsRequestId latestTtsRequestId].
  rewrite Hmiss. reflexivity.
Qed.

(** A resumption whose request is no longer the latest changes nothing. *)
Lemma resume_stale f k o w :
  requestOf k ≠ latestTtsRequestId w →
  ∃ b, resume atob f k o w = (Ok (Returned b), w)
       ∧ b = match k with
             | AwaitSynthesis _ _ => false
             | _ => match o with Fulfilled _ => true | Rejected => false end
             end.
Proof.
  intros Hstale. destruct k as [r t|r a|r a]; cbn [requestOf] in Hstale.
  - exists false. split; [|reflexivity]. unfold resume. msimpl.
    destruct (fallback_frame f r t w) as (b & w' & Ef & _ & Hb).
    destruct (Hb Hstale) as [-> ->].
    apply N.eqb_neq in Hstale.
    destruct o as [|d]; [exact Ef|].
    rewrite Hstale. reflexivity.
  - destruct o; eexists; split; reflexivity.
  - destruct o; eexists; split; reflexivity.
Qed.

(** The synthesis of the latest request, answered with audio that
    decodes. *)
Lemma resume_success f r t b64 bin w :
  r = latestTtsRequestId w → b64 ≠ [] → atob b64 = Some bin →
  ∃ w' audio wav,
    resume atob f (AwaitSynthesis r t) (Fulfilled (Some b64)) w
      = (Ok (Suspended (AwaitFreshPlay r audio)), w')
    ∧ Wav.createWavBlob (toBytes bin) = Some wav
    ∧ audioCache w' = <[t := length (objectUrls w)]> (audioCache w)
    ∧ objectUrls w' = objectUrls w ++ [wav]
    ∧ latestTtsRequestId w' = latestTtsRequestId w
    ∧ synthesisRequests w' = synthesisRequests w
    ∧ currentAudio w' = Some audio
    ∧ audios w' !! audio
        = Some {| src := SrcUrl (length (objectUrls w));
                  paused := playBlocked f |}.
Proof.
  intros -> Hne Hdec. unfold resume. msimpl.
  rewrite N.eqb_refl. cbn [negb].
  destruct b64 as [|c b64]; [congruence|].
  unfold base64ToUint8Array, createWavBlob. rewrite Hdec. msimpl.
  fold (toBytes bin).
  destruct (Wav.createWavBlob (toBytes bin)) as [wav|] eqn:Ew;
    [|rewrite createWavBlob_eq in Ew; discriminate].
  unfold createObjectURL. msimpl.
  match goal with
  | |- context [stopAllAudio f ?w0] =>
      destruct (stopAllAudio_frame f w0) as (w1 & Es & Hl & Hc & Hu & Hr);
      rewrite Es; cbn in Hl, Hc, Hu, Hr
  end.
  rewrite Hl, N.eqb_refl. cbn [negb].
  unfold newAudio, play, updAudio. msimpl.
  destruct (playBlocked f); cbn; exists_ex wav; (split; [reflexivity|]);
    cbn; rewrite ?Hu; repeat split; auto; lookup_new.
Qed.


(** What any resumption leaves alone, and the one thing it may add. *)
Lemma resume_frame f k o w :
  ∃ p w', resume atob f k o w = (Ok p, w')
    ∧ latestTtsRequestId w' = latestTtsRequestId w
    ∧ synthesisRequests w' = synthesisRequests w
    ∧ (audioCache w' = audioCache w
       ∨ ∃ url, audioCache w' = <[match k with
                                   | AwaitSynthesis _ t => t
                                   | _ => []
                                   end := url]> (audioCache w))
    ∧ (∀ k', p = Suspended k' → requestOf k' = requestOf k).
Proof.
  destruct (decide (requestOf k = latestTtsRequestId w)) as [Hl|Hs].
  2:{ destruct (resume_stale f k o w Hs) as (b & E & _).
      eexists _, _. split; [exact E|]. repeat split; auto. discriminate. }
  destruct k as [r t|r a|r a]; cbn [requestOf] in Hl.
  2,3: destruct o; eexists _, _; (split; [reflexivity|]);
         repeat split; auto; discriminate.
  destruct (fallback_frame f r t w) as (b & w' & Ef & (F1 & F2 & F3 & F4) & _).
  unfold resume. msimpl.
  destruct o as [|[b64|]].
  - eexists _, _. split; [exact Ef|]. repeat split; auto. discriminate.
  - subst r. rewrite N.eqb_refl. cbn [negb].
    destruct b64 as [|c b64].
    { eexists _, _. split; [exact Ef|]. repeat split; auto. discriminate. }
    destruct (atob (c :: b64)) as [bin|] eqn:Hdec.
    + destruct (resume_success f _ t (c :: b64) bin w eq_refl ltac:(discriminate) Hdec)
        as (w2 & audio & wav & E & _ & Hc & _ & Hl2 & Hr2 & _).
      revert E. unfold resume. msimpl. rewrite N.eqb_refl. cbn [negb].
      intros E. rewrite E. eexists _, _. split; [reflexivity|].
      split; [auto|]. split; [auto|]. split; [right; eauto|].
      now intros k' [= <-].
    + unfold base64ToUint8Array. rewrite Hdec. msimpl.
      eexists _, _. split; [exact Ef|]. repeat split; auto. discriminate.
  - subst r. rewrite N.eqb_refl. cbn [negb].
    eexists _, _. split; [exact Ef|]. repeat split; auto. discriminate.
Qed.


Lemma playTextToSpeech_total f text w :
  ∃ k w', playTextToSpeech f text w = (Ok (Suspended k), w')
    ∧ requestOf k = preIncrement (latestTtsRequestId w)
    ∧ latestTtsRequestId w' = preIncrement (latestTtsRequestId w)
    ∧ audioCache w' = audioCache w
    ∧ synthesisRequests w'
        = synthesisRequests w
            ++ match audioCache w !! text with
               | Some _ => []
               | None => [text]
               end.
Proof.
  destruct (audioCache w !! text) as [url|] eqn:E.
  - destruct (playTextToSpeech_hit f text w url E)
      as (w' & audio & Ep & Hl & Hc & _ & Hr & _).
    eexists _, _. split; [exact Ep|]. rewrite app_nil_r. auto.
  - rewrite (playTextToSpeech_miss f text w E).
    eexists _, _. split; [reflexivity|]. auto.
Qed.

Lemma world_settleProgress r p s w rest :
  world (settleProgress r p s w rest) = w.
Proof. destruct p as [[b|k]|]; reflexivity. Qed.

(** Every event keeps the cached texts cached. *)
Lemma step_cache_kept s e t :
  is_Some (audioCache (world s) !! t) →
  is_Some (audioCache (world (step atob s e)) !! t).
Proof.
  intros Hin. destruct e as [f text|f i o|f]; cbn [step].
  - destruct (playTextToSpeech_total f text (world s))
      as (k & w' & E & _ & _ & Hc & _).
    rewrite E, world_settleProgress. now rewrite Hc.
  - destruct (inflight s !! i) as [k|]; [|exact Hin].
    destruct (resume_frame f k o (world s)) as (p & w' & E & _ & _ & Hc & _).
    rewrite E, world_settleProgress.
    destruct Hc as [->|[url ->]]; [exact Hin|].
    rewrite lookup_insert. case_decide; eauto.
  - cbn. destruct (stopAllAudio_frame f (world s)) as (w' & E & _ & Hc & _).
    rewrite E. cbn. now rewrite Hc.
Qed.

Lemma run_cons s e es :
  run atob s (e :: es) = run atob (step atob s e) es.
Proof. reflexivity. Qed.

Lemma run_cache_kept es s t :
  is_Some (audioCache (world s) !! t) →
  is_Some (audioCache (world (run atob s es)) !! t).
Proof.
  revert s. induction es as [|e es IH]; intros s Hin; [exact Hin|].
  rewrite run_cons. apply IH, step_cache_kept, Hin.
Qed.

(** The only event that sends a text to the remote model is a call with a
    text that is not cached. *)
Lemma step_requests s e :
  synthesisRequests (world (step atob s e))
  = synthesisRequests (world s)
      ++ match e with
         | Call _ t => match audioCache (world s) !! t with
                       | Some _ => []
                       | None => [t]
                       end
         | _ => []
         end.
Proof.
  destruct e as [f text|f i o|f]; cbn [step].
  - destruct (playTextToSpeech_total f text (world s))
      as (k & w' & E & _ & _ & _ & Hr).
    now rewrite E, world_settleProgress.
  - rewrite app_nil_r. destruct (inflight s !! i) as [k|]; [|reflexivity].
    destruct (resume_frame f k o (world s)) as (p & w' & E & _ & Hr & _).
    now rewrite E, world_settleProgress.
  - rewrite app_nil_r. cbn.
    destruct (stopAllAudio_frame f (world s)) as (w' & E & _ & _ & _ & Hr).
    now rewrite E.
Qed.

Lemma run_sentFor es s t :
  is_Some (audioCache (world s) !! t) →
  sentFor t (world (run atob s es)) = sentFor t (world s).
Proof.
  revert s. induction es as [|e es IH]; intros s Hin; [reflexivity|].
  rewrite run_cons, IH by (apply step_cache_kept, Hin).
  unfold sentFor. rewrite step_requests, filter_app, length_app.
  destruct e as [f text| |]; cbn; try lia.
  destruct (audioCache (world s) !! text) eqn:E; [cbn; lia|].
  rewrite (filter_cons_False _ text []); [cbn; lia|].
  intros ->. rewrite E in Hin. now destruct Hin.
Qed.


Lemma step_call_inflight s f text :
  ∃ k, inflight (step atob s (Call f text)) = inflight s ++ [k]
       ∧ requestOf k = preIncrement (latestTtsRequestId (world s))
       ∧ returns (step atob s (Call f text)) = returns s
       ∧ match audioCache (world s) !! text with
         | Some _ => ∃ audio, k = AwaitCachedPlay (requestOf k) audio
         | None => k = AwaitSynthesis (requestOf k) text
         end.
Proof.
  cbn [step].
  destruct (audioCache (world s) !! text) as [url|] eqn:E.
  - destruct (playTextToSpeech_hit f text (world s) url E)
      as (w' & audio & Ep & _).
    rewrite Ep. cbn. eexists. repeat split; eauto.
  - rewrite (playTextToSpeech_miss f text (world s) E). cbn.
    eexists. repeat split; eauto.
Qed.


(** The request ids of the calls in flight never exceed the latest id. *)
Lemma inflight_bounded_step s e :
  Forall (λ k, (requestOf k <= latestTtsRequestId (world s))%N) (inflight s) →
  Forall (λ k, (requestOf k
                <= latestTtsRequestId (world (step atob s e)))%N)
         (inflight (step atob s e)).
Proof.
  intros Hb. destruct e as [f text|f i o|f].
  - destruct (step_call_inflight s f text) as (k & -> & Hk & _).
    assert (Hl : latestTtsRequestId (world (step atob s (Call f text)))
                 = preIncrement (latestTtsRequestId (world s))).
    { cbn [step].
      destruct (playTextToSpeech_total f text (world s))
        as (k' & w' & E & _ & Hl & _).
      now rewrite E, world_settleProgress. }
    rewrite Hl. apply Forall_app. split.
    + eapply Forall_impl; [exact Hb|]. cbn. intros k0 Hk0.
      unfold preIncrement. destruct (_ <? _)%N; lia.
    + constructor; [|constructor]. rewrite Hk. lia.
  - cbn [step]. destruct (inflight s !! i) as [k|] eqn:Ek; [|exact Hb].
    destruct (resume_frame f k o (world s))
      as (p & w' & E & Hl & _ & _ & Hk').
    rewrite E.
    assert (Hrest : Forall (λ k0, (requestOf k0 <= latestTtsRequestId w')%N)
                      (delete i (inflight s))).
    { rewrite Hl. apply Forall_forall. intros k0 Hin.
      rewrite Forall_forall in Hb.
      apply Hb, (list_elem_of_delete_inv k0 i), Hin. }
    destruct p as [b|k']; cbn; [exact Hrest|].
    apply Forall_app. split; [exact Hrest|].
    constructor; [|constructor].
    rewrite (Hk' k' eq_refl), Hl.
    rewrite Forall_forall in Hb. apply Hb.
    apply list_elem_of_lookup. eauto.
  - cbn. destruct (stopAllAudio_frame f (world s)) as (w' & E & Hl & _).
    rewrite E. cbn. now rewrite Hl.
Qed.

Lemma inflight_bounded voice es :
  let s := run atob (initialSys voice) es in
  Forall (λ k, (requestOf k <= latestTtsRequestId (world s))%N) (inflight s).
Proof.
  cbn zeta.
  assert (H : ∀ s,
             Forall (λ k, (requestOf k <= latestTtsRequestId (world s))%N)
                    (inflight s) →
             Forall (λ k, (requestOf k
                           <= latestTtsRequestId (world (run atob s es)))%N)
                    (inflight (run atob s es))).
  { induction es as [|e es IH]; intros s Hs; [exact Hs|].
    rewrite run_cons. apply IH, inflight_bounded_step, Hs. }
  apply H. constructor.
Qed.

(** C1 (as amended).  A call of [playTextToSpeech] is in flight ([k], at
    any of its [await]s) and a later call is issued before it resolves.
    The later call then holds the highest request id, and when the earlier
    one resolves it changes nothing in the module or the browser: it does
    not start playback and does not set [currentAudio].  If it was waiting
    for the remote synthesis it returns [false], whether the synthesis
    succeeded or failed; if it was waiting for [play()] of an element it
    had started while it was still the latest, it returns the outcome of
    that [play()].  The same holds of any later resumption: in every world
    where its request id is not the latest, resuming it changes nothing. *)
Theorem superseded_call_changes_nothing s i k f1 f2 t o :
  inflight s !! i = Some k →
  (requestOf k <= latestTtsRequestId (world s))%N →
  (latestTtsRequestId (world s) < 2 ^ 53)%N →
  let s1 := step atob s (Call f1 t) in
  let s2 := step atob s1 (Settle f2 i o) in
  latestTtsRequestId (world s1) = (latestTtsRequestId (world s) + 1)%N
  ∧ world s2 = world s1
  ∧ returns s2
      = returns s1
          ++ [(requestOf k,
               match k with
               | AwaitSynthesis _ _ => false
               | AwaitCachedPlay _ _ | AwaitFreshPlay _ _ =>
                   match o with Fulfilled _ => true | Rejected => false end
               end)]
  ∧ (∀ f o' w, requestOf k ≠ latestTtsRequestId w →
               (resume atob f k o' w).2 = w).
Proof.
  intros Hk Hle Hlt s1 s2.
  assert (Hany : ∀ f o' w, requestOf k ≠ latestTtsRequestId w →
                           (resume atob f k o' w).2 = w).
  { intros f o' w Hs. destruct (resume_stale f k o' w Hs) as (b & E & _).
    now rewrite E. }
  destruct (step_call_inflight s f1 t) as (k1 & Hin & _).
  assert (Hl1 : latestTtsRequestId (world s1)
                = (latestTtsRequestId (world s) + 1)%N).
  { subst s1. cbn [step].
    destruct (playTextToSpeech_total f1 t (world s))
      as (k' & w' & E & _ & Hl & _).
    rewrite E, world_settleProgress, Hl. unfold preIncrement.
    apply N.ltb_lt in Hlt. now rewrite Hlt. }
  split; [exact Hl1|].
  assert (Hk1 : inflight s1 !! i = Some k).
  { subst s1. rewrite Hin. apply lookup_app_l_Some, Hk. }
  assert (Hstale : requestOf k ≠ latestTtsRequestId (world s1)) by lia.
  destruct (resume_stale f2 k o (world s1) Hstale) as (b & E & ->).
  subst s2. cbn [step]. rewrite Hk1, E. cbn. auto.
Qed.

(** C8.  A text that is not cached is played: the call sends one request
    to the remote model.  When that synthesis succeeds (audio that decodes,
    the call still the latest) the resource is stored in the cache under
    exactly that text.  Whatever happens afterwards ([es]: calls, settled
    promises, [stopAllAudio]) the entry is not evicted, and a second call
    with the same text sends no request and plays the cached resource: over
    the whole run exactly one request was sent for the text. *)
Theorem identical_text_one_synthesis s f1 f2 f3 text b64 bin es :
  audioCache (world s) !! text = None →
  b64 ≠ [] → atob b64 = Some bin →
  let s1 := step atob s (Call f1 text) in
  let s2 := step atob s1
              (Settle f2 (length (inflight s)) (Fulfilled (Some b64))) in
  let s3 := run atob s2 es in
  let s4 := step atob s3 (Call f3 text) in
  sentFor text (world s1) = S (sentFor text (world s))
  ∧ (∃ url wav,
       audioCache (world s2) !! text = Some url
       ∧ objectUrls (world s2) !! url = Some wav
       ∧ Wav.createWavBlob (toBytes bin) = Some wav)
  ∧ is_Some (audioCache (world s3) !! text)
  ∧ synthesisRequests (world s4) = synthesisRequests (world s3)
  ∧ (∃ url audio,
       audioCache (world s3) !! text = Some url
       ∧ last (inflight s4)
           = Some (AwaitCachedPlay (latestTtsRequestId (world s4)) audio)
       ∧ audios (world s4) !! audio
           = Some {| src := SrcUrl url; paused := playBlocked f3 |})
  ∧ sentFor text (world s4) = S (sentFor text (world s)).
Proof.
  intros Hmiss Hne Hdec s1 s2 s3 s4.
  (* the first call *)
  assert (E1 : s1 = {| world := set_synthesisRequests
                                  (synthesisRequests (world s) ++ [text])
                                  (set_latestTtsRequestId
                                     (preIncrement (latestTtsRequestId (world s)))
                                     (world s));
                       inflight := inflight s
                         ++ [AwaitSynthesis
                               (preIncrement (latestTtsRequestId (world s))) text];
                       returns := returns s |}).
  { subst s1. cbn [step]. now rewrite (playTextToSpeech_miss f1 text _ Hmiss). }
  assert (Hsent1 : sentFor text (world s1) = S (sentFor text (world s))).
  { rewrite E1. unfold sentFor. cbn.
    rewrite filter_app, length_app, (filter_cons_True _ text []) by reflexivity.
    cbn. lia. }
  (* its synthesis settles *)
  assert (Hk : inflight s1 !! length (inflight s)
               = Some (AwaitSynthesis
                         (preIncrement (latestTtsRequestId (world s))) text)).
  { rewrite E1. cbn. apply list_lookup_middle. reflexivity. }
  destruct (resume_success f2 (preIncrement (latestTtsRequestId (world s)))
              text b64 bin (world s1))
    as (w2 & audio & wav & E2 & Hwav & Hc2 & Hu2 & Hl2 & Hr2 & _); auto.
  { rewrite E1. reflexivity. }
  assert (Hw2 : world s2 = w2).
  { subst s2. cbn [step]. rewrite Hk, E2. reflexivity. }
  assert (Hcached2 : audioCache (world s2) !! text
                     = Some (length (objectUrls (world s1)))).
  { rewrite Hw2, Hc2. apply lookup_insert_eq. }
  assert (Hsent2 : sentFor text (world s2) = sentFor text (world s1)).
  { unfold sentFor. now rewrite Hw2, Hr2. }
  (* anything may happen; the entry stays *)
  assert (Hcached3 : is_Some (audioCache (world s3) !! text)).
  { apply run_cache_kept. rewrite Hcached2. eauto. }
  assert (Hsent3 : sentFor text (world s3) = sentFor text (world s2)).
  { apply run_sentFor. rewrite Hcached2. eauto. }
  (* the second call *)
  destruct Hcached3 as [url Hurl].
  destruct (playTextToSpeech_hit f3 text (world s3) url Hurl)
    as (w4 & audio4 & E4 & Hl4 & Hc4 & Hu4 & Hr4 & Hcur4 & Hel4).
  assert (Hs4 : world s4 = w4
                ∧ inflight s4
                  = inflight s3
                      ++ [AwaitCachedPlay
                            (preIncrement (latestTtsRequestId (world s3)))
                            audio4]).
  { subst s4. cbn [step]. rewrite E4. cbn. auto. }
  destruct Hs4 as [Hw4 Hi4].
  split; [exact Hsent1|].
  split.
  { exists (length (objectUrls (world s1))), wav.
    split; [exact Hcached2|]. split; [|exact Hwav].
    rewrite Hw2, Hu2. apply list_lookup_middle. reflexivity. }
  split; [eauto|].
  split; [now rewrite Hw4|].
  split.
  { exists url, audio4. split; [exact Hurl|].
    rewrite Hi4, last_snoc, Hw4, Hl4. auto. }
  unfold sentFor in *. rewrite Hw4, Hr4. lia.
Qed.

End SynthesisFacts.

Section SynthesisExamples.
Import Player JsString.

(** C1, as stated, fails.  Request 1 is synthesized, cached and started;
    while its [play()] is pending, request 2 is issued.  When the [play()]
    of request 1 is fulfilled, request 1 returns [true], not [false]. *)
Lemma superseded_playback_returns_true :
  let atob := λ b : list N, Some b in
  let s := Player.run atob (initialSys true)
             [Call noFaults (lit "Q1");
              Settle noFaults 0 (Fulfilled (Some (lit "AAAA")));
              Call noFaults (lit "Q2")] in
  inflight s = [AwaitFreshPlay 1 0; AwaitSynthesis 2 (lit "Q2")]
  ∧ latestTtsRequestId (world s) = 2%N
  ∧ returns (Player.step atob s (Settle noFaults 0 (Fulfilled None)))
      = [(1%N, true)].
Proof. vm_compute. auto. Qed.

Lemma superseded_call_changes_nothing_witness :
  let atob := λ b : list N, Some b in
  let s := Player.step atob (initialSys true) (Call noFaults (lit "Q1")) in
  let s1 := Player.step atob s (Call noFaults (lit "Q2")) in
  let s2 := Player.step atob s1
              (Settle noFaults 0 (Fulfilled (Some (lit "AAAA")))) in
  latestTtsRequestId (world s1) = 2%N
  ∧ world s2 = world s1
  ∧ returns s2 = returns s1 ++ [(1%N, false)].
Proof.
  intros atob s.
  destruct (superseded_call_changes_nothing atob s 0
              (AwaitSynthesis 1 (lit "Q1")) noFaults noFaults (lit "Q2")
              (Fulfilled (Some (lit "AAAA"))))
    as (H1 & H2 & H3 & _).
  - reflexivity.
  - vm_compute. discriminate.
  - reflexivity.
  - split; [exact H1|]. split; [exact H2|exact H3].
Defined.

Lemma identical_text_one_synthesis_witness :
  let atob := λ b : list N, Some b in
  let s1 := Player.step atob (initialSys true) (Call noFaults (lit "Q1")) in
  let s2 := Player.step atob s1
              (Settle noFaults 0 (Fulfilled (Some (lit "AAAA")))) in
  let s3 := Player.run atob s2 [Call noFaults (lit "Q2"); StopAll noFaults] in
  let s4 := Player.step atob s3 (Call noFaults (lit "Q1")) in
  synthesisRequests (world s4) = synthesisRequests (world s3)
  ∧ sentFor (lit "Q1") (world s4) = 1%nat.
Proof.
  intros atob s1 s2 s3 s4.
  destruct (identical_text_one_synthesis atob (initialSys true)
              noFaults noFaults noFaults (lit "Q1") (lit "AAAA") (lit "AAAA")
              [Call noFaults (lit "Q2"); StopAll noFaults])
    as (_ & _ & _ & H4 & _ & H6).
  - reflexivity.
  - discriminate.
  - reflexivity.
  - split; [exact H4|exact H6].
Defined.

End SynthesisExamples.


(** ** [evaluateSession] *)

Section EvaluationFacts.
Import Evaluation JsString.

Lemma hasKeys_true o : hasKeys o = true ↔ ∃ q t, o !! q = Some t.
Proof.
  unfold hasKeys. rewrite Nat.ltb_lt. split.
  - intros Hsz. apply map_choose. intros ->.
    rewrite map_size_empty in Hsz. lia.
  - intros (q & t & Hq).
    destruct (size o) eqn:E; [|lia].
    apply map_size_empty_iff in E. subst o.
    rewrite lookup_empty in Hq. discriminate.
Qed.

Lemma hasKeys_empty : hasKeys ∅ = false.
Proof. reflexivity. Qed.

(** C10.  When both answer maps are empty [evaluateSession] returns the
    fixed report (score 0 and feedback "No answers recorded." for each
    student) at once, with no request to the remote evaluator; it sends a
    request exactly when some student has some recorded answer. *)
Theorem evaluateSession_no_answers (plan : DailyPlan)
        (sessionData : SessionData) :
  (answers (studentA sessionData) = ∅ →
   answers (studentB sessionData) = ∅ →
   evaluateSession plan sessionData = EvalReturned noAnswersReport)
  ∧ score (resultA noAnswersReport) = 0%Q
  ∧ score (resultB noAnswersReport) = 0%Q
  ∧ feedback (resultA noAnswersReport) = lit "No answers recorded."
  ∧ feedback (resultB noAnswersReport) = lit "No answers recorded."
  ∧ ((∃ request, evaluateSession plan sessionData = EvalAwait request)
     ↔ (∃ q t, answers (studentA sessionData) !! q = Some t)
       ∨ (∃ q t, answers (studentB sessionData) !! q = Some t)).
Proof.
  split.
  { intros Ha Hb. unfold evaluateSession. rewrite Ha, Hb. reflexivity. }
  repeat (split; [reflexivity|]).
  rewrite <- !hasKeys_true. unfold evaluateSession.
  destruct (hasKeys (answers (studentA sessionData))),
           (hasKeys (answers (studentB sessionData))); cbn;
    split; eauto; try (intros [? [=]]); intros [[=]|[=]].
Qed.

Lemma evaluateSession_no_answers_witness :
  let plan := {| day := 1; topic := lit "Food"; questions := [] |} in
  evaluateSession plan {| studentA := {| answers := ∅ |};
                          studentB := {| answers := ∅ |} |}
  = EvalReturned noAnswersReport.
Proof.
  intros plan.
  apply (evaluateSession_no_answers plan
           {| studentA := {| answers := ∅ |};
              studentB := {| answers := ∅ |} |}); reflexivity.
Defined.

End EvaluationFacts.

(** ** Trimming *)

Section JsStringFacts.
Import JsString.

Lemma trimStart_headOk s : headOk (trimStart s).
Proof.
  induction s as [|c r IH]; cbn; [exact I|].
  destruct (isWhiteSpace c) eqn:E; [exact IH|exact E].
Qed.

Lemma trimStart_id s : headOk s → trimStart s = s.
Proof. destruct s as [|c r]; cbn; [reflexivity|]. now intros ->. Qed.

Lemma trimStart_app l c m :
  isWhiteSpace c = false →
  trimStart (l ++ c :: m) = trimStart l ++ c :: m.
Proof.
  intros Hc. induction l as [|x l IH]; cbn.
  - now rewrite Hc.
  - destruct (isWhiteSpace x); [exact IH|reflexivity].
Qed.

Lemma trimEnd_cons c r :
  isWhiteSpace c = false → trimEnd (c :: r) = c :: trimEnd r.
Proof.
  intros Hc. unfold trimEnd. cbn [rev].
  rewrite (trimStart_app (rev r) c [] Hc), rev_app_distr. reflexivity.
Qed.

Lemma trimEnd_id s : headOk (rev s) → trimEnd s = s.
Proof. intros H. unfold trimEnd. now rewrite trimStart_id, rev_involutive. Qed.

Lemma trim_headOk s : headOk (trim s).
Proof.
  unfold trim. pose proof (trimStart_headOk s) as H.
  destruct (trimStart s) as [|c r]; [exact I|].
  cbn in H. rewrite trimEnd_cons by exact H. exact H.
Qed.

Lemma trim_lastOk s : headOk (rev (trim s)).
Proof.
  unfold trim, trimEnd. rewrite rev_involutive. apply trimStart_headOk.
Qed.

Lemma trim_id s : headOk s → headOk (rev s) → trim s = s.
Proof.
  intros H1 H2. unfold trim. rewrite (trimStart_id s H1). now apply trimEnd_id.
Qed.

Lemma trim_idempotent s : trim (trim s) = trim s.
Proof. apply trim_id; [apply trim_headOk|apply trim_lastOk]. Qed.

Lemma truthy_false s : truthy s = false ↔ s = [].
Proof. destruct s; cbn; split; congruence. Qed.

Lemma truthy_true s : truthy s = true ↔ s ≠ [].
Proof. destruct s; cbn; split; congruence. Qed.

End JsStringFacts.

(** ** Transcript assembly and submit *)

Section TranscriptFacts.
Import JsString StudentBox.

Lemma endsClean_cons c s : s ≠ [] → endsClean (c :: s) → endsClean s.
Proof.
  intros Hs [_ H]. split; [exact Hs|].
  cbn [rev] in H. destruct (rev s) as [|x r] eqn:E; [|exact H].
  apply (f_equal (@rev N)) in E. rewrite rev_involutive in E. now cbn in E.
Qed.

Lemma trimStart_endsClean s : endsClean s → endsClean (trimStart s).
Proof.
  induction s as [|c s IH]; intros Hs; [exact Hs|].
  cbn [trimStart]. destruct (isWhiteSpace c) eqn:Ec; [|exact Hs].
  destruct s as [|c' s'].
  - destruct Hs as [_ Hs]. cbn in Hs. congruence.
  - apply IH, (endsClean_cons c); [discriminate|exact Hs].
Qed.

(** Stripping leading white space does not reach past a text that ends
    clean. *)
Lemma trimStart_app_endsClean s r :
  endsClean s → trimStart (s ++ r) = trimStart s ++ r.
Proof.
  induction s as [|c s IH]; intros Hs; [now destruct Hs|].
  cbn. destruct (isWhiteSpace c) eqn:Ec; [|reflexivity].
  destruct s as [|c' s'].
  - destruct Hs as [_ Hs]. cbn in Hs. congruence.
  - apply IH, (endsClean_cons c); [discriminate|exact Hs].
Qed.

Lemma trim_endsClean s : endsClean s → trim s = trimStart s.
Proof.
  intros Hs. unfold trim. apply trimEnd_id, (trimStart_endsClean s Hs).
Qed.

Lemma endsClean_spaced a b : endsClean b → endsClean (spaced a b).
Proof.
  intros [Hne Hb]. unfold spaced. split; [now destruct a|].
  rewrite rev_app_distr. cbn [rev]. rewrite <- !app_assoc.
  destruct (rev b) as [|x r] eqn:E; [|exact Hb].
  apply (f_equal (@rev N)) in E. rewrite rev_involutive in E. now cbn in E.
Qed.

Lemma joinSpace_snoc segs x :
  segs ≠ [] → joinSpace (segs ++ [x]) = spaced (joinSpace segs) x.
Proof.
  induction segs as [|s r IH]; [congruence|]. intros _.
  destruct r as [|s' r]; [reflexivity|].
  change (joinSpace ((s :: s' :: r) ++ [x]))
    with (spaced s (joinSpace ((s' :: r) ++ [x]))).
  rewrite IH by discriminate.
  change (joinSpace (s :: s' :: r)) with (spaced s (joinSpace (s' :: r))).
  unfold spaced. now rewrite <- app_assoc.
Qed.

Lemma endsClean_joinSpace segs :
  segs ≠ [] → Forall endsClean segs → endsClean (joinSpace segs).
Proof.
  induction segs as [|s r IH]; [congruence|]. intros _ Hall.
  inversion Hall as [|? ? Hs Hr]; subst.
  destruct r as [|s' r]; [exact Hs|].
  change (joinSpace (s :: s' :: r)) with (spaced s (joinSpace (s' :: r))).
  apply endsClean_spaced, IH; [discriminate|exact Hr].
Qed.

(** Appending a segment to the trimmed transcript, or to the untrimmed one,
    trims to the same text. *)
Lemma trim_spaced_trim x seg :
  endsClean x → trim (spaced (trim x) seg) = trim (spaced x seg).
Proof.
  intros Hx. rewrite (trim_endsClean x Hx). unfold trim, spaced.
  rewrite (trimStart_app_endsClean (trimStart x))
    by apply (trimStart_endsClean x Hx).
  rewrite (trimStart_id (trimStart x)) by apply trimStart_headOk.
  now rewrite (trimStart_app_endsClean x) by exact Hx.
Qed.

Lemma trim_spaced_nil seg : trim (spaced [] seg) = trim seg.
Proof. reflexivity. Qed.

(** The loop of [onresult]: the final segments concatenated, and the
    interim ones, with nothing between them. *)
Lemma collect_spec results newFinal newInterim :
  collect results newFinal newInterim
  = (newFinal ++ concat (finalsOf results),
     newInterim ++ concat (interimsOf results)).
Proof.
  revert newFinal newInterim.
  induction results as [|r rest IH]; intros a i; cbn [collect].
  - unfold finalsOf, interimsOf. cbn. now rewrite !app_nil_r.
  - unfold finalsOf, interimsOf in *.
    destruct (isFinal r) eqn:E; rewrite IH.
    + rewrite filter_cons_True, filter_cons_False by congruence.
      cbn. now rewrite <- app_assoc.
    + rewrite filter_cons_False, filter_cons_True by congruence.
      cbn. now rewrite <- app_assoc.
Qed.

(** One batch: what [onresult] does to the cumulative transcript and to
    the interim preview. *)
Lemma onresult_spec results b :
  isMountedRef b = true →
  let newFinal := concat (finalsOf results) in
  fullTranscriptRef (onresult results b)
    = (if truthy newFinal
       then trim (spaced (fullTranscriptRef b) newFinal)
       else fullTranscriptRef b)
  ∧ transcript (onresult results b)
    = (if truthy newFinal
       then trim (spaced (fullTranscriptRef b) newFinal)
       else transcript b)
  ∧ interimTranscript (onresult results b) = concat (interimsOf results)
  ∧ isMountedRef (onresult results b) = true
  ∧ isManualMode (onresult results b) = isManualMode b
  ∧ manualText (onresult results b) = manualText b.
Proof.
  intros Hm. unfold onresult. rewrite Hm. cbn [negb].
  rewrite collect_spec. cbn [app].
  destruct (truthy (concat (finalsOf results))); cbn; repeat split; auto.
Qed.

Lemma feed_snoc batches results b :
  feed (batches ++ [results]) b = onresult results (feed batches b).
Proof. unfold feed. now rewrite foldl_app. Qed.

Lemma feed_mounted batches b :
  isMountedRef b = true →
  isMountedRef (feed batches b) = true
  ∧ isManualMode (feed batches b) = isManualMode b.
Proof.
  intros Hm. induction batches as [|rs batches IH] using rev_ind; [auto|].
  rewrite feed_snoc. destruct IH as [IH1 IH2].
  destruct (onresult_spec rs (feed batches b) IH1) as (_ & _ & _ & H1 & H2 & _).
  split; congruence.
Qed.

Lemma feed_tidy batches b :
  isMountedRef b = true → fullTranscriptRef b = [] →
  Forall tidy batches →
  fullTranscriptRef (feed batches b)
    = trim (joinSpace (concat (finalsOf <$> batches)))
  ∧ Forall endsClean (concat (finalsOf <$> batches)).
Proof.
  intros Hm Hfull.
  induction batches as [|rs batches IH] using rev_ind; intros Htidy.
  - cbn. auto.
  - apply Forall_app in Htidy. destruct Htidy as [Hb Hrs].
    inversion Hrs as [|? ? [Hlen Hcl] _]; subst.
    destruct (IH Hb) as [IHf IHc]. clear IH.
    rewrite feed_snoc, fmap_app, concat_app. cbn [fmap list_fmap concat].
    rewrite app_nil_r.
    destruct (feed_mounted batches b Hm) as [Hm' _].
    destruct (onresult_spec rs (feed batches b) Hm') as (Hf & _).
    rewrite Hf, IHf.
    destruct (finalsOf rs) as [|seg [|seg' more]].
    + cbn. rewrite app_nil_r. auto.
    + inversion Hcl as [|? ? Hseg _]; subst.
      cbn [concat]. rewrite app_nil_r.
      assert (truthy seg = true) as -> by (apply truthy_true, Hseg).
      split; [|apply Forall_app; auto].
      destruct (concat (finalsOf <$> batches)) as [|s0 segs] eqn:E.
      * reflexivity.
      * rewrite joinSpace_snoc by discriminate.
        apply trim_spaced_trim, endsClean_joinSpace; [discriminate|exact IHc].
    + cbn in Hlen. lia.
Qed.

(** [handleSubmit], case by case. *)
Lemma handleSubmit_spec f b :
  handleSubmit f b
  = if truthy (submitText b)
    then (if isRecording b
          then callRecognition (abortRaises f) RecAbortCall b
          else b,
          Some (submitText b))
    else (set_errorMsg (Some (lit "Please say something first.")) b, None).
Proof.
  unfold handleSubmit, submitText.
  destruct (isManualMode b), (truthy (interimTranscript b)); cbn [andb negb];
    rewrite ?trim_idempotent;
    match goal with
    | |- context [truthy ?t] => destruct (truthy t)
    end; reflexivity.
Qed.

(** C4 (as amended).  Batches arrive at a mounted box in voice mode whose
    transcript is empty; each batch carries at most one final segment, and
    final segments are not empty and do not end in white space.
    Then the cumulative final transcript is the space-joined, trimmed
    concatenation of all final segments seen so far; whatever batch comes
    next, the interim preview becomes the interim text of that batch alone;
    and submit yields the final transcript followed, after a space, by the
    pending interim text, trimmed (nothing when that is blank).  With the
    final segments "Hello" and "there" delivered in two batches and the
    interim "friend" pending, submit yields "Hello there friend". *)
Theorem transcript_merge_tidy batches b f :
  isMountedRef b = true → fullTranscriptRef b = [] →
  isManualMode b = false →
  Forall tidy batches →
  let b' := feed batches b in
  fullTranscriptRef b' = trim (joinSpace (concat (finalsOf <$> batches)))
  ∧ (∀ results,
       interimTranscript (onresult results b') = concat (interimsOf results))
  ∧ (handleSubmit f b').2
    = (let t := trim (if truthy (interimTranscript b')
                      then spaced (fullTranscriptRef b') (interimTranscript b')
                      else fullTranscriptRef b') in
       if truthy t then Some t else None)
  ∧ (handleSubmit f
       (feed [[final "Hello"]; [final "there"; interim "friend"]] freshBox)).2
    = Some (lit "Hello there friend").
Proof.
  intros Hm Hfull Hvoice Htidy b'.
  destruct (feed_tidy batches b Hm Hfull Htidy) as [Hf Hc].
  destruct (feed_mounted batches b Hm) as [Hm' Hmode].
  split; [|split; [|split]].
  - subst b'. exact Hf.
  - intros results. apply (onresult_spec results b' Hm').
  - rewrite handleSubmit_spec. unfold submitText.
    subst b'. rewrite Hmode, Hvoice. cbn zeta.
    now destruct (truthy (trim _)).
  - reflexivity.
Qed.

Lemma transcript_merge_tidy_witness :
  let b' := feed [[final "Hello"]; [interim "the"];
                  [final "there"; interim "friend"]] freshBox in
  fullTranscriptRef b' = lit "Hello there"
  ∧ (handleSubmit TestSession.noRecFaults b').2
    = Some (lit "Hello there friend").
Proof.
  intros b'.
  destruct (transcript_merge_tidy
              [[final "Hello"]; [interim "the"];
               [final "there"; interim "friend"]]
              freshBox TestSession.noRecFaults)
    as (H1 & _ & H3 & _).
  - reflexivity.
  - reflexivity.
  - reflexivity.
  - repeat constructor; cbn; try lia; try discriminate.
  - split; [exact H1|exact H3].
Defined.

(** C4, as stated, fails.  One batch carries the two final segments
    "Hello" and "there" and the interim "friend": the loop concatenates the
    final segments with nothing between them, so the cumulative transcript
    is "Hellothere", not the space-joined "Hello there", and submit yields
    "Hellothere friend".  And a final segment that ends in a space, "Hello "
    followed in the next batch by "there", gives "Hello there" where the
    space-joined, trimmed concatenation has two spaces. *)
Lemma transcript_merge_one_batch :
  let b' := feed [[final "Hello"; final "there"; interim "friend"]]
                 freshBox in
  let b'' := feed [[final "Hello "]; [final "there"]] freshBox in
  concat (finalsOf <$> [[final "Hello"; final "there"; interim "friend"]])
    = [lit "Hello"; lit "there"]
  ∧ trim (joinSpace [lit "Hello"; lit "there"]) = lit "Hello there"
  ∧ fullTranscriptRef b' = lit "Hellothere"
  ∧ fullTranscriptRef b' ≠ trim (joinSpace [lit "Hello"; lit "there"])
  ∧ (handleSubmit TestSession.noRecFaults b').2
    = Some (lit "Hellothere friend")
  ∧ (handleSubmit TestSession.noRecFaults b').2
    ≠ Some (lit "Hello there friend")
  ∧ fullTranscriptRef b'' = lit "Hello there"
  ∧ trim (joinSpace [lit "Hello "; lit "there"]) = lit "Hello  there".
Proof. vm_compute. repeat split; congruence. Qed.




End TranscriptFacts.

(** ** The turn-taking state machine *)

Section SessionFacts.
Import JsString Evaluation StudentBox TestSession.

Variable platform : Platform.
Variable parseReport : list N → option ReportValue.

(** What the effects after a render leave alone. *)
Lemma afterRender_kept f old new :
  let s := afterRender platform f old new in
  plan s = plan new
  ∧ currentQuestionIdx s = currentQuestionIdx new
  ∧ sessionData s = sessionData new
  ∧ phase s = phase new
  ∧ report s = report new
  ∧ isFinishing s = isFinishing new
  ∧ awaitedEvaluation s = awaitedEvaluation new
  ∧ effects s = effects new.
Proof.
  unfold afterRender.
  repeat match goal with
         | |- context [if ?c then _ else _] => destruct c
         | |- context [match phase ?x with _ => _ end] => destruct (phase x)
         | |- context [match currentQuestion ?x with _ => _ end] =>
             destruct (currentQuestion x)
         end; cbn; repeat split; reflexivity.
Qed.


Lemma finishSession_kept rendered s :
  let s' := finishSession rendered s in
  plan s' = plan s
  ∧ currentQuestionIdx s' = currentQuestionIdx s
  ∧ sessionData s' = sessionData s
  ∧ report s' = report s
  ∧ phase s' = evaluating
  ∧ awaitedEvaluation s' = Some (evaluateSession (plan s) rendered).
Proof.
  unfold finishSession.
  destruct (evaluateSession _ rendered) eqn:E; cbn; rewrite ?E;
    repeat split; reflexivity.
Qed.

Lemma handleStudentBComplete_cases q t s :
  let s' := handleStudentBComplete q t s in
  sessionData s' = recordAnswer StudentB (id q) t (sessionData s)
  ∧ report s' = report s
  ∧ ((S (currentQuestionIdx s) < length (questions (plan s))
      ∧ phase s' = examiner_speaking
      ∧ currentQuestionIdx s' = S (currentQuestionIdx s)
      ∧ awaitedEvaluation s' = awaitedEvaluation s)%nat
     ∨ (length (questions (plan s)) ≤ S (currentQuestionIdx s)
        ∧ phase s' = evaluating
        ∧ currentQuestionIdx s' = currentQuestionIdx s
        ∧ awaitedEvaluation s'
          = Some (evaluateSession (plan s) (sessionData s)))%nat).
Proof.
  unfold handleStudentBComplete, goToNextQuestion.
  cbn [currentQuestionIdx set_sessionData plan].
  destruct (currentQuestionIdx s <? length (questions (plan s)) - 1)%nat
    eqn:El.
  - apply Nat.ltb_lt in El. cbn. repeat split; auto. left.
    repeat split; auto. lia.
  - apply Nat.ltb_ge in El.
    match goal with
    | |- context [finishSession ?d ?s0] =>
        destruct (finishSession_kept d s0) as (H1 & H2 & H3 & H4 & H5 & H6)
    end.
    cbn in *. repeat split; auto. right. repeat split; auto. lia.
Qed.

(** A box hands an answer over only on an enabled submit. *)
Lemma boxStep_answer p b e b' stopped t :
  boxStep platform p b e = (b', stopped, Some t) →
  ∃ f, e = SubmitClick f ∧ stopped = false
       ∧ t = submitText b ∧ submitText b ≠ []
       ∧ hasAnswered p = false
       ∧ (isManualMode b = true ∨ disabled p = false)
       ∧ handleSubmit f b = (b', Some t).
Proof.
  unfold boxStep. destruct (enabled p b e) eqn:En; cbn [negb]; [|discriminate].
  destruct e as [f|f| | | | | |]; try discriminate.
  - destruct (handleMicClick platform f b). discriminate.
  - destruct (handleSubmit f b) as [b1 a] eqn:Eh. intros [= <- <- ->].
    exists f. rewrite handleSubmit_spec in Eh.
    destruct (truthy (submitText b)) eqn:Et; [|discriminate].
    injection Eh as <- <-.
    cbn [enabled] in En. apply andb_true_iff in En as [Hans Hen].
    apply negb_true_iff in Hans.
    repeat split; auto.
    + now apply truthy_true.
    + apply orb_true_iff in Hen as [Hm|Hd]; [now left|right].
      apply negb_true_iff, orb_false_iff in Hd. tauto.
    + rewrite handleSubmit_spec, Et. reflexivity.
Qed.

Lemma handle_edge s e : Edge s e (handle platform parseReport s e).
Proof.
  destruct e as [who be| | | | | |f| | |i r|o]; cbn [handle].
  - (* a box event *)
    destruct (sessionScreen s) eqn:Escr; [|now apply EdgeStay].
    destruct (boxStep platform (propsOf who s) (boxOf who s) be)
      as [[b stopped] [t|]] eqn:Eb.
    + apply boxStep_answer in Eb
        as (f & -> & -> & -> & Hne & Hans & Hturn & _).
      unfold onAnswerComplete.
      assert (Hq : currentQuestion (set_boxOf who b s) = currentQuestion s)
        by now destruct who.
      rewrite Hq. destruct (currentQuestion s) as [q|] eqn:Ecur.
      2:{ apply EdgeStay; now destruct who. }
      assert (Hturn' : isManualMode (boxOf who s) = true
                       ∨ phase s = turnOf who).
      { destruct Hturn as [Hm|Hd]; [now left|right].
        cbn in Hd. apply negb_false_iff, bool_decide_eq_true in Hd.
        exact Hd. }
      destruct who.
      * apply (EdgeAnswer s _ _ StudentA f q); auto.
      * destruct (handleStudentBComplete_cases q
                    (submitText (bellaBox s)) (set_boxes (tomBox s) b s))
          as (H1 & H2 & H3).
        apply (EdgeAnswer s _ _ StudentB f q); auto.
    + apply EdgeStay; destruct who, stopped; reflexivity.
  - (* examiner done *)
    destruct (sessionScreen s && bool_decide (phase s = examiner_speaking)
              && negb (isTTSLoading s) && negb (autoplayBlocked s)) eqn:Ec;
      [|now apply EdgeStay].
    apply andb_true_iff in Ec as [Ec _].
    apply andb_true_iff in Ec as [Ec _].
    apply andb_true_iff in Ec as [_ Ec].
    apply bool_decide_eq_true in Ec.
    now apply EdgeExaminerDone.
  - (* manual play *)
    destruct (sessionScreen s && negb (isTTSLoading s) && autoplayBlocked s);
      [|now apply EdgeStay].
    unfold handleManualPlay, callTts.
    destruct (currentQuestion _); now apply EdgeStay.
  - (* replay *)
    destruct (sessionScreen s && negb (isTTSLoading s)
              && negb (autoplayBlocked s)); [|now apply EdgeStay].
    unfold callTts. destruct (currentQuestion _); now apply EdgeStay.
  - (* show or hide the text *)
    destruct (sessionScreen s && negb (isTTSLoading s)
              && negb (autoplayBlocked s)); now apply EdgeStay.
  - (* stop audio *)
    destruct (sessionScreen s); now apply EdgeStay.
  - (* early finish *)
    destruct (sessionScreen s && negb (isFinishing s)) eqn:Ec;
      [|now apply EdgeStay].
    apply andb_true_iff in Ec as [Escr Efin].
    apply negb_true_iff in Efin.
    unfold handleEarlyFinish. rewrite Efin.
    destruct (confirmExit s) eqn:Econf; cbn [negb]; [|now apply EdgeStay].
    destruct (finishSession_kept (sessionData s) s)
      as (H1 & H2 & H3 & H4 & H5 & H6).
    now apply (EdgeEarlyFinish s _ _ f).
  - (* the autoplay timer *)
    destruct (autoplayTimer s); [|now apply EdgeStay].
    unfold callTts. destruct (currentQuestion _); now apply EdgeStay.
  - (* a confirmation timer *)
    destruct (confirmTimers s); now apply EdgeStay.
  - (* a call of playTextToSpeech returns *)
    destruct (awaitedTts s !! i) as [[| |]|]; [| | |now apply EdgeStay];
      try now apply EdgeStay.
    destruct r as [[|]|]; now apply EdgeStay.
  - (* the evaluation settles *)
    destruct (awaitedEvaluation s) as [pending|] eqn:Ea;
      [|now apply EdgeStay].
    apply (EdgeSettled s _ _ o pending); auto;
      destruct (evaluateSession_settle parseReport pending o);
      cbn; eauto.
Qed.

Lemma step_edge s e : Edge s e (TestSession.step platform parseReport s e).
Proof.
  unfold TestSession.step.
  destruct (afterRender_kept (faultsOf e) s (handle platform parseReport s e))
    as (_ & K2 & K3 & K4 & K5 & _ & K7 & _).
  destruct (handle_edge s e) as [? ? ? ? ?|? ? ? ? ? ? ?|who f q ? ? ? ? ? ? ? ? Hm
                                 |f ? ? ? ? ? ? ? ?|o pending ? ? ? ? ? ?].
  - apply EdgeStay; congruence.
  - apply EdgeExaminerDone; congruence.
  - apply (EdgeAnswer s _ _ who f q); try congruence.
    destruct who; rewrite K2, K4, K7; exact Hm.
  - apply (EdgeEarlyFinish s _ _ f); congruence.
  - apply (EdgeSettled s _ _ o pending); congruence.
Qed.

Lemma plan_step s e : plan (TestSession.step platform parseReport s e) = plan s.
Proof.
  unfold TestSession.step.
  destruct (afterRender_kept (faultsOf e) s (handle platform parseReport s e))
    as (-> & _).
  destruct e as [who be| | | | | |f| | |i r|o]; cbn [handle];
    unfold handleExaminerDone, handleManualPlay, handleEarlyFinish, callTts,
      onAnswerComplete, handleStudentAComplete, handleStudentBComplete,
      goToNextQuestion, finishSession;
    repeat match goal with
           | |- context [boxStep ?a ?b ?c ?d] => destruct (boxStep a b c d) as [[? []] [|]]
           | |- context [if ?c then _ else _] => destruct c
           | |- context [match evaluateSession ?a ?b with _ => _ end] => destruct (evaluateSession a b)
           | |- context [match evaluateSession_settle ?a ?b ?c with _ => _ end] => destruct (evaluateSession_settle a b c)
           | |- context [match currentQuestion ?x with _ => _ end] => destruct (currentQuestion x)
           | |- context [match awaitedEvaluation ?x with _ => _ end] => destruct (awaitedEvaluation x)
           | |- context [match confirmTimers ?x with _ => _ end] => destruct (confirmTimers x)
           | |- context [match awaitedTts ?x !! ?i with _ => _ end] => destruct (awaitedTts x !! i) as [[| |]|]
           | |- context [match ?r with Ok _ => _ | Raise => _ end] => destruct r as [[|]|]
           | who : Student |- _ => destruct who
           end; reflexivity.
Qed.

Lemma sessionScreen_phase s :
  sessionScreen s = true → phase s ≠ evaluating.
Proof. unfold sessionScreen. destruct (phase s); congruence. Qed.

Lemma hasAnswered_false who s q :
  wellFormed s → currentQuestion s = Some q →
  hasAnswered (propsOf who s) = false →
  answersOf who (sessionData s) !! id q = None.
Proof.
  intros (_ & _ & _ & Hne) Hq. cbn [hasAnswered propsOf].
  unfold savedAnswer. rewrite Hq. cbn [mbind option_bind].
  destruct (answersOf who (sessionData s) !! id q) as [t|] eqn:E; [|auto].
  intros Ht. apply truthy_false in Ht. subst t. now apply Hne in E.
Qed.

Lemma answersOf_recordAnswer who who' q t d q' :
  answersOf who' (recordAnswer who q t d) !! q'
  = if decide (who' = who ∧ q = q') then Some t
    else answersOf who' d !! q'.
Proof.
  case_decide as H.
  - destruct H as [-> ->]. destruct who; cbn; apply lookup_insert_eq.
  - destruct who, who'; cbn; try reflexivity;
      apply lookup_insert_ne; intros ->; now apply H.
Qed.

Lemma wellFormed_step s e :
  wellFormed s → wellFormed (TestSession.step platform parseReport s e).
Proof.
  intros Hwf. pose proof Hwf as (Hidx & Hev & Hres & Hne).
  unfold wellFormed. rewrite plan_step.
  destruct (step_edge s e)
    as [E1 E2 E3 E4 E5
       |_ Ep E2 E1 E3 E4 E5
       |who f q _ Escr Hq Hans _ Htext E3 E4 Hm
       |f _ Escr _ E2 E1 E3 E4 E5
       |o pending _ Ea E2 E1 E3 E4 E5].
  - rewrite E1, E2, E3, E4, E5. auto.
  - rewrite E1, E2, E3, E4, E5. repeat split; auto; try congruence.
    intros Hs. apply Hev in Hs. congruence.
  - assert (Hnone : ¬ is_Some (awaitedEvaluation s)).
    { intros H. apply Hev in H. now apply sessionScreen_phase in Escr. }
    rewrite E3, E4.
    assert (Hne' : ∀ who' q' t',
               answersOf who' (recordAnswer who (id q) (submitText (boxOf who s))
                                 (sessionData s)) !! q' = Some t' → t' ≠ []).
    { intros who' q' t'. rewrite answersOf_recordAnswer.
      case_decide; [congruence|apply Hne]. }
    destruct who.
    + destruct Hm as (-> & -> & ->). repeat split; auto; try congruence;
        try (intros H; now apply Hnone in H).
    + destruct Hm as [(Hlt & -> & -> & ->)|(Hge & -> & -> & ->)];
        repeat split; auto; try congruence; eauto;
        try (intros H; now apply Hnone in H).
  - rewrite E1, E2, E3, E4, E5. repeat split; auto; try congruence; eauto.
  - rewrite E1, E2, E3, E5. repeat split; auto; try congruence;
      try (intros [? [=]]).
Qed.

Lemma wellFormed_mount p s0 :
  mountSession platform p = Some s0 → wellFormed s0 ∧ plan s0 = p.
Proof.
  unfold mountSession. destruct (questions p) as [|q0 qs] eqn:Eq; [discriminate|].
  intros [= <-]. unfold wellFormed. cbn. rewrite Eq. cbn.
  repeat split; try lia; try congruence.
  - intros [? [=]].
  - intros [] q t; cbn; rewrite lookup_empty; discriminate.
Qed.

Lemma wellFormed_run es s :
  wellFormed s → wellFormed (TestSession.run platform parseReport s es).
Proof.
  revert s. induction es as [|e es IH]; intros s Hwf; [exact Hwf|].
  apply (IH _ (wellFormed_step s e Hwf)).
Qed.

Lemma reachable_wellFormed p s :
  reachable platform parseReport p s → wellFormed s.
Proof.
  intros (s0 & es & Hm & <-).
  apply wellFormed_run, (wellFormed_mount p s0 Hm).
Qed.

Lemma answers_step_kept s e who q t :
  wellFormed s →
  answersOf who (sessionData s) !! q = Some t →
  answersOf who (sessionData (TestSession.step platform parseReport s e)) !! q
    = Some t.
Proof.
  intros Hwf Hold.
  destruct (step_edge s e)
    as [_ _ E3 _ _|_ _ _ _ E3 _ _
       |who' f q0 _ _ Hq Hans _ _ E3 _ _
       |f _ _ _ _ _ E3 _ _|o pending _ _ _ _ E3 _ _];
    rewrite E3; try exact Hold.
  rewrite answersOf_recordAnswer. case_decide as H; [|exact Hold].
  destruct H as [-> <-].
  rewrite (hasAnswered_false who' s q0 Hwf Hq Hans) in Hold. discriminate.
Qed.

Lemma answers_step_new s e who q t :
  answersOf who (sessionData s) !! q = None →
  answersOf who (sessionData (TestSession.step platform parseReport s e)) !! q
    = Some t →
  ∃ f cur, e = BoxEv who (SubmitClick f)
           ∧ currentQuestion s = Some cur ∧ q = id cur
           ∧ t = submitText (boxOf who s) ∧ t ≠ [].
Proof.
  intros Hold.
  destruct (step_edge s e)
    as [_ _ E3 _ _|_ _ _ _ E3 _ _
       |who' f q0 -> _ Hq _ _ Htext E3 _ _
       |f _ _ _ _ _ E3 _ _|o pending _ _ _ _ E3 _ _];
    rewrite E3; try congruence.
  rewrite answersOf_recordAnswer. case_decide as H; [|congruence].
  destruct H as [-> <-]. intros [= <-]. eauto 10.
Qed.

(** X28.  In every state a session can reach, for every student and
    question id: an answer that is recorded stays recorded, with the same
    text, whatever happens in the rest of the session (it is neither
    overwritten nor removed); and an answer appears only when that
    student's box submits, for the question then current, the trimmed
    non-blank text of that submit.  A box submits a question once: while
    the answer of the current question is recorded, a submit click on that
    student's box writes nothing.  (Nothing is said of the phase in which
    the submit comes: in manual mode it need not be the student's turn.) *)
Theorem answers_written_once p s who q :
  reachable platform parseReport p s →
  (∀ t es,
     answersOf who (sessionData s) !! q = Some t →
     answersOf who
       (sessionData (TestSession.run platform parseReport s es)) !! q
       = Some t)
  ∧ (∀ e t,
       answersOf who (sessionData s) !! q = None →
       answersOf who
         (sessionData (TestSession.step platform parseReport s e)) !! q
         = Some t →
       ∃ f cur, e = BoxEv who (SubmitClick f)
                ∧ currentQuestion s = Some cur ∧ q = id cur
                ∧ t = submitText (boxOf who s) ∧ t ≠ [])
  ∧ (∀ f cur,
       is_Some (answersOf who (sessionData s) !! q) →
       currentQuestion s = Some cur → id cur = q →
       sessionData
         (TestSession.step platform parseReport s (BoxEv who (SubmitClick f)))
       = sessionData s).
Proof.
  intros Hreach. apply reachable_wellFormed in Hreach. split; [|split].
  - intros t es. revert s Hreach.
    induction es as [|e es IH]; intros s Hwf Hold; [exact Hold|].
    apply (IH (TestSession.step platform parseReport s e)).
    + now apply wellFormed_step.
    + now apply answers_step_kept.
  - intros e t. apply answers_step_new.
  - intros f cur [t Ht] Hcur <-.
    destruct (step_edge s (BoxEv who (SubmitClick f)))
      as [_ _ E3 _ _|[=]
         |who' f' q0 [= <- <-] _ Hq Hans _ _ _ _ _
         |f' [=]|o pending [=]]; [exact E3|].
    rewrite Hcur in Hq. injection Hq as <-.
    rewrite (hasAnswered_false who s cur Hreach Hcur Hans) in Ht.
    discriminate.
Qed.

(** The step that settles the awaited evaluation. *)
Lemma settle_step s o pending :
  awaitedEvaluation s = Some pending →
  let s' := TestSession.step platform parseReport s (EvaluationSettled o) in
  let v := match evaluateSession_settle parseReport pending o with
           | Ok v => v
           | Raise => ReportObject fallbackReport
           end in
  phase s' = results ∧ report s' = Some v
  ∧ isFinishing s' = false ∧ awaitedEvaluation s' = None.
Proof.
  intros Hp. cbv zeta. unfold TestSession.step.
  destruct (afterRender_kept (faultsOf (EvaluationSettled o)) s
              (handle platform parseReport s (EvaluationSettled o)))
    as (_ & _ & _ & -> & -> & -> & -> & _).
  cbn [handle]. rewrite Hp.
  destruct (evaluateSession_settle parseReport pending o); cbn; auto.
Qed.


End SessionFacts.

Section SessionExamples.
Import JsString Evaluation StudentBox TestSession.

(** C2 at its failing input.  Where the browser has no speech
    recognition both boxes mount in manual mode, and the manual submit
    button is not disabled outside the student's turn.  While the examiner
    is still speaking for question q1, Bella types "Me too" and submits:
    her answer for q1 is recorded, Tom has none, and the session moves on
    to the next question. *)
Lemma bella_answers_before_tom :
  ∃ s0, mountSession noRecognition twoQuestions = Some s0
    ∧ let s := TestSession.run noRecognition (λ _, None) s0
                 [BoxEv StudentB (ManualChange (lit "Me too"));
                  BoxEv StudentB (SubmitClick noRecFaults)] in
      answers (studentB (sessionData s)) !! lit "q1" = Some (lit "Me too")
      ∧ answers (studentA (sessionData s)) !! lit "q1" = None
      ∧ phase s = examiner_speaking
      ∧ currentQuestionIdx s = 1%nat.
Proof. eexists. split; [reflexivity|]. vm_compute. auto. Qed.

(** C6 at its failing input.  On the same platform, while the examiner is
    still speaking for question q1 and it is nobody's turn, Tom types
    "I like football" and submits: his answer for q1 is written, outside
    his turn, and the phase jumps to Bella's turn. *)
Lemma answer_recorded_outside_turn :
  ∃ s0, mountSession noRecognition twoQuestions = Some s0
    ∧ phase s0 = examiner_speaking
    ∧ phase s0 ≠ turnOf StudentA
    ∧ answersOf StudentA (sessionData s0) !! lit "q1" = None
    ∧ let s := TestSession.run noRecognition (λ _, None) s0
                 [BoxEv StudentA (ManualChange (lit "I like football"));
                  BoxEv StudentA (SubmitClick noRecFaults)] in
      answersOf StudentA (sessionData s) !! lit "q1"
        = Some (lit "I like football")
      ∧ phase s = student_b_turn
      ∧ currentQuestionIdx s = 0%nat.
Proof.
  eexists. split; [reflexivity|]. vm_compute. repeat split; congruence.
Qed.


End SessionExamples.


(** ** The turn order *)

Section TurnOrder.
Import JsString Evaluation StudentBox TestSession.

Variable platform : Platform.
Variable parseReport : list N → option ReportValue.

(** A box enters manual mode only through a control of its own turn. *)
Lemma boxStep_manual p b e b' stopped answer :
  boxStep platform p b e = (b', stopped, answer) →
  isManualMode b' = true →
  isManualMode b = true ∨ disabled p = false ∨ isActive p = true.
Proof.
  unfold boxStep. destruct (enabled p b e) eqn:En; cbn [negb].
  2:{ intros [= <- _ _]. auto. }
  destruct e as [f|f| |t| |rs|c|]; cbn [enabled] in En.
  - apply andb_true_iff in En as [_ En]. apply negb_true_iff in En. auto.
  - rewrite handleSubmit_spec.
    destruct (truthy (submitText b)); intros [= <- _ _]; cbn; auto.
    unfold callRecognition.
    destruct (isRecording b), (recognitionInstanceRef b), (abortRaises f);
      cbn; auto.
  - apply andb_true_iff in En as [En _]. auto.
  - intros [= <- _ _]. cbn. auto.
  - intros [= <- _ _]. unfold onstart. destruct (isMountedRef b); cbn; auto.
  - intros [= <- _ _]. unfold onresult.
    destruct (isMountedRef b); cbn [negb]; auto.
    destruct (collect rs [] []) as [nf ni]. destruct (truthy nf); cbn; auto.
  - intros [= <- _ _]. unfold onerror.
    destruct (isMountedRef b); cbn [negb]; auto.
    repeat match goal with
           | |- context [if ?c then _ else _] => destruct c
           end; cbn; auto.
  - intros [= <- _ _]. unfold onend. destruct (isMountedRef b); cbn; auto.
Qed.

Lemma bellaBox_handle s e :
  isManualMode (bellaBox (handle platform parseReport s e)) = true →
  isManualMode (bellaBox s) = true ∨ phase s = student_b_turn.
Proof.
  destruct e as [who be| | | | | |f| | |i r|o]; cbn [handle];
    unfold handleExaminerDone, handleManualPlay, handleEarlyFinish, callTts,
      finishSession.
  - destruct (sessionScreen s); [|auto].
    destruct (boxStep platform (propsOf who s) (boxOf who s) be)
      as [[b stopped] answer] eqn:Eb.
    assert (Hbox : ∀ s1, bellaBox
                     (match answer with
                      | Some t => onAnswerComplete who t s1
                      | None => s1
                      end) = bellaBox s1).
    { intros s1. destruct answer as [t|]; [|reflexivity].
      unfold onAnswerComplete, handleStudentAComplete, handleStudentBComplete,
        goToNextQuestion, finishSession.
      destruct (currentQuestion s1); [|reflexivity].
      destruct who; [reflexivity|].
      repeat match goal with
             | |- context [if ?c then _ else _] => destruct c
             | |- context [match evaluateSession ?a ?b with _ => _ end] =>
                 destruct (evaluateSession a b)
             end; reflexivity. }
    rewrite Hbox.
    destruct who.
    + destruct stopped; cbn; auto.
    + assert (bellaBox (if stopped
                        then emit StopAllAudio (set_boxOf StudentB b s)
                        else set_boxOf StudentB b s) = b) as ->
        by (now destruct stopped).
      intros Hm.
      destruct (boxStep_manual _ _ _ _ _ _ Eb Hm) as [H|[H|H]]; auto;
        right; cbn in H.
      * apply negb_false_iff, bool_decide_eq_true in H. exact H.
      * apply bool_decide_eq_true in H. exact H.
  - repeat match goal with
           | |- context [if ?c then _ else _] => destruct c
           end; cbn; auto.
  - repeat match goal with
           | |- context [if ?c then _ else _] => destruct c
           | |- context [match currentQuestion ?x with _ => _ end] =>
               destruct (currentQuestion x)
           end; cbn; auto.
  - repeat match goal with
           | |- context [if ?c then _ else _] => destruct c
           | |- context [match currentQuestion ?x with _ => _ end] =>
               destruct (currentQuestion x)
           end; cbn; auto.
  - repeat match goal with
           | |- context [if ?c then _ else _] => destruct c
           end; cbn; auto.
  - repeat match goal with
           | |- context [if ?c then _ else _] => destruct c
           end; cbn; auto.
  - repeat match goal with
           | |- context [if ?c then _ else _] => destruct c
           | |- context [match evaluateSession ?a ?b with _ => _ end] =>
               destruct (evaluateSession a b)
           end; cbn; auto.
  - repeat match goal with
           | |- context [if ?c then _ else _] => destruct c
           | |- context [match currentQuestion ?x with _ => _ end] =>
               destruct (currentQuestion x)
           end; cbn; auto.
  - destruct (confirmTimers s); cbn; auto.
  - destruct (awaitedTts s !! i) as [[| |]|]; [destruct r as [[|]|]| | |];
      cbn; auto.
  - destruct (awaitedEvaluation s) as [pending|]; [|auto].
    destruct (evaluateSession_settle parseReport pending o); cbn; auto.
Qed.


(** After a step, a box of Bella that is on screen in manual mode is the box
    of before the step, for a question with the same id, where the platform
    mounts boxes in voice mode. *)
Lemma bellaBox_step s e :
  isManualMode (mountBox platform) = false →
  sessionScreen (TestSession.step platform parseReport s e) = true →
  isManualMode (bellaBox (TestSession.step platform parseReport s e)) = true →
  sessionScreen s = true
  ∧ id <$> currentQuestion s
    = id <$> currentQuestion (TestSession.step platform parseReport s e)
  ∧ (isManualMode (bellaBox s) = true ∨ phase s = student_b_turn).
Proof.
  intros Hvoice. unfold TestSession.step, afterRender.
  pose proof (bellaBox_handle s e) as Hh.
  set (new := handle platform parseReport s e) in *.
  set (s1 := if bool_decide (currentQuestionIdx s = currentQuestionIdx new)
                && bool_decide (phase s = phase new)
             then new
             else
               let s0 := set_autoplayTimer false new in
               match phase s0, currentQuestion s0 with
               | examiner_speaking, Some _ =>
                   set_autoplayTimer true (set_autoplayBlocked false s0)
               | _, _ => s0
               end).
  assert (Hs1 : sessionScreen s1 = sessionScreen new
                ∧ currentQuestion s1 = currentQuestion new
                ∧ bellaBox s1 = bellaBox new).
  { subst s1.
    destruct (bool_decide _ && bool_decide _); [auto|].
    cbn zeta. destruct (phase (set_autoplayTimer false new)) eqn:Ep;
      destruct (currentQuestion (set_autoplayTimer false new)) eqn:Eq;
      auto. }
  destruct Hs1 as (Hscr1 & Hq1 & Hb1).
  destruct (sessionScreen s1) eqn:E1.
  - destruct (sessionScreen s) eqn:E0; cbn [andb].
    + destruct (bool_decide (id <$> currentQuestion s = id <$> currentQuestion s1))
        eqn:Eid.
      * apply bool_decide_eq_true in Eid. intros _ Hm.
        rewrite Hb1 in Hm. auto.
      * cbn. congruence.
    + cbn. congruence.
  - destruct (sessionScreen s).
    + unfold sessionScreen at 1. cbn [phase report set_boxes].
      fold (sessionScreen s1). congruence.
    + congruence.
Qed.

Lemma currentQuestion_same s s' :
  plan s' = plan s → currentQuestionIdx s' = currentQuestionIdx s →
  currentQuestion s' = currentQuestion s.
Proof. unfold currentQuestion. now intros -> ->. Qed.

Lemma ordered_step s e :
  isManualMode (mountBox platform) = false →
  wellFormed s → ordered s →
  ordered (TestSession.step platform parseReport s e).
Proof.
  intros Hvoice Hwf (O1 & O2 & O3).
  pose proof (bellaBox_step s e Hvoice) as Hbox.
  pose proof (plan_step platform parseReport s e) as Hplan.
  destruct (step_edge platform parseReport s e)
    as [E1 E2 E3 E4 E5
       |_ Ep E2 E1 E3 E4 E5
       |who f q _ Escr Hq Hans Hturn Htext E3 E4 Hm
       |f _ Escr _ E2 E1 E3 E4 E5
       |o pending _ Ea E2 E1 E3 [r E4] E5].
  - (* nothing of the protocol changes *)
    pose proof (currentQuestion_same s _ Hplan E1) as Hcur.
    unfold ordered. rewrite E2, E3, Hcur. split; [exact O1|]. split; [exact O2|].
    intros Hscr Hman. destruct (Hbox Hscr Hman) as (Hscr0 & _ & [Hm0|Hp2]); auto.
  - (* examiner done *)
    pose proof (currentQuestion_same s _ Hplan E1) as Hcur.
    unfold ordered. rewrite E2, E3, Hcur. split; [exact O1|].
    split; [discriminate|].
    intros Hscr Hman. destruct (Hbox Hscr Hman) as (Hscr0 & _ & [Hm0|Hp2]).
    + destruct (O3 Hscr0 Hm0) as [Hp|Hb]; [congruence|auto].
    + congruence.
  - (* an answer *)
    pose proof (hasAnswered_false who s q Hwf Hq Hans) as Hnone.
    unfold ordered. rewrite E3.
    destruct who.
    + (* Tom's *)
      destruct Hm as (Hp & Hi & _).
      pose proof (currentQuestion_same s _ Hplan Hi) as Hcur.
      rewrite Hp, Hcur, Hq. split; [|split].
      * intros q'. rewrite !answersOf_recordAnswer.
        case_decide as H1; [destruct H1 as [[=] _]|].
        case_decide as H2; [eauto|apply O1].
      * intros _. exists q. split; [reflexivity|].
        rewrite answersOf_recordAnswer.
        case_decide as H2; [eauto|]. exfalso. apply H2. auto.
      * auto.
    + (* Bella's: it is her turn *)
      assert (Hp : phase s = student_b_turn).
      { destruct Hturn as [Hman|Hp]; [|exact Hp].
        destruct (O3 Escr Hman) as [Hp|(cur & Hc & Hb)]; [exact Hp|].
        rewrite Hq in Hc. injection Hc as <-.
        rewrite Hnone in Hb. now destruct Hb. }
      destruct (O2 Hp) as (cur & Hc & Ha).
      rewrite Hq in Hc. injection Hc as <-.
      split; [|split].
      * intros q'. rewrite !answersOf_recordAnswer.
        case_decide as H1; [destruct H1 as [_ <-]|].
        -- intros _. case_decide as H2; [destruct H2 as [[=] _]|exact Ha].
        -- case_decide as H2; [destruct H2 as [[=] _]|apply O1].
      * destruct Hm as [(_ & -> & _)|(_ & -> & _)]; discriminate.
      * intros Hscr Hman. right.
        destruct (Hbox Hscr Hman) as (_ & Hid & _).
        rewrite Hq in Hid. cbn in Hid.
        destruct (currentQuestion (TestSession.step platform parseReport s e))
          as [cur'|]; [|discriminate].
        cbn in Hid. injection Hid as Hid. exists cur'. split; [reflexivity|].
        rewrite answersOf_recordAnswer.
        case_decide as H2; [eauto|]. exfalso. apply H2. auto.
  - (* early finish *)
    pose proof (currentQuestion_same s _ Hplan E1) as Hcur.
    unfold ordered. rewrite E2, E3. split; [exact O1|].
    split; [discriminate|].
    unfold sessionScreen. rewrite E2. discriminate.
  - (* the evaluation settles: the boxes that come back are new *)
    unfold ordered. rewrite E2, E3. split; [exact O1|].
    split; [discriminate|].
    intros Hscr Hman. destruct (Hbox Hscr Hman) as (Hscr0 & _).
    apply sessionScreen_phase in Hscr0. destruct Hwf as (_ & Hev & _).
    exfalso. apply Hscr0, Hev. eauto.
Qed.

Lemma ordered_run es s :
  isManualMode (mountBox platform) = false →
  wellFormed s → ordered s →
  ordered (TestSession.run platform parseReport s es).
Proof.
  intros Hvoice. revert s.
  induction es as [|e es IH]; intros s Hwf Ho; [exact Ho|].
  apply (IH (TestSession.step platform parseReport s e)).
  - now apply wellFormed_step.
  - now apply ordered_step.
Qed.

(** X23.  Where the boxes mount in voice mode, the claim of C2 holds: in every
    reachable state, Bella has an answer for a question only if Tom has
    one. *)
Theorem turn_order_voice p s q :
  isManualMode (mountBox platform) = false →
  reachable platform parseReport p s →
  is_Some (answersOf StudentB (sessionData s) !! q) →
  is_Some (answersOf StudentA (sessionData s) !! q).
Proof.
  intros Hvoice (s0 & es & Hmount & <-).
  destruct (wellFormed_mount platform p s0 Hmount) as [Hwf _].
  assert (Ho : ordered s0).
  { revert Hmount. unfold mountSession.
    destruct (questions p); [discriminate|]. intros [= <-].
    unfold ordered. cbn. rewrite Hvoice. repeat split; try discriminate.
    intros q'. rewrite lookup_empty. now intros [? ?]. }
  apply (ordered_run es s0 Hvoice Hwf Ho).
Qed.

End TurnOrder.

Section SessionWitnesses.
Import JsString Evaluation StudentBox TestSession.


Lemma answers_written_once_witness :
  ∃ s0, mountSession chrome oneQuestion = Some s0
    ∧ let s := TestSession.run chrome (λ _, None) s0 bothAnswer in
      answersOf StudentA (sessionData s) !! lit "q1"
        = Some (lit "I like football")
      ∧ answersOf StudentA
          (sessionData
             (TestSession.run chrome (λ _, None) s
                [EvaluationSettled Rejected; ConfirmTimerFired]))
          !! lit "q1" = Some (lit "I like football").
Proof.
  eexists. split; [reflexivity|]. intros s.
  assert (H : answersOf StudentA (sessionData s) !! lit "q1"
              = Some (lit "I like football")) by (vm_compute; reflexivity).
  assert (Hreach : reachable chrome (λ _, None) oneQuestion s)
    by (eexists _, bothAnswer; split; reflexivity).
  split; [exact H|].
  apply (answers_written_once chrome (λ _, None) oneQuestion s StudentA
           (lit "q1") Hreach).
  exact H.
Defined.

End SessionWitnesses.

(* ===================================================================== *)
(** * Further properties *)
(* ===================================================================== *)

(** ** The WAV container, for every input *)

Section WavMore.
Import Wav JsString.

(** X1.  [createWavBlob] is total and loses nothing: for a PCM input of
    any length it returns a container of type audio/wav that is 44 bytes
    longer than the input and whose bytes from offset 44 on are the input,
    so two inputs with the same container are equal.  The two size fields
    hold [36 + N] and [N] modulo [2^32] (they wrap for an input that does
    not fit the 32-bit fields), and the chunk size is always the data size
    plus 36 in 32-bit arithmetic. *)
Theorem createWavBlob_total (pcmData : list byte) :
  ∃ wav, createWavBlob pcmData = Some wav
    ∧ blobType wav = lit "audio/wav"
    ∧ length (blobBytes wav) = (44 + length pcmData)%nat
    ∧ drop 44 (blobBytes wav) = pcmData
    ∧ (∀ pcm', createWavBlob pcm' = Some wav → pcm' = pcmData)
    ∧ leValue (slice 4 8 (blobBytes wav))
      = (36 + Z.of_nat (length pcmData)) mod 2 ^ 32
    ∧ leValue (slice 40 44 (blobBytes wav))
      = Z.of_nat (length pcmData) mod 2 ^ 32
    ∧ leValue (slice 4 8 (blobBytes wav))
      = (36 + leValue (slice 40 44 (blobBytes wav))) mod 2 ^ 32.
Proof.
  eexists. split; [apply createWavBlob_eq|].
  destruct (createWavBlob_size_fields pcmData _ (createWavBlob_eq pcmData))
    as [H4 H40].
  split; [reflexivity|].
  split; [cbn [blobBytes]; rewrite length_app; reflexivity|].
  split; [reflexivity|].
  split.
  { intros pcm'. rewrite createWavBlob_eq. intros E.
    apply (f_equal (fmap (M := option) (λ w, drop 44 (blobBytes w)))) in E.
    cbn in E. rewrite !drop_0 in E. congruence. }
  split; [exact H4|]. split; [exact H40|].
  rewrite H4, H40. now rewrite Zplus_mod_idemp_r.
Qed.

(** X2.  The format sub-chunk of every container [createWavBlob] returns
    describes 16-bit mono PCM: sub-chunk size 16, audio format 1 (PCM), one
    channel, 24000 samples per second, 48000 bytes per second, block
    alignment 2 and 16 bits per sample; the byte rate is the sample rate
    times the block alignment, and the block alignment is the channel count
    times the bytes of one sample. *)
Theorem createWavBlob_fmt_chunk (pcmData : list byte) :
  ∃ wav, createWavBlob pcmData = Some wav
    ∧ leValue (slice 16 20 (blobBytes wav)) = 16
    ∧ leValue (slice 20 22 (blobBytes wav)) = 1
    ∧ leValue (slice 22 24 (blobBytes wav)) = 1
    ∧ leValue (slice 24 28 (blobBytes wav)) = SAMPLE_RATE
    ∧ leValue (slice 28 32 (blobBytes wav)) = 48000
    ∧ leValue (slice 32 34 (blobBytes wav)) = 2
    ∧ leValue (slice 34 36 (blobBytes wav)) = 16
    ∧ leValue (slice 28 32 (blobBytes wav))
      = leValue (slice 24 28 (blobBytes wav))
        * leValue (slice 32 34 (blobBytes wav))
    ∧ leValue (slice 32 34 (blobBytes wav)) * 8
      = leValue (slice 22 24 (blobBytes wav))
        * leValue (slice 34 36 (blobBytes wav)).
Proof.
  eexists. split; [apply createWavBlob_eq|].
  cbn [blobBytes]. repeat split; reflexivity.
Qed.

Lemma writeString_fits (s : list N) (buf : list byte) (offset : nat) :
  (offset + length s ≤ length buf)%nat →
  writeString buf offset s
  = Some (take offset buf ++ ((λ c, u8 (Z.of_N c)) <$> s)
            ++ drop (offset + length s) buf).
Proof.
  revert buf offset. induction s as [|c r IH]; intros buf offset Hfit.
  - cbn. now rewrite Nat.add_0_r, take_drop.
  - cbn [writeString length] in *. unfold setUint8.
    replace (offset + 1 <=? length buf)%nat with true
      by (symmetry; apply Nat.leb_le; lia).
    cbn [mbind option_bind].
    rewrite IH by (rewrite length_insert; lia).
    f_equal.
    rewrite (take_S_r _ offset (u8 (Z.of_N c)))
      by (apply list_lookup_insert_eq; lia).
    rewrite take_insert_ge, drop_insert_lt by lia.
    cbn. rewrite <- app_assoc. cbn.
    now replace (S (offset + length r)) with (offset + S (length r))%nat
      by lia.
Qed.

Lemma writeString_overflows (s : list N) (buf : list byte) (offset : nat) :
  s ≠ [] → (length buf < offset + length s)%nat →
  writeString buf offset s = None.
Proof.
  revert buf offset. induction s as [|c r IH]; intros buf offset Hne Hover;
    [congruence|].
  cbn [writeString length] in *. unfold setUint8.
  destruct (offset + 1 <=? length buf)%nat eqn:E; [|reflexivity].
  apply Nat.leb_le in E. cbn [mbind option_bind].
  destruct r as [|c' r']; [cbn in Hover; lia|].
  apply IH; [discriminate|rewrite length_insert; cbn [length] in *; lia].
Qed.

(** X3.  The local [writeString] of [createWavBlob]: when the text fits the
    buffer at the offset (or is empty) the result is the buffer with the
    low eight bits of each code unit written from the offset on, in order,
    and the bytes before and after the text as they were; when a non-empty
    text does not fit, a [RangeError] is raised. *)
Theorem writeString_spec (s : list N) (buf : list byte) (offset : nat) :
  writeString buf offset s
  = if (length s =? 0)%nat || (offset + length s <=? length buf)%nat
    then Some (take offset buf ++ ((λ c, u8 (Z.of_N c)) <$> s)
                 ++ drop (offset + length s) buf)
    else None.
Proof.
  destruct (offset + length s <=? length buf)%nat eqn:Efit.
  - rewrite orb_true_r. apply writeString_fits. now apply Nat.leb_le.
  - rewrite orb_false_r. apply Nat.leb_gt in Efit.
    destruct s as [|c r]; cbn [length Nat.eqb].
    + cbn. rewrite Nat.add_0_r, take_drop. reflexivity.
    + apply writeString_overflows; [discriminate|exact Efit].
Qed.

End WavMore.

(** ** The player: reachable states, the fallback, request ids *)

Section PlayerMore.
Import Player JsString.
Variable atob : list N → option (list N).

Ltac msimpl :=
  unfold mbind, M_bind, mret, M_ret, gets, modify, tryCatch, raise, failIf;
  cbn beta iota zeta.

Lemma alter_last {A} (g : A → A) (l : list A) (x : A) :
  alter g (length l) (l ++ [x]) = l ++ [g x].
Proof.
  induction l as [|y l IH]; [reflexivity|]. cbn. now rewrite IH.
Qed.

Lemma delete_last {A} (l : list A) (x : A) :
  delete (length l) (l ++ [x]) = l.
Proof.
  induction l as [|y l IH]; [reflexivity|]. cbn. f_equal. exact IH.
Qed.

Lemma started f url w1 :
  ∃ w', (audio ← newAudio url;
         modify (set_currentAudio (Some audio));;
         play f audio;;
         mret audio) w1 = (Ok (length (audios w1)), w')
        ∧ startedFrom f url w1 w'.
Proof.
  unfold newAudio, play, updAudio. msimpl.
  destruct (playBlocked f) eqn:Eb; cbn; eexists; (split; [reflexivity|]);
    unfold startedFrom; cbn; rewrite ?Eb, ?alter_last; repeat split; auto.
Qed.

(** A call whose text is cached: stop, then start the cached resource. *)
Lemma playTextToSpeech_hit_world f text w url :
  audioCache w !! text = Some url →
  ∃ w1 w',
    stopAllAudio f
      (set_latestTtsRequestId (preIncrement (latestTtsRequestId w)) w)
    = (Ok tt, w1)
    ∧ playTextToSpeech f text w
      = (Ok (Suspended (AwaitCachedPlay (preIncrement (latestTtsRequestId w))
                          (length (audios w1)))), w')
    ∧ startedFrom f url w1 w'.
Proof.
  intros Hhit. unfold playTextToSpeech. msimpl.
  cbn [audioCache set_latestTtsRequestId latestTtsRequestId].
  rewrite Hhit.
  destruct (stopAllAudio_frame f
              (set_latestTtsRequestId (preIncrement (latestTtsRequestId w)) w))
    as (w1 & Es & Hl & Hc & Hu & Hr).
  rewrite Es. cbn in Hl. rewrite Hl, N.eqb_refl. cbn [negb].
  destruct (started f url w1) as (w' & E & Hst).
  revert E. unfold newAudio, play, updAudio. msimpl.
  destruct (playBlocked f); cbn; intros [= E]; exists w1;
    eexists; (split; [reflexivity|]); rewrite E; auto.
Qed.

(** The fallback of a call that is still the latest. *)
Lemma fallback_world f r t w :
  r = latestTtsRequestId w →
  match speechSynthesis w with
  | None => fallback f r t w = (Ok (Returned false), w)
  | Some _ =>
      ∃ w1, stopAllAudio f w = (Ok tt, w1)
        ∧ fallback f r t w
          = (Ok (Returned (negb (speakRaises f))),
             if speakRaises f then w1
             else set_speechSynthesis
                    ((λ q, q ++ [(t, lit "en-GB")]) <$> speechSynthesis w1) w1)
  end.
Proof.
  intros ->. unfold fallback. msimpl. rewrite N.eqb_refl. cbn [negb].
  destruct (speechSynthesis w) eqn:Esp; [|reflexivity].
  destruct (stopAllAudio_frame f w) as (w1 & Es & _).
  exists w1. split; [exact Es|]. rewrite Es. unfold speak. msimpl.
  destruct (speakRaises f); reflexivity.
Qed.

(** A failed synthesis of the latest call goes to the fallback with the
    world as it is. *)
Lemma resume_failed f r t o w :
  r = latestTtsRequestId w → synthesisFailed atob o = true →
  resume atob f (AwaitSynthesis r t) o w = fallback f r t w.
Proof.
  intros -> Hfail. unfold resume. msimpl.
  destruct o as [|[[|c b64]|]]; try reflexivity;
    rewrite N.eqb_refl; cbn [negb]; try reflexivity.
  cbn in Hfail. unfold base64ToUint8Array.
  destruct (atob (c :: b64)); [discriminate|]. reflexivity.
Qed.

(** A successful synthesis of the latest call: register the container,
    cache it, stop, start it. *)
Lemma resume_success_world f r t b64 bin w :
  r = latestTtsRequestId w → b64 ≠ [] → atob b64 = Some bin →
  ∃ wav w1 w',
    Wav.createWavBlob (toBytes bin) = Some wav
    ∧ stopAllAudio f
        (set_audioCache (<[t := length (objectUrls w)]> (audioCache w))
           (set_objectUrls (objectUrls w ++ [wav]) w))
      = (Ok tt, w1)
    ∧ resume atob f (AwaitSynthesis r t) (Fulfilled (Some b64)) w
      = (Ok (Suspended (AwaitFreshPlay r (length (audios w1)))), w')
    ∧ startedFrom f (length (objectUrls w)) w1 w'.
Proof.
  intros -> Hne Hdec. unfold resume. msimpl.
  rewrite N.eqb_refl. cbn [negb].
  destruct b64 as [|c b64]; [congruence|].
  unfold base64ToUint8Array, createWavBlob. rewrite Hdec. msimpl.
  fold (toBytes bin).
  destruct (Wav.createWavBlob (toBytes bin)) as [wav|] eqn:Ew;
    [|rewrite createWavBlob_eq in Ew; discriminate].
  unfold createObjectURL. msimpl.
  match goal with
  | |- context [stopAllAudio f ?w0] =>
      destruct (stopAllAudio_frame f w0) as (w1 & Es & Hl & Hc & Hu & Hr);
      rewrite Es; cbn in Hl
  end.
  rewrite Hl, N.eqb_refl. cbn [negb].
  destruct (started f (length (objectUrls w)) w1) as (w' & E & Hst).
  revert E. unfold newAudio, play, updAudio. msimpl.
  destruct (playBlocked f); cbn; intros [= E]; exists wav, w1;
    eexists; (split; [reflexivity|]); (split; [exact Es|]);
    (split; [reflexivity|]); rewrite E; auto.
Qed.


Lemma synthesisFailed_false o :
  synthesisFailed atob o = false →
  ∃ b64 bin, o = Fulfilled (Some b64) ∧ b64 ≠ [] ∧ atob b64 = Some bin.
Proof.
  destruct o as [|[[|c b64]|]]; cbn; try discriminate.
  destruct (atob (c :: b64)) as [bin|] eqn:E; [|discriminate].
  intros _. exists (c :: b64), bin. auto.
Qed.

(** What one event does to the elements and the handle, and to the object
    URLs and the cache. *)
Lemma step_world s e :
  let w := world s in
  let w' := world (step atob s e) in
  ((audios w' = audios w ∧ currentAudio w' = currentAudio w)
   ∨ ∃ w0 w1,
       audios w0 = audios w ∧ currentAudio w0 = currentAudio w
       ∧ stopAllAudio (eventFaults e) w0 = (Ok tt, w1)
       ∧ ((audios w' = audios w1 ∧ currentAudio w' = currentAudio w1)
          ∨ ∃ url,
              audios w'
              = audios w1 ++ [{| src := SrcUrl url;
                                 paused := playBlocked (eventFaults e) |}]
              ∧ currentAudio w' = Some (length (audios w1))))
  ∧ ((objectUrls w' = objectUrls w ∧ audioCache w' = audioCache w)
     ∨ ∃ t pcm wav,
         Wav.createWavBlob pcm = Some wav
         ∧ objectUrls w' = objectUrls w ++ [wav]
         ∧ audioCache w' = <[t := length (objectUrls w)]> (audioCache w)).
Proof.
  cbn zeta. destruct e as [f text|f i o|f]; cbn [step eventFaults].
  - destruct (audioCache (world s) !! text) as [url|] eqn:Ec.
    + destruct (playTextToSpeech_hit_world f text (world s) url Ec)
        as (w1 & w' & Es & E & Ha & Hcur & Hl & Hc & Hu & _).
      rewrite E, world_settleProgress.
      destruct (stopAllAudio_frame f
                  (set_latestTtsRequestId
                     (preIncrement (latestTtsRequestId (world s))) (world s)))
        as (w1' & Es' & _ & Hc1 & Hu1 & _).
      rewrite Es in Es'. injection Es' as <-.
      split.
      * right.
        exists (set_latestTtsRequestId
                  (preIncrement (latestTtsRequestId (world s))) (world s)), w1.
        split; [reflexivity|]. split; [reflexivity|].
        split; [exact Es|]. right. exists url. auto.
      * left. rewrite Hu, Hc, Hu1, Hc1. auto.
    + rewrite (playTextToSpeech_miss f text _ Ec), world_settleProgress.
      split; left; auto.
  - destruct (inflight s !! i) as [k|] eqn:Ek; [|split; left; auto].
    destruct (N.eq_dec (requestOf k) (latestTtsRequestId (world s)))
      as [Hlat|Hlat].
    2:{ destruct (resume_stale atob f k o (world s) Hlat) as (b & E & _).
        rewrite E, world_settleProgress. split; left; auto. }
    destruct k as [r t|r a|r a]; cbn in Hlat.
    2,3: destruct o; cbn; split; left; auto.
    destruct (synthesisFailed atob o) eqn:Ef.
    + rewrite (resume_failed f r t o _ Hlat Ef).
      pose proof (fallback_world f r t (world s) Hlat) as Hfb.
      destruct (speechSynthesis (world s)) eqn:Esp.
      * destruct Hfb as (w1 & Es & E). rewrite E, world_settleProgress.
        destruct (stopAllAudio_frame f (world s))
          as (w1' & Es' & _ & Hc1 & Hu1 & _).
        rewrite Es in Es'. injection Es' as <-.
        split.
        -- right. exists (world s), w1. split; [reflexivity|].
           split; [reflexivity|]. split; [exact Es|]. left.
           destruct (speakRaises f); auto.
        -- left. destruct (speakRaises f); auto.
      * rewrite Hfb, world_settleProgress. split; left; auto.
    + destruct (synthesisFailed_false o Ef) as (b64 & bin & -> & Hne & Hdec).
      destruct (resume_success_world f r t b64 bin (world s) Hlat Hne Hdec)
        as (wav & w1 & w' & Ew & Es & E & Ha & Hcur & Hl & Hc & Hu & _).
      rewrite E, world_settleProgress.
      match type of Es with
      | stopAllAudio f ?w0 = _ =>
          destruct (stopAllAudio_frame f w0) as (w1' & Es' & _ & Hc1 & Hu1 & _);
          rewrite Es in Es'; injection Es' as <-;
          split; [right; exists w0, w1|]
      end.
      * split; [reflexivity|]. split; [reflexivity|].
        split; [exact Es|]. right. exists (length (objectUrls (world s))).
        auto.
      * right. exists t, (toBytes bin), wav. split; [exact Ew|].
        rewrite Hu, Hc, Hu1, Hc1. auto.
  - destruct (stopAllAudio_frame f (world s)) as (w1 & Es & _ & Hc1 & Hu1 & _).
    rewrite Es. cbn. split.
    + right. exists (world s), w1. split; [reflexivity|].
      split; [reflexivity|]. split; [exact Es|]. left. auto.
    + left. auto.
Qed.

Lemma sound_run voice es :
  sound (world (run atob (initialSys voice) es)).
Proof.
  assert (Hgen : ∀ es s, sound (world s) → sound (world (run atob s es))).
  { clear es. induction es as [|e es IH]; intros s Hs; [exact Hs|].
    rewrite run_cons. apply IH.
    destruct Hs as (Hcur & Hurl & Hcache).
    destruct (step_world s e) as (Hel & Hst). cbn zeta in Hel, Hst.
    split; [|split].
    - intros a Ha. destruct Hel as [(E1 & E2)|(w0 & w1 & E1 & E2 & Es & Hw)].
      + rewrite E1. apply Hcur. congruence.
      + destruct (stopAllAudio_elements (eventFaults e) w0)
          as (w1' & Es' & Hlen & Hc & _).
        rewrite Es in Es'. injection Es' as <-.
        destruct Hw as [(E3 & E4)|(url & E3 & E4)].
        * rewrite E3, Hlen, E1. apply Hcur.
          rewrite E4 in Ha. destruct Hc as [Hc|Hc]; congruence.
        * rewrite E3, length_app. cbn. rewrite E4 in Ha.
          injection Ha as <-. lia.
    - intros u wav Hu.
      destruct Hst as [(E1 & E2)|(t & pcm & wav' & Ew & E1 & E2)].
      + rewrite E1 in Hu. eauto.
      + rewrite E1 in Hu. apply lookup_app_Some in Hu.
        destruct Hu as [Hu|(_ & Hu)]; [eauto|].
        apply list_lookup_singleton_Some in Hu. destruct Hu as (_ & <-).
        eauto.
    - intros t u Ht.
      destruct Hst as [(E1 & E2)|(t' & pcm & wav' & Ew & E1 & E2)].
      + rewrite E1. rewrite E2 in Ht. eauto.
      + rewrite E1, length_app. cbn. rewrite E2 in Ht.
        destruct (decide (t' = t)) as [->|Hne].
        * rewrite lookup_insert_eq in Ht. injection Ht as <-. lia.
        * rewrite lookup_insert_ne in Ht by exact Hne.
          apply Hcache in Ht. lia. }
  apply Hgen. split; [|split]; cbn.
  - discriminate.
  - intros u wav H. destruct u; discriminate.
  - intros t u H. rewrite lookup_empty in H. discriminate.
Qed.

(** X4.  In every state the module reaches from its load, through calls
    of [playTextToSpeech], settled promises (in any order, with any
    outcome) and calls of [stopAllAudio], whichever platform calls raise:
    [currentAudio], when set, refers to an element that was created; every
    cached text maps to an object URL that was created, and the blob behind
    every object URL is a container built by [createWavBlob], with its PCM
    payload at offset 44. *)
Theorem state_sound voice es :
  let w := world (run atob (initialSys voice) es) in
  (∀ a, currentAudio w = Some a → is_Some (audios w !! a))
  ∧ (∀ t u, audioCache w !! t = Some u → is_Some (objectUrls w !! u))
  ∧ (∀ u wav, objectUrls w !! u = Some wav →
       ∃ pcm, Wav.createWavBlob pcm = Some wav
              ∧ drop 44 (Wav.blobBytes wav) = pcm
              ∧ Wav.blobType wav = lit "audio/wav").
Proof.
  cbn zeta. destruct (sound_run voice es) as (Hcur & Hurl & Hcache).
  split; [|split].
  - intros a Ha. apply lookup_lt_is_Some. now apply Hcur.
  - intros t u Ht. apply lookup_lt_is_Some. now apply (Hcache t).
  - intros u wav Hu. destruct (Hurl u wav Hu) as (pcm & Hpcm).
    exists pcm. split; [exact Hpcm|].
    rewrite createWavBlob_eq in Hpcm. injection Hpcm as <-.
    split; [|reflexivity]. cbn. now rewrite drop_0.
Qed.

(** X5.  As long as no [pause()] raised, at most one media element is
    playing at any time, and it is the one [currentAudio] holds, for which
    [isAudioPlaying] answers true: every start of a playback is preceded by
    [stopAllAudio], which pauses the element that played before. *)
Theorem one_element_plays voice es :
  Forall (λ e, pauseRaises (eventFaults e) = false) es →
  let w := world (run atob (initialSys voice) es) in
  ∀ a b ea eb,
    audios w !! a = Some ea → audios w !! b = Some eb →
    paused ea = false → paused eb = false →
    a = b ∧ currentAudio w = Some a ∧ isAudioPlaying w = true.
Proof.
  intros Hes. cbn zeta.
  assert (Hex : exclusive (world (run atob (initialSys voice) es))).
  { assert (Hgen : ∀ es s,
               Forall (λ e, pauseRaises (eventFaults e) = false) es →
               exclusive (world s) →
               exclusive (world (run atob s es))).
    { clear. induction es as [|e es IH]; intros s Hes Hs; [exact Hs|].
      rewrite run_cons. inversion Hes as [|? ? He Hes']; subst.
      apply IH; [exact Hes'|].
      destruct (step_world s e) as (Hel & _). cbn zeta in Hel.
      intros a ea Ha Hp.
      destruct Hel as [(E1 & E2)|(w0 & w1 & E1 & E2 & Es & Hw)].
      - rewrite E2. apply (Hs a ea); congruence.
      - destruct (stopAllAudio_elements (eventFaults e) w0)
          as (w1' & Es' & Hlen & Hc & Hels).
        rewrite Es in Es'. injection Es' as <-.
        assert (Hquiet : ∀ i e',
                   audios w1 !! i = Some e' → paused e' = true).
        { intros i e' Hi. destruct (paused e') eqn:Ep; [reflexivity|].
          destruct (Hels i e' Hi) as (e0 & Hi0 & Hkeep & Hcurp).
          rewrite E1 in Hi0.
          destruct (paused e0) eqn:Ep0; [rewrite Hkeep in Ep; auto|].
          pose proof (Hs i e0 Hi0 Ep0) as Hci.
          rewrite <- E2 in Hci. specialize (Hcurp Ep Hci). congruence. }
        destruct Hw as [(E3 & E4)|(url & E3 & E4)].
        + rewrite E3 in Ha. apply Hquiet in Ha. congruence.
        + rewrite E3 in Ha. apply lookup_app_Some in Ha.
          destruct Ha as [Ha|(Hge & Ha)].
          * apply Hquiet in Ha. congruence.
          * apply list_lookup_singleton_Some in Ha. destruct Ha as (Hz & _).
            rewrite E4. f_equal. lia. }
    apply Hgen; [exact Hes|].
    intros a e H. destruct a; discriminate. }
  intros a b ea eb Ha Hb Hpa Hpb.
  pose proof (Hex a ea Ha Hpa) as Ca. pose proof (Hex b eb Hb Hpb) as Cb.
  split; [congruence|]. split; [exact Ca|].
  unfold isAudioPlaying. rewrite Ca, Ha, Hpa. reflexivity.
Qed.


Lemma failed_synthesis_falls_back_aux s i r t f o :
  inflight s !! i = Some (AwaitSynthesis r t) →
  r = latestTtsRequestId (world s) →
  synthesisFailed atob o = true →
  inflight (step atob s (Settle f i o)) = delete i (inflight s)
  ∧ frame (world s) (world (step atob s (Settle f i o))).
Proof.
  intros Hi Hr Hfail. cbn [step]. rewrite Hi.
  rewrite (resume_failed f r t o _ Hr Hfail).
  destruct (fallback_frame f r t (world s)) as (b & w' & E & Hf & _).
  rewrite E. cbn. auto.
Qed.

(** X6.  When the synthesis of the request that is still the latest fails
    (the remote call is rejected, the response carries no audio data, or
    the data does not decode), the call falls back on the local voice.
    With [window.speechSynthesis] present [stopAllAudio] runs, the text is
    queued as an utterance of language en-GB (behind what [cancel] left of
    the queue: nothing, unless [cancel] raised) and the call returns true;
    if [speak] raises, nothing is queued and the call returns false.
    Without the local voice the call returns false and changes nothing.  In
    every case the call leaves the set of calls in flight, and the request
    counter, the cache, the object URLs and the requests sent stay as they
    were.  No element is created or started.  With the local voice present
    and unless [pause()] raises, the element the handle referred to is
    paused afterwards, and no element at all is playing where none but
    that one was playing before. *)
Theorem failed_synthesis_falls_back s i r t f o :
  inflight s !! i = Some (AwaitSynthesis r t) →
  r = latestTtsRequestId (world s) →
  synthesisFailed atob o = true →
  let s' := step atob s (Settle f i o) in
  returns s'
  = returns s ++ [(r, match speechSynthesis (world s) with
                      | Some _ => negb (speakRaises f)
                      | None => false
                      end)]
  ∧ inflight s' = delete i (inflight s)
  ∧ speechSynthesis (world s')
    = (λ q, (if cancelRaises f then q else [])
            ++ (if speakRaises f then [] else [(t, lit "en-GB")]))
      <$> speechSynthesis (world s)
  ∧ frame (world s) (world s')
  ∧ (speechSynthesis (world s) = None → world s' = world s)
  ∧ (pauseRaises f = false →
     isAudioPlaying (world s') = false ∨ speechSynthesis (world s) = None)
  ∧ length (audios (world s')) = length (audios (world s))
  ∧ (∀ a, silent a (world s) → silent a (world s'))
  ∧ (pauseRaises f = false → is_Some (speechSynthesis (world s)) →
     (∀ a, currentAudio (world s) = Some a → silent a (world s'))
     ∧ (exclusive (world s) → ∀ a, silent a (world s'))).
Proof.
  intros Hi Hr Hfail. cbn zeta. cbn [step]. rewrite Hi.
  rewrite (resume_failed f r t o _ Hr Hfail).
  pose proof (fallback_world f r t (world s) Hr) as Hfb.
  destruct (speechSynthesis (world s)) as [q|] eqn:Esp.
  - destruct Hfb as (w1 & Es & E). rewrite E. cbn [settleProgress requestOf].
    destruct (stopAllAudio_cases f (world s))
      as (w1' & Es' & Hl & Hc & Hu & Hq & Hlen & Hcur & Hsp & Hsil & _).
    rewrite Es in Es'. injection Es' as <-.
    destruct (stopAllAudio_elements f (world s)) as (w1' & Es' & _ & _ & Hel).
    rewrite Es in Es'. injection Es' as <-.
    assert (Hplay : pauseRaises f = false → isAudioPlaying w1 = false).
    { intros Hp. unfold isAudioPlaying.
      destruct (currentAudio w1) as [a|] eqn:Ea; [|reflexivity].
      destruct Hcur as [Hcur|Hcur]; [discriminate|].
      destruct (audios w1 !! a) as [e|] eqn:Ee; [|reflexivity].
      rewrite (Hsil Hp a (eq_sym Hcur) e Ee). reflexivity. }
    assert (Hkeep : ∀ a, silent a (world s) → silent a w1).
    { intros a Ha e' He'. destruct (Hel a e' He') as (e & He & Hp & _).
      apply Hp, (Ha e He). }
    assert (Hall : pauseRaises f = false → exclusive (world s) →
                   ∀ a, silent a w1).
    { intros Hp Hex a.
      destruct (decide (currentAudio (world s) = Some a)) as [Hca|Hca].
      - now apply Hsil.
      - apply Hkeep. intros e He.
        destruct (paused e) eqn:Epe; [reflexivity|].
        now apply (Hex a e He) in Epe. }
    rewrite Esp in Hsp.
    destruct (speakRaises f), (cancelRaises f); cbn in *;
      rewrite ?Hsp, ?app_nil_r; unfold frame, silent in *; cbn;
      repeat split; auto; try discriminate;
      match goal with
      | Hp : pauseRaises f = false |- _ => intros; eauto
      end.
  - rewrite Hfb. cbn [settleProgress requestOf]. cbn.
    unfold frame. repeat split; auto;
      match goal with
      | H : is_Some None |- _ => destruct H as [? [=]]
      end.
Qed.

Lemma requestOf_call s f text :
  inflight (step atob s (Call f text)) !! length (inflight s)
  = Some (match audioCache (world s) !! text with
          | Some _ =>
              AwaitCachedPlay
                (latestTtsRequestId (world (step atob s (Call f text))))
                (length (audios (world s)))
          | None =>
              AwaitSynthesis
                (latestTtsRequestId (world (step atob s (Call f text)))) text
          end).
Proof.
  cbn [step].
  destruct (audioCache (world s) !! text) as [url|] eqn:Ec.
  - destruct (playTextToSpeech_hit_world f text (world s) url Ec)
      as (w1 & w' & Es & E & Ha & Hcur & Hl & _).
    rewrite E. cbn.
    destruct (stopAllAudio_cases f
                (set_latestTtsRequestId
                   (preIncrement (latestTtsRequestId (world s))) (world s)))
      as (w1' & Es' & Hl1 & _ & _ & _ & Hlen & _).
    rewrite Es in Es'. injection Es' as <-.
    rewrite list_lookup_middle by reflexivity.
    rewrite Hl, Hl1, Hlen. reflexivity.
  - rewrite (playTextToSpeech_miss f text _ Ec). cbn.
    now rewrite list_lookup_middle by reflexivity.
Qed.

(** X7.  A failed synthesis is not remembered.  A text that is not cached
    is played and its synthesis fails (rejected, no audio data,
    undecodable): the cache still has no entry for the text, no object URL
    was created and the call is no longer in flight; the next call with the
    same text sends the text to the remote model again, so two requests
    were sent for it. *)
Theorem failed_synthesis_asked_again s f1 f2 f3 text o :
  audioCache (world s) !! text = None →
  synthesisFailed atob o = true →
  let s1 := step atob s (Call f1 text) in
  let s2 := step atob s1 (Settle f2 (length (inflight s)) o) in
  let s3 := step atob s2 (Call f3 text) in
  audioCache (world s2) !! text = None
  ∧ objectUrls (world s2) = objectUrls (world s)
  ∧ inflight s2 = inflight s
  ∧ synthesisRequests (world s3) = synthesisRequests (world s) ++ [text; text]
  ∧ sentFor text (world s3) = S (S (sentFor text (world s)))
  ∧ inflight s3
    = inflight s ++ [AwaitSynthesis (latestTtsRequestId (world s3)) text].
Proof.
  intros Hmiss Hfail. cbn zeta.
  pose proof (requestOf_call s f1 text) as Hk. rewrite Hmiss in Hk.
  set (s1 := step atob s (Call f1 text)) in *.
  destruct (failed_synthesis_falls_back_aux s1 (length (inflight s)) _ text f2 o
              Hk eq_refl Hfail) as (Hin & (Hl & Hc & Hu & Hq)).
  set (s2 := step atob s1 (Settle f2 (length (inflight s)) o)) in *.
  assert (Hw1 : audioCache (world s1) = audioCache (world s)
                ∧ objectUrls (world s1) = objectUrls (world s)
                ∧ synthesisRequests (world s1)
                  = synthesisRequests (world s) ++ [text]
                ∧ inflight s1
                  = inflight s ++ [AwaitSynthesis
                                     (latestTtsRequestId (world s1)) text]).
  { unfold s1. cbn [step]. rewrite (playTextToSpeech_miss f1 text _ Hmiss).
    cbn. auto. }
  destruct Hw1 as (Hc1 & Hu1 & Hq1 & Hin1).
  assert (Hmiss2 : audioCache (world s2) !! text = None)
    by now rewrite Hc, Hc1.
  assert (Hin2 : inflight s2 = inflight s).
  { rewrite Hin, Hin1. apply delete_last. }
  clearbody s2.
  split; [exact Hmiss2|]. split; [congruence|]. split; [exact Hin2|].
  assert (Hq3 : synthesisRequests (world (step atob s2 (Call f3 text)))
                = synthesisRequests (world s) ++ [text; text]).
  { rewrite step_requests, Hmiss2, Hq, Hq1, <- app_assoc. reflexivity. }
  split; [exact Hq3|]. split.
  - unfold sentFor. rewrite Hq3, filter_app, length_app. cbn.
    rewrite !decide_True by reflexivity. cbn. lia.
  - cbn [step]. rewrite (playTextToSpeech_miss f3 text _ Hmiss2). cbn.
    now rewrite Hin2.
Qed.


(** What one event does to the counter and to the ids in flight. *)
Lemma step_ids s e :
  match e with
  | Call _ _ =>
      latestTtsRequestId (world (step atob s e))
      = preIncrement (latestTtsRequestId (world s))
      ∧ inflightIds (step atob s e)
        = inflightIds s ++ [preIncrement (latestTtsRequestId (world s))]
  | Settle _ i _ =>
      latestTtsRequestId (world (step atob s e))
      = latestTtsRequestId (world s)
      ∧ (inflightIds (step atob s e) = inflightIds s
         ∨ ∃ r, inflightIds s !! i = Some r
                ∧ (inflightIds (step atob s e) = delete i (inflightIds s)
                   ∨ inflightIds (step atob s e)
                     = delete i (inflightIds s) ++ [r]))
  | StopAll _ =>
      latestTtsRequestId (world (step atob s e))
      = latestTtsRequestId (world s)
      ∧ inflightIds (step atob s e) = inflightIds s
  end.
Proof.
  destruct e as [f text|f i o|f].
  - destruct (step_call_inflight atob s f text) as (k & Hin & Hk & _).
    unfold inflightIds. rewrite Hin, fmap_app. cbn [fmap list_fmap].
    rewrite Hk. split; [|reflexivity].
    cbn [step].
    destruct (playTextToSpeech_total f text (world s))
      as (k' & w' & E & _ & Hl & _).
    rewrite E. cbn. exact Hl.
  - cbn [step]. destruct (inflight s !! i) as [k|] eqn:Ek; [|auto].
    destruct (resume_frame atob f k o (world s))
      as (p & w' & E & Hl & _ & _ & Hsame).
    rewrite E. split.
    + rewrite world_settleProgress. exact Hl.
    + right. exists (requestOf k). unfold inflightIds.
      rewrite list_lookup_fmap, Ek. split; [reflexivity|].
      destruct p as [b|k']; cbn.
      * left. apply list_fmap_delete.
      * right. rewrite fmap_app, list_fmap_delete. cbn.
        now rewrite (Hsame k' eq_refl).
  - cbn [step]. cbn.
    destruct (stopAllAudio_frame f (world s)) as (w' & E & Hl & _).
    rewrite E. auto.
Qed.

(** X8.  Below [2^53] calls, [latestTtsRequestId] is the number of calls
    of [playTextToSpeech] made so far, whatever else happened in between;
    the calls in flight carry pairwise distinct request ids, each between 1
    and the latest id, so at most one call in flight passes the staleness
    test [requestId === latestTtsRequestId]. *)
Theorem request_ids_distinct voice es :
  (N.of_nat (callCount es) < 2 ^ 53)%N →
  let s := run atob (initialSys voice) es in
  latestTtsRequestId (world s) = N.of_nat (callCount es)
  ∧ NoDup (inflightIds s)
  ∧ Forall (λ r, (0 < r <= latestTtsRequestId (world s))%N) (inflightIds s)
  ∧ (∀ i j, inflightIds s !! i = Some (latestTtsRequestId (world s)) →
            inflightIds s !! j = Some (latestTtsRequestId (world s)) →
            i = j).
Proof.
  intros Hbound. cbn zeta.
  assert (Hgen : ∀ es s,
             (latestTtsRequestId (world s) + N.of_nat (callCount es)
              < 2 ^ 53)%N →
             NoDup (inflightIds s) →
             Forall (λ r, (0 < r <= latestTtsRequestId (world s))%N)
                    (inflightIds s) →
             let s' := run atob s es in
             latestTtsRequestId (world s')
             = (latestTtsRequestId (world s) + N.of_nat (callCount es))%N
             ∧ NoDup (inflightIds s')
             ∧ Forall (λ r, (0 < r <= latestTtsRequestId (world s'))%N)
                      (inflightIds s')).
  { clear. induction es as [|e es IH]; intros s Hb Hnd Hall; cbn zeta.
    { cbn. rewrite N.add_0_r. auto. }
    rewrite run_cons.
    pose proof (step_ids s e) as Hstep.
    destruct e as [f text|f i o|f]; cbn [callCount] in Hb |- *.
    - destruct Hstep as (Hl & Hin).
      assert (Hinc : preIncrement (latestTtsRequestId (world s))
                     = (latestTtsRequestId (world s) + 1)%N).
      { unfold preIncrement.
        destruct (N.ltb_spec (latestTtsRequestId (world s)) (2 ^ 53));
          [reflexivity|lia]. }
      rewrite Hinc in Hl, Hin.
      destruct (IH (step atob s (Call f text))) as (H1 & H2 & H3).
      + rewrite Hl. lia.
      + rewrite Hin. apply NoDup_app. split; [exact Hnd|].
        split; [|apply NoDup_singleton].
        intros r Hr Hr'. apply list_elem_of_singleton in Hr'. subst r.
        rewrite Forall_forall in Hall. apply Hall in Hr. lia.
      + rewrite Hin, Hl. apply Forall_app. split.
        * eapply Forall_impl; [exact Hall|]. cbn. intros; lia.
        * apply Forall_singleton. lia.
      + rewrite H1, Hl. split; [lia|]. rewrite <- Hl, <- H1. auto.
    - destruct Hstep as (Hl & Hin).
      destruct (IH (step atob s (Settle f i o))) as (H1 & H2 & H3).
      + rewrite Hl. exact Hb.
      + destruct Hin as [->|(r & Hr & [->| ->])]; [exact Hnd| |].
        * eapply sublist_NoDup; [exact Hnd|apply sublist_delete].
        * pose proof (delete_Permutation _ _ _ Hr) as Hp.
          rewrite Hp in Hnd.
          eapply NoDup_Permutation_proper; [|exact Hnd].
          symmetry. apply Permutation_cons_append.
      + rewrite Hl.
        destruct Hin as [->|(r & Hr & [->| ->])]; [exact Hall| |].
        * now apply Forall_delete.
        * apply Forall_app. split; [now apply Forall_delete|].
          apply Forall_singleton. rewrite Forall_forall in Hall.
          apply Hall. eapply list_elem_of_lookup_2. exact Hr.
      + rewrite H1, Hl. split; [reflexivity|]. rewrite <- Hl, <- H1. auto.
    - destruct Hstep as (Hl & Hin).
      destruct (IH (step atob s (StopAll f))) as (H1 & H2 & H3).
      + rewrite Hl. exact Hb.
      + now rewrite Hin.
      + now rewrite Hin, Hl.
      + rewrite H1, Hl. split; [reflexivity|]. rewrite <- Hl, <- H1. auto. }
  destruct (Hgen es (initialSys voice)) as (H1 & H2 & H3).
  - cbn. exact Hbound.
  - cbn. apply NoDup_nil_2.
  - cbn. apply Forall_nil_2.
  - cbn in H1. rewrite N.add_0_l in H1. split; [exact H1|].
    split; [exact H2|]. split; [exact H3|].
    intros i j Hi Hj. eapply NoDup_lookup; eauto.
Qed.

(** X9.  [base64ToUint8Array] raises exactly when [atob] does, and changes
    nothing then.  Otherwise it returns one byte per code unit of the
    decoded binary string, in order, each the code unit modulo 256: for the
    strings [atob] produces, whose code units are below 256, the bytes are
    the code units themselves. *)
Theorem base64ToUint8Array_bytes base64 w :
  match atob base64 with
  | Some binaryString =>
      ∃ bytes, base64ToUint8Array atob base64 w = (Ok bytes, w)
        ∧ length bytes = length binaryString
        ∧ (∀ i c, binaryString !! i = Some c →
                  ∃ b, bytes !! i = Some b
                       ∧ Z.of_N (Byte.to_N b) = Z.of_N c mod 256)
        ∧ (Forall (λ c, (c < 256)%N) binaryString →
           Byte.to_N <$> bytes = binaryString)
  | None => base64ToUint8Array atob base64 w = (Raise, w)
  end.
Proof.
  unfold base64ToUint8Array.
  destruct (atob base64) as [bin|]; [|reflexivity].
  eexists. split; [reflexivity|]. split; [now rewrite length_fmap|].
  split.
  - intros i c Hc. eexists. rewrite list_lookup_fmap, Hc.
    split; [reflexivity|]. apply u8_value.
  - intros Hall. induction Hall as [|c l Hc Hall IH]; [reflexivity|].
    cbn [fmap list_fmap] in *. rewrite IH. f_equal.
    pose proof (u8_value (Z.of_N c)) as Hv.
    rewrite Z.mod_small in Hv by lia. lia.
Qed.

End PlayerMore.

(** ** The student box through its life *)

Section JsStringMore.
Import JsString.

Lemma trimEnd_app_endsClean t r :
  endsClean t → trimEnd (t ++ r) = t ++ trimEnd r.
Proof.
  intros (Hne & Hlast). unfold trimEnd.
  rewrite rev_app_distr.
  destruct (rev t) as [|c m] eqn:Er.
  - apply (f_equal (@rev N)) in Er. rewrite rev_involutive in Er.
    cbn in Er. contradiction.
  - cbn in Hlast. rewrite (trimStart_app _ c m Hlast), rev_app_distr, <- Er.
    now rewrite rev_involutive.
Qed.

(** Trimming a text that starts with a trimmed, non-empty text only
    touches what follows it. *)
Lemma trim_app_trimmed t r :
  t ≠ [] → trim t = t → trim (t ++ r) = t ++ trimEnd r.
Proof.
  intros Hne Ht.
  assert (Hh : headOk t) by (rewrite <- Ht; apply trim_headOk).
  assert (Hl : headOk (rev t)) by (rewrite <- Ht; apply trim_lastOk).
  unfold trim. rewrite trimStart_id.
  - apply trimEnd_app_endsClean. split; assumption.
  - destruct t; [contradiction|exact Hh].
Qed.

End JsStringMore.

Section BoxMore.
Import JsString StudentBox.
Variable pf : Platform.

(** X10.  A box mounts in voice mode exactly when reading the user agent
    does not raise, a speech recognition constructor exists and, on iOS,
    the browser is Safari itself (not Chrome, Firefox or Edge for iOS);
    otherwise it mounts in manual mode.  An error message is shown exactly
    when it falls back for a reason other than a raised exception: on iOS
    outside Safari the message asks for Safari or Chrome on Android.  In
    both modes the box starts with no text, not recording and without a
    recognition instance. *)
Theorem mountBox_voice_mode :
  (isManualMode (mountBox pf) = false
   ↔ uaRaises pf = false ∧ speechRecognition pf = true
     ∧ (uaIOS pf = true → uaSafari pf = true ∧ uaOtherBrowser pf = false))
  ∧ (errorMsg (mountBox pf) = None
     ↔ isManualMode (mountBox pf) = false ∨ uaRaises pf = true)
  ∧ (uaRaises pf = false → uaIOS pf = true →
     (uaSafari pf = false ∨ uaOtherBrowser pf = true) →
     errorMsg (mountBox pf)
     = Some (lit "Browser not supported. Please use Safari on iOS or Chrome on Android."))
  ∧ transcript (mountBox pf) = [] ∧ interimTranscript (mountBox pf) = []
  ∧ manualText (mountBox pf) = [] ∧ isRecording (mountBox pf) = false
  ∧ recognitionInstanceRef (mountBox pf) = None.
Proof.
  destruct pf as [ur ios saf oth sr].
  destruct ur, ios, saf, oth, sr; cbn;
    repeat split; try tauto; try discriminate; try congruence;
    try (intros; intuition (discriminate || congruence)).
Qed.

Lemma callRecognition_kept raises c b :
  let b' := callRecognition raises c b in
  transcript b' = transcript b
  ∧ fullTranscriptRef b' = fullTranscriptRef b
  ∧ isMountedRef b' = isMountedRef b
  ∧ manualText b' = manualText b
  ∧ interimTranscript b' = interimTranscript b
  ∧ isManualMode b' = isManualMode b
  ∧ isRecording b' = isRecording b
  ∧ errorMsg b' = errorMsg b
  ∧ (is_Some (recognitionInstanceRef b')
     ↔ is_Some (recognitionInstanceRef b)).
Proof.
  unfold callRecognition.
  destruct (recognitionInstanceRef b) as [r|] eqn:Er, raises; cbn;
    rewrite ?Er; repeat split; auto; intros _; eauto.
Qed.

(** Events other than a batch of results leave the transcript alone. *)
Lemma boxStep_transcript p b e :
  (∀ rs, e ≠ RecResult rs) →
  let b' := (boxStep pf p b e).1.1 in
  transcript b' = transcript b
  ∧ fullTranscriptRef b' = fullTranscriptRef b
  ∧ isMountedRef b' = isMountedRef b
  ∧ (is_Some (recognitionInstanceRef b') →
     is_Some (recognitionInstanceRef b) ∨ speechRecognition pf = true).
Proof.
  intros Hne. cbn zeta. unfold boxStep.
  destruct (enabled p b e); cbn [negb]; [|cbn; intuition auto].
  destruct e as [f|f| |t| |rs|c|].
  - unfold handleMicClick.
    destruct (isRecording b).
    + cbn. destruct (callRecognition_kept (stopRaises f) RecStopCall b)
        as (H1 & H2 & H3 & _ & _ & _ & _ & _ & H9).
      intuition auto.
    + unfold getRecognition. cbn.
      destruct (recognitionInstanceRef b) as [r|] eqn:Er; cbn.
      * destruct (startRaises f); cbn; rewrite ?Er; cbn;
          intuition auto; unfold callRecognition; cbn; rewrite ?Er; cbn;
          auto.
      * destruct (speechRecognition pf) eqn:Esr; cbn.
        -- destruct (constructRaises f); cbn; [rewrite Er; intuition auto|].
           destruct (startRaises f); cbn; intuition auto.
        -- rewrite Er. intuition auto.
  - rewrite handleSubmit_spec.
    destruct (truthy (submitText b)); cbn; [|intuition auto].
    destruct (isRecording b); [|intuition auto].
    destruct (callRecognition_kept (abortRaises f) RecAbortCall b)
      as (H1 & H2 & H3 & _ & _ & _ & _ & _ & H9).
    intuition auto.
  - cbn. intuition auto.
  - cbn. intuition auto.
  - unfold onstart.
    destruct (isMountedRef b) eqn:Em; cbn; rewrite ?Em; intuition auto.
  - exfalso. now apply (Hne rs).
  - unfold onerror.
    destruct (isMountedRef b) eqn:Em; cbn [negb]; [|cbn; intuition auto].
    repeat (case_bool_decide; cbn; rewrite ?Em; intuition auto).
  - unfold onend.
    destruct (isMountedRef b) eqn:Em; cbn; rewrite ?Em; intuition auto.
Qed.

(** A batch of results extends the transcript. *)
Lemma onresult_grows rs b :
  boxInv pf b →
  boxInv pf (onresult rs b)
  ∧ ∃ r, transcript (onresult rs b) = transcript b ++ r.
Proof.
  intros (Heq & Htrim & Hm & Hrec).
  destruct (onresult_spec rs b Hm) as (Hf & Ht & _ & Hm' & _).
  assert (Hr : recognitionInstanceRef (onresult rs b)
               = recognitionInstanceRef b).
  { unfold onresult. rewrite Hm. cbn [negb].
    destruct (collect rs [] []) as [nf ni].
    destruct (truthy nf); reflexivity. }
  destruct (truthy (concat (finalsOf rs))) eqn:Enf.
  - assert (Hnew : ∃ r, trim (spaced (fullTranscriptRef b)
                                 (concat (finalsOf rs)))
                        = transcript b ++ r
                        ∧ trim (transcript b ++ r) = transcript b ++ r).
    { rewrite <- Heq.
      destruct (transcript b) as [|c t] eqn:Et.
      - eexists. split; [reflexivity|]. apply trim_idempotent.
      - exists (trimEnd (32%N :: concat (finalsOf rs))).
        assert (E : trim (spaced (c :: t) (concat (finalsOf rs)))
                    = (c :: t) ++ trimEnd (32%N :: concat (finalsOf rs))).
        { unfold spaced. apply trim_app_trimmed; [discriminate|exact Htrim]. }
        split; [exact E|]. rewrite <- E. apply trim_idempotent. }
    destruct Hnew as (r & E1 & E2).
    split; [|exists r; now rewrite Ht, E1].
    unfold boxInv. rewrite Ht, Hf, Hr, E1. auto.
  - split; [|exists []; now rewrite Ht, app_nil_r].
    unfold boxInv. rewrite Ht, Hf, Hr. auto.
Qed.

Lemma boxStep_inv p b e :
  boxInv pf b →
  boxInv pf (boxStep pf p b e).1.1
  ∧ ∃ r, transcript (boxStep pf p b e).1.1 = transcript b ++ r.
Proof.
  intros Hinv.
  assert (Hcase : (∃ rs, e = RecResult rs) ∨ ∀ rs, e ≠ RecResult rs)
    by (destruct e; eauto; right; discriminate).
  destruct Hcase as [(rs & ->)|Hno].
  - unfold boxStep. destruct (enabled p b (RecResult rs)); cbn.
    + now apply onresult_grows.
    + split; [exact Hinv|]. exists []. now rewrite app_nil_r.
  - destruct (boxStep_transcript p b e Hno) as (H1 & H2 & H3 & H4).
    destruct Hinv as (Heq & Htrim & Hm & Hrec).
    split; [|exists []; now rewrite app_nil_r].
    unfold boxInv. rewrite H1, H2, H3. repeat split; auto.
    intros H. destruct (H4 H); auto.
Qed.

Lemma boxRun_app b es es' :
  boxRun pf b (es ++ es') = boxRun pf (boxRun pf b es) es'.
Proof. apply foldl_app. Qed.

Lemma boxRun_cons b p e es :
  boxRun pf b ((p, e) :: es) = boxRun pf (boxStep pf p b e).1.1 es.
Proof. reflexivity. Qed.

Lemma boxRun_inv es b :
  boxInv pf b →
  boxInv pf (boxRun pf b es)
  ∧ ∃ r, transcript (boxRun pf b es) = transcript b ++ r.
Proof.
  revert b. induction es as [|[p e] es IH]; intros b Hinv.
  - split; [exact Hinv|]. exists []. now rewrite app_nil_r.
  - destruct (boxStep_inv p b e Hinv) as (Hinv' & r & Hr).
    destruct (IH _ Hinv') as (Hinv'' & r' & Hr').
    rewrite boxRun_cons.
    split; [exact Hinv''|]. exists (r ++ r').
    now rewrite Hr', Hr, app_assoc.
Qed.

Lemma mountBox_inv : boxInv pf (mountBox pf).
Proof.
  destruct pf as [ur ios saf oth sr].
  destruct ur, ios, saf, oth, sr; cbn; unfold boxInv; cbn;
    repeat split; auto; intros [? [=]].
Qed.

(** X11.  Recognized speech is never lost.  Through every sequence of
    events on a mounted box (clicks, typing, recognition callbacks, under
    any props and faults) the displayed transcript equals the accumulated
    transcript of [fullTranscriptRef] and is trimmed, and a recognition
    instance exists only on a platform that has the constructor; later
    events only extend the transcript (what was shown stays a prefix),
    and only a batch of results can change it: starting, stopping and
    restarting the microphone, errors, typing and mode switches leave it as
    it is. *)
Theorem transcript_only_grows es es' :
  let b := boxRun pf (mountBox pf) es in
  let b' := boxRun pf (mountBox pf) (es ++ es') in
  transcript b = fullTranscriptRef b
  ∧ trim (transcript b) = transcript b
  ∧ (is_Some (recognitionInstanceRef b) → speechRecognition pf = true)
  ∧ transcript b `prefix_of` transcript b'
  ∧ (Forall (λ pe, ∀ rs, pe.2 ≠ RecResult rs) es' →
     transcript b' = transcript b).
Proof.
  cbn zeta. rewrite boxRun_app.
  destruct (boxRun_inv es _ mountBox_inv) as (Hinv & _).
  destruct (boxRun_inv es' _ Hinv) as (_ & r & Hr).
  destruct Hinv as (H1 & H2 & _ & H4).
  split; [exact H1|]. split; [exact H2|]. split; [exact H4|].
  split; [exists r; exact Hr|].
  clear. generalize (boxRun pf (mountBox pf) es) as b.
  induction es' as [|[p e] es' IH]; intros b Hall; [reflexivity|].
  inversion Hall as [|? ? He Hall']; subst. cbn in He.
  rewrite boxRun_cons, (IH _ Hall').
  now destruct (boxStep_transcript p b e He) as (-> & _).
Qed.

(** X12.  Where the mount effect returned its cleanup, unmounting a box
    clears [isMountedRef] and aborts its recognition instance (the call is
    recorded unless [abort] raises), and leaves the texts alone; every
    callback of the instance that arrives afterwards (start, results,
    error, end) is ignored: the box stays exactly as it was unmounted.  On
    iOS outside Safari, where reading the user agent does not raise, the
    effect returns before its cleanup: unmounting changes nothing, the box
    stays marked as mounted and its instance, if it has one, is not
    aborted. *)
Theorem unmounted_box_ignores_callbacks f b es :
  Forall (λ pe, isCallback pe.2 = true) es →
  let u := unmountBox pf f b in
  (returnsEarly pf = false →
   boxRun pf u es = u
   ∧ isMountedRef u = false
   ∧ transcript u = transcript b
   ∧ fullTranscriptRef u = fullTranscriptRef b
   ∧ interimTranscript u = interimTranscript b
   ∧ isRecording u = isRecording b
   ∧ errorMsg u = errorMsg b
   ∧ recognitionInstanceRef u
     = (λ r, {| calls := calls r
                         ++ (if abortRaises f then [] else [RecAbortCall]) |})
       <$> recognitionInstanceRef b)
  ∧ (returnsEarly pf = true → u = b)
  ∧ (returnsEarly pf = true
     ↔ uaRaises pf = false ∧ uaIOS pf = true
       ∧ (uaSafari pf = false ∨ uaOtherBrowser pf = true)).
Proof.
  intros Hes. cbn zeta. unfold unmountBox.
  split; [|split].
  2:{ intros ->. reflexivity. }
  2:{ unfold returnsEarly.
      destruct (uaRaises pf), (uaIOS pf), (uaSafari pf), (uaOtherBrowser pf);
        cbn; intuition discriminate. }
  intros ->.
  assert (Hm : isMountedRef
                 (callRecognition (abortRaises f) RecAbortCall
                    (set_isMountedRef false b)) = false).
  { unfold callRecognition. cbn.
    destruct (recognitionInstanceRef b), (abortRaises f); reflexivity. }
  split.
  { generalize dependent (callRecognition (abortRaises f) RecAbortCall
                            (set_isMountedRef false b)).
    intros u Hu.
    induction es as [|[p e] es IH]; [reflexivity|].
    inversion Hes as [|? ? He Hes']; subst. cbn in He.
    rewrite boxRun_cons.
    assert (Hstep : (boxStep pf p u e).1.1 = u).
    { unfold boxStep. destruct (enabled p u e); [|reflexivity].
      destruct e; try discriminate; cbn;
        unfold onstart, onresult, onerror, onend; rewrite Hu; reflexivity. }
    rewrite Hstep. exact (IH Hes'). }
  split; [exact Hm|].
  unfold callRecognition. cbn.
  destruct (recognitionInstanceRef b) as [r|] eqn:Er, (abortRaises f); cbn;
    rewrite ?Er, ?app_nil_r; repeat split; auto.
  destruct r; reflexivity.
Qed.

(** X13.  The microphone button when no recording runs always calls
    [stopAllAudio] and never touches the transcript or the typed text.  If
    a recognition instance exists or can be constructed and [start()] does
    not raise, the instance has received [start] as its last call, the
    interim text and the error message are cleared and the mode is kept.
    Otherwise the box switches to manual mode: silently when there is no
    instance to be had, with the message "Device error. Switched to
    manual." when [start()] raised. *)
Theorem mic_click_starts_or_degrades f b :
  isRecording b = false →
  let b' := (handleMicClick pf f b).1 in
  (handleMicClick pf f b).2 = true
  ∧ transcript b' = transcript b
  ∧ fullTranscriptRef b' = fullTranscriptRef b
  ∧ manualText b' = manualText b
  ∧ isRecording b' = false
  ∧ ((is_Some (recognitionInstanceRef b)
      ∨ speechRecognition pf = true ∧ constructRaises f = false)
     ∧ startRaises f = false →
     ∃ r, recognitionInstanceRef b' = Some r
          ∧ last (calls r) = Some RecStartCall
          ∧ interimTranscript b' = []
          ∧ errorMsg b' = None
          ∧ isManualMode b' = isManualMode b)
  ∧ (¬ ((is_Some (recognitionInstanceRef b)
         ∨ speechRecognition pf = true ∧ constructRaises f = false)
        ∧ startRaises f = false) →
     isManualMode b' = true
     ∧ errorMsg b' = (if startRaises f
                         && (match recognitionInstanceRef b with
                             | Some _ => true
                             | None => speechRecognition pf
                                       && negb (constructRaises f)
                             end)
                      then Some (lit "Device error. Switched to manual.")
                      else None)).
Proof.
  intros Hrec. cbn zeta. unfold handleMicClick, getRecognition. rewrite Hrec.
  unfold callRecognition.
  destruct (recognitionInstanceRef b) as [r|] eqn:Er,
    (speechRecognition pf) eqn:Esr, (constructRaises f) eqn:Ec,
    (startRaises f) eqn:Es; cbn; rewrite ?Er; cbn; rewrite ?Er; cbn;
    repeat split; auto;
    try (exfalso;
         match goal with
         | H : ¬ _ |- _ =>
             apply H;
             split; [first [left; solve [eauto]|right; solve [auto]]
                    |reflexivity]
         end);
    try (intros (Hd & He);
         first [discriminate He
               |destruct Hd as [[? [=]]|(Hd1 & Hd2)]; discriminate]);
    try (intros _; eexists; split; [reflexivity|]; cbn;
         rewrite ?last_snoc; auto).
Qed.

End BoxMore.

(** ** The session: end states, progress, service calls, timers *)

Section SessionMore.
Import JsString Evaluation StudentBox TestSession.

Variable platform : Platform.
Variable parseReport : list N → option ReportValue.


Lemma run_snoc s es e :
  TestSession.run platform parseReport s (es ++ [e])
  = TestSession.step platform parseReport
      (TestSession.run platform parseReport s es) e.
Proof. unfold TestSession.run. now rewrite foldl_app. Qed.

Lemma sessionScreen_results s :
  phase s = results → truthyReport (report s) = true →
  sessionScreen s = false.
Proof. unfold sessionScreen. now intros -> ->. Qed.

Lemma results_step s e :
  wellFormed s → phase s = results → truthyReport (report s) = true →
  let s' := TestSession.step platform parseReport s e in
  phase s' = results
  ∧ report s' = report s
  ∧ sessionData s' = sessionData s
  ∧ currentQuestionIdx s' = currentQuestionIdx s.
Proof.
  intros Hwf Hp Ht. cbn zeta.
  pose proof (sessionScreen_results s Hp Ht) as Hscr.
  destruct Hwf as (_ & Hev & _ & _).
  destruct (step_edge platform parseReport s e)
    as [E1 E2 E3 E4 E5
       |_ Ep E2 E1 E3 E4 E5
       |who f q _ Escr Hq Hans _ Htext E3 E4 Hm
       |f _ Escr _ E2 E1 E3 E4 E5
       |o pending _ Ea E2 E1 E3 E4 E5]; try (exfalso; congruence).
  - repeat split; congruence.
  - exfalso. assert (phase s = evaluating) by (apply Hev; eauto). congruence.
Qed.

(** X14.  The report card is final.  Once a session shows its report card
    (phase results with a truthy report) no event changes the phase, the
    report, the recorded answers or the question index: the session screen
    is gone, so none of its controls can be used, and late timers and
    settled calls change none of these.  (Phase results with a falsy report
    shows the session screen and is not final.) *)
Theorem results_are_final p s es :
  reachable platform parseReport p s →
  phase s = results → truthyReport (report s) = true →
  let s' := TestSession.run platform parseReport s es in
  phase s' = results
  ∧ report s' = report s ∧ is_Some (report s')
  ∧ reportCard s' = report s
  ∧ sessionData s' = sessionData s
  ∧ currentQuestionIdx s' = currentQuestionIdx s
  ∧ sessionScreen s' = false.
Proof.
  intros Hreach Hp Ht. cbn zeta.
  pose proof (reachable_wellFormed platform parseReport p s Hreach) as Hwf.
  assert (H : let s' := TestSession.run platform parseReport s es in
              wellFormed s' ∧ phase s' = results
              ∧ report s' = report s
              ∧ sessionData s' = sessionData s
              ∧ currentQuestionIdx s' = currentQuestionIdx s).
  { induction es as [|e es IH] using rev_ind; [cbn; auto|].
    cbn zeta in *. destruct IH as (Hwf' & Hp' & Hr' & Hd' & Hi').
    rewrite run_snoc.
    destruct (results_step _ e Hwf' Hp') as (H1 & H2 & H3 & H4);
      [congruence|].
    split; [now apply wellFormed_step|]. repeat split; congruence. }
  cbn zeta in H.
  destruct H as (Hwf' & Hp' & Hr' & Hd' & Hi').
  repeat split; auto.
  - destruct Hwf' as (_ & _ & Hres & _). auto.
  - unfold reportCard. now rewrite Hp', Hr', Ht.
  - apply sessionScreen_results; congruence.
Qed.


(** The question index moves by Bella's submit only, one question on. *)
Lemma index_step s e :
  let s' := TestSession.step platform parseReport s e in
  currentQuestionIdx s' = currentQuestionIdx s
  ∨ ∃ f q, e = BoxEv StudentB (SubmitClick f)
           ∧ currentQuestion s = Some q
           ∧ currentQuestionIdx s' = S (currentQuestionIdx s)
           ∧ phase s' = examiner_speaking
           ∧ (S (currentQuestionIdx s) < length (questions (plan s)))%nat
           ∧ answersOf StudentB (sessionData s') !! id q
             = Some (submitText (bellaBox s)).
Proof.
  cbn zeta.
  destruct (step_edge platform parseReport s e)
    as [E1 E2 E3 E4 E5
       |_ Ep E2 E1 E3 E4 E5
       |who f q -> Escr Hq Hans _ Htext E3 E4 Hm
       |f _ Escr _ E2 E1 E3 E4 E5
       |o pending _ Ea E2 E1 E3 E4 E5]; auto.
  destruct who.
  - left. tauto.
  - destruct Hm as [(Hlt & Hp & Hi & _)|(_ & _ & Hi & _)]; [|now left].
    right. exists f, q. repeat split; auto.
    rewrite E3, answersOf_recordAnswer. now rewrite decide_True.
Qed.

Lemma answered_step s e :
  wellFormed s →
  (∀ i q, (i < currentQuestionIdx s)%nat →
          questions (plan s) !! i = Some q →
          is_Some (answersOf StudentB (sessionData s) !! id q)) →
  let s' := TestSession.step platform parseReport s e in
  ∀ i q, (i < currentQuestionIdx s')%nat →
         questions (plan s) !! i = Some q →
         is_Some (answersOf StudentB (sessionData s') !! id q).
Proof.
  intros Hwf Hold s' i q Hi Hq. subst s'.
  assert (Hkeep : ∀ q', is_Some (answersOf StudentB (sessionData s) !! q') →
                        is_Some (answersOf StudentB
                                   (sessionData
                                      (TestSession.step platform parseReport s e))
                                 !! q')).
  { intros q' [t Ht]. exists t.
    now apply (answers_step_kept platform parseReport). }
  destruct (index_step s e) as [E|(f & cur & -> & Hcur & E & _ & _ & Hans)].
  - apply Hkeep, (Hold i); [lia|exact Hq].
  - destruct (decide (i = currentQuestionIdx s)) as [->|Hne].
    + unfold currentQuestion in Hcur. rewrite Hq in Hcur.
      injection Hcur as ->. eauto.
    + apply Hkeep, (Hold i); [lia|exact Hq].
Qed.

(** X15.  The question index stays inside the plan and never decreases; it
    moves only by one and only by a submit of Bella that was accepted,
    which starts the examiner phase of the next question.  Hence every
    question before the current one has an answer of Bella. *)
Theorem questions_left_answered p s :
  reachable platform parseReport p s →
  (∀ i q, (i < currentQuestionIdx s)%nat → questions p !! i = Some q →
          is_Some (answersOf StudentB (sessionData s) !! id q))
  ∧ (currentQuestionIdx s < length (questions p))%nat
  ∧ (∀ e, let s' := TestSession.step platform parseReport s e in
          currentQuestionIdx s' = currentQuestionIdx s
          ∨ currentQuestionIdx s' = S (currentQuestionIdx s)
            ∧ phase s' = examiner_speaking
            ∧ ∃ f, e = BoxEv StudentB (SubmitClick f))
  ∧ (∀ es, let s' := TestSession.run platform parseReport s es in
           (currentQuestionIdx s ≤ currentQuestionIdx s')%nat).
Proof.
  intros (s0 & es & Hm & <-).
  destruct (wellFormed_mount platform p s0 Hm) as [Hwf0 Hplan0].
  assert (Hinv : ∀ es,
             let s := TestSession.run platform parseReport s0 es in
             wellFormed s ∧ plan s = p
             ∧ ∀ i q, (i < currentQuestionIdx s)%nat →
                      questions p !! i = Some q →
                      is_Some (answersOf StudentB (sessionData s) !! id q)).
  { clear es. cbn zeta. induction es as [|e es IH] using rev_ind.
    - split; [exact Hwf0|]. split; [exact Hplan0|].
      intros i q Hi. revert Hm. unfold mountSession.
      destruct (questions p); [discriminate|]. intros [= <-]. cbn in Hi. lia.
    - destruct IH as (Hwf & Hplan & Hans). rewrite run_snoc.
      split; [now apply wellFormed_step|].
      split; [now rewrite plan_step|].
      intros i q Hi Hq.
      refine (answered_step _ e Hwf _ i q Hi _); rewrite Hplan; auto. }
  destruct (Hinv es) as (Hwf & Hplan & Hans).
  split; [exact Hans|]. split.
  { destruct Hwf as (Hidx & _). now rewrite Hplan in Hidx. }
  split.
  - intros e. cbn zeta.
    destruct (index_step (TestSession.run platform parseReport s0 es) e)
      as [E|(f & cur & -> & _ & E & Hp & _)]; [now left|].
    right. eauto.
  - intros es'. cbn zeta.
    generalize (TestSession.run platform parseReport s0 es) as s. clear.
    induction es' as [|e es' IH]; intros s; [cbn; lia|].
    cbn. specialize (IH (TestSession.step platform parseReport s e)).
    unfold TestSession.run in IH.
    destruct (index_step s e) as [E|(f & cur & _ & _ & E & _)]; lia.
Qed.


Lemma reachable_plan p s : reachable platform parseReport p s → plan s = p.
Proof.
  intros (s0 & es & Hm & <-).
  destruct (wellFormed_mount platform p s0 Hm) as [_ Hplan0].
  induction es as [|e es IH] using rev_ind; [exact Hplan0|].
  now rewrite run_snoc, plan_step.
Qed.

(** X16.  The evaluation after the last question does not see the last
    answer.  When Bella's submit for the last question is accepted, her
    answer is recorded in the session data, but [finishSession] runs in
    the same handler and reads the session data of the render the handler
    belongs to: the call of [evaluateSession] that is awaited was made with
    the answers as they were before this submit.  The request to the
    evaluator has no answer of Bella for this question; and if nothing was
    recorded before, no request is made at all and the report will be the
    one for a session without answers. *)
Theorem final_answer_left_out p s f q t :
  let s' := TestSession.step platform parseReport s
              (BoxEv StudentB (SubmitClick f)) in
  reachable platform parseReport p s →
  currentQuestion s = Some q →
  (length (questions p) ≤ S (currentQuestionIdx s))%nat →
  answersOf StudentB (sessionData s) !! id q = None →
  answersOf StudentB (sessionData s') !! id q = Some t →
  t = submitText (bellaBox s) ∧ t ≠ []
  ∧ phase s' = evaluating
  ∧ awaitedEvaluation s' = Some (evaluateSession p (sessionData s))
  ∧ (∀ r, awaitedEvaluation s' = Some (EvalAwait r) →
          requestAnswersB r !! id q = None
          ∧ requestAnswersB r = answersOf StudentB (sessionData s)
          ∧ requestAnswersA r = answersOf StudentA (sessionData s))
  ∧ (answersOf StudentA (sessionData s) = ∅ →
     answersOf StudentB (sessionData s) = ∅ →
     awaitedEvaluation s' = Some (EvalReturned noAnswersReport)).
Proof.
  cbn zeta. intros Hreach Hcur Hlast Hnone Hsome.
  pose proof (reachable_plan p s Hreach) as Hplan.
  destruct (step_edge platform parseReport s (BoxEv StudentB (SubmitClick f)))
    as [_ _ E3 _ _|[=]
       |who f' q0 [= <- <-] _ Hq _ _ Hne E3 _ Hm
       |f' [=]|o pending [=]].
  { rewrite E3 in Hsome. congruence. }
  rewrite Hcur in Hq. injection Hq as <-.
  rewrite E3, answersOf_recordAnswer, decide_True in Hsome by auto.
  injection Hsome as <-.
  destruct Hm as [(Hlt & _)|(_ & Hp & _ & Ha)]; [rewrite Hplan in Hlt; lia|].
  rewrite Hplan in Ha.
  split; [reflexivity|]. split; [exact Hne|]. split; [exact Hp|].
  split; [exact Ha|]. split.
  - intros r Hr. rewrite Ha in Hr. injection Hr as Hr.
    unfold evaluateSession in Hr.
    destruct (negb (hasKeys (answers (studentA (sessionData s))))
              && negb (hasKeys (answers (studentB (sessionData s)))));
      [discriminate|].
    injection Hr as <-. cbn. auto.
  - cbn. intros HA HB. rewrite Ha. unfold evaluateSession.
    rewrite HA, HB. reflexivity.
Qed.

Lemma answered_stays s e q :
  wellFormed s → currentQuestion s = Some q →
  is_Some (answersOf StudentB (sessionData s) !! id q) →
  let s' := TestSession.step platform parseReport s e in
  currentQuestionIdx s' = currentQuestionIdx s
  ∧ answersOf StudentB (sessionData s') = answersOf StudentB (sessionData s)
  ∧ (phase s' = evaluating →
     phase s = evaluating ∨ ∃ f, e = EarlyFinishClick f).
Proof.
  intros Hwf Hcur [t Ht]. cbn zeta.
  destruct (step_edge platform parseReport s e)
    as [E1 E2 E3 E4 E5
       |_ Ep E2 E1 E3 E4 E5
       |who f q0 -> Escr Hq Hans _ Htext E3 E4 Hm
       |f -> Escr _ E2 E1 E3 E4 E5
       |o pending _ Ea E2 E1 E3 E4 E5].
  - rewrite E1, E2, E3. auto.
  - rewrite E1, E2, E3. repeat split; auto. discriminate.
  - rewrite Hcur in Hq. injection Hq as <-.
    destruct who.
    + destruct Hm as (Hp & Hi & _). rewrite Hi, Hp, E3.
      repeat split; auto. discriminate.
    + rewrite (hasAnswered_false StudentB s q Hwf Hcur Hans)
        in Ht. discriminate.
  - rewrite E1, E3. repeat split; auto. intros _. right. eauto.
  - rewrite E1, E2, E3. repeat split; auto. discriminate.
Qed.

(** X17.  A question whose id already has an answer of Bella cannot be
    left by answering: her box shows the recorded answer and accepts no
    submit, so through every sequence of events the question index and
    Bella's answers stay as they are, and the only way to the evaluation
    is the early finish.  This is the state a plan with a repeated question
    id leads to. *)
Theorem repeated_id_blocks_progress p s q es :
  reachable platform parseReport p s →
  currentQuestion s = Some q →
  is_Some (answersOf StudentB (sessionData s) !! id q) →
  let s' := TestSession.run platform parseReport s es in
  currentQuestionIdx s' = currentQuestionIdx s
  ∧ answersOf StudentB (sessionData s') = answersOf StudentB (sessionData s)
  ∧ (phase s' = evaluating →
     phase s = evaluating ∨ ∃ f, EarlyFinishClick f ∈ es).
Proof.
  intros Hreach Hcur Hans. cbn zeta.
  pose proof (reachable_wellFormed platform parseReport p s Hreach) as Hwf.
  assert (H : let s' := TestSession.run platform parseReport s es in
              wellFormed s'
              ∧ currentQuestion s' = Some q
              ∧ currentQuestionIdx s' = currentQuestionIdx s
              ∧ answersOf StudentB (sessionData s')
                = answersOf StudentB (sessionData s)
              ∧ (phase s' = evaluating →
                 phase s = evaluating ∨ ∃ f, EarlyFinishClick f ∈ es)).
  { cbn zeta. induction es as [|e es IH] using rev_ind; [auto 10|].
    destruct IH as (Hwf' & Hcur' & Hi' & Ha' & Hp').
    rewrite run_snoc.
    destruct (answered_stays _ e q Hwf' Hcur')
      as (H1 & H2 & H3); [now rewrite Ha'|].
    split; [now apply wellFormed_step|]. split.
    { rewrite <- Hcur'.
      apply currentQuestion_same; [apply plan_step|exact H1]. }
    split; [congruence|]. split; [congruence|].
    intros Hp. destruct (H3 Hp) as [Hev|(f & ->)].
    - destruct (Hp' Hev) as [?|(f & Hf)]; [now left|right].
      exists f. apply elem_of_app. now left.
    - right. exists f. apply elem_of_app. right.
      now apply list_elem_of_singleton. }
  cbn zeta in H. tauto.
Qed.


Lemma finishSession_effects rendered s :
  effects (finishSession rendered s)
  = effects s ++ StopAllAudio
      :: match evaluateSession (plan s) rendered with
         | EvalAwait r => [EvaluateRemote r]
         | EvalReturned _ => []
         end.
Proof.
  unfold finishSession. cbn.
  destruct (evaluateSession (plan s) rendered); cbn;
    [reflexivity|now rewrite <- app_assoc].
Qed.

(** The calls into the service one handler makes. *)
Lemma handle_effects s e :
  ∃ l, effects (handle platform parseReport s e) = effects s ++ l
    ∧ callsOf s (handle platform parseReport s e) l.
Proof.
  assert (Hnil : ∀ s' : Session, effects s' = effects s →
            ∃ l, effects s' = effects s ++ l ∧ callsOf s s' l).
  { intros s' E. exists []. rewrite app_nil_r. split; [exact E|now left]. }
  assert (Htts : ∀ who (s' : Session),
            effects s' = effects s →
            currentQuestion s' = currentQuestion s →
            ∃ l, effects (callTts who s') = effects s ++ l
                 ∧ callsOf s (callTts who s') l).
  { intros who s' E Hq. unfold callTts. rewrite Hq.
    destruct (currentQuestion s) as [q|] eqn:Ecur; [|now apply Hnil].
    exists [PlayTextToSpeech (text q)]. cbn. rewrite E. split; [reflexivity|].
    right. right. left. eauto. }
  assert (Hstop : ∀ s' : Session, effects s' = effects s ++ [StopAllAudio] →
            ∃ l, effects s' = effects s ++ l ∧ callsOf s s' l).
  { intros s' E. exists [StopAllAudio]. split; [exact E|]. right. now left. }
  assert (Hfin : ∀ s' : Session,
            sessionScreen s = true → plan s' = plan s →
            effects s' = effects s →
            ∃ l, effects (finishSession (sessionData s) s') = effects s ++ l
              ∧ callsOf s (finishSession (sessionData s) s') l).
  { intros s' Hscr Hplan Heff. rewrite finishSession_effects, Hplan, Heff.
    eexists. split; [reflexivity|]. right. right. right.
    split; [exact Hscr|]. split; [|reflexivity].
    now destruct (finishSession_kept (sessionData s) s')
      as (_ & _ & _ & _ & ? & _). }
  destruct e as [who be| | | | | |f| | |i r|o]; cbn [handle].
  - destruct (sessionScreen s) eqn:Escr; [|now apply Hnil].
    destruct (boxStep platform (propsOf who s) (boxOf who s) be)
      as [[b stopped] [t|]] eqn:Eb.
    + apply boxStep_answer in Eb
        as (f & -> & -> & -> & Hne & Hans & Hturn & _).
      unfold onAnswerComplete.
      assert (Hq : currentQuestion (set_boxOf who b s) = currentQuestion s)
        by now destruct who.
      rewrite Hq. destruct (currentQuestion s) as [q|] eqn:Ecur.
      2:{ apply Hnil. now destruct who. }
      destruct who; [now apply Hnil|].
      unfold handleStudentBComplete, goToNextQuestion.
      destruct (_ <? _)%nat; [now apply Hnil|].
      apply (Hfin (set_sessionData _ (set_boxes (tomBox s) b s)) eq_refl);
        reflexivity.
    + destruct stopped.
      * apply Hstop. now destruct who.
      * apply Hnil. now destruct who.
  - destruct (_ && _); [|now apply Hnil].
    now apply Hstop.
  - destruct (_ && _); [|now apply Hnil].
    unfold handleManualPlay. now apply Htts.
  - destruct (_ && _); [|now apply Hnil]. now apply Htts.
  - destruct (_ && _); now apply Hnil.
  - destruct (sessionScreen s); [|now apply Hnil].
    now apply Hstop.
  - destruct (sessionScreen s && negb (isFinishing s)) eqn:Ec;
      [|now apply Hnil].
    apply andb_true_iff in Ec as [Escr Efin].
    unfold handleEarlyFinish.
    destruct (isFinishing s); [now apply Hnil|].
    destruct (confirmExit s); cbn [negb]; [|now apply Hnil].
    now apply Hfin.
  - destruct (autoplayTimer s); [|now apply Hnil]. now apply Htts.
  - destruct (confirmTimers s); now apply Hnil.
  - destruct (awaitedTts s !! i) as [[| |]|]; [| | |now apply Hnil];
      try now apply Hnil.
    destruct r as [[|]|]; now apply Hnil.
  - destruct (awaitedEvaluation s) as [pending|]; [|now apply Hnil].
    destruct (evaluateSession_settle parseReport pending o); now apply Hnil.
Qed.

Lemma step_effects s e :
  ∃ l, effects (TestSession.step platform parseReport s e) = effects s ++ l
    ∧ callsOf s (TestSession.step platform parseReport s e) l.
Proof.
  unfold TestSession.step.
  destruct (afterRender_kept platform (faultsOf e) s
              (handle platform parseReport s e))
    as (_ & _ & _ & Hp & _ & _ & _ & ->).
  destruct (handle_effects s e) as (l & El & Hl).
  exists l. split; [exact El|].
  destruct Hl as [?|[?|[?|(? & ? & ?)]]]; unfold callsOf; auto.
  right. right. right. rewrite Hp. auto.
Qed.


(** The session screen comes back only when an evaluation settles with a
    falsy value. *)
Lemma screen_returns s e :
  wellFormed s → sessionScreen s = false →
  sessionScreen (TestSession.step platform parseReport s e) = true →
  settlesFalsy parseReport e = true.
Proof.
  intros Hwf Hscr Hscr'.
  assert (Hcase : phase s = evaluating
                  ∨ phase s = results ∧ truthyReport (report s) = true).
  { revert Hscr. unfold sessionScreen.
    destruct (phase s); try discriminate; auto.
    intros H. apply negb_false_iff in H. auto. }
  destruct Hcase as [Hp|[Hp Ht]].
  2:{ destruct (results_step s e Hwf Hp Ht) as (H1 & H2 & _).
      rewrite sessionScreen_results in Hscr'; congruence. }
  destruct (step_edge platform parseReport s e)
    as [E1 E2 E3 E4 E5
       |_ Ep E2 E1 E3 E4 E5
       |who f q _ Escr Hq Hans _ Htext E3 E4 Hm
       |f _ Escr _ E2 E1 E3 E4 E5
       |o pending -> Ea E2 E1 E3 E4 E5]; try congruence.
  - exfalso. revert Hscr'. unfold sessionScreen. rewrite E2, Hp. discriminate.
  - destruct (settle_step platform parseReport s o pending Ea)
      as (H1 & H2 & _).
    revert Hscr'. unfold sessionScreen. rewrite H1, H2.
    unfold evaluateSession_settle, settlesFalsy.
    destruct pending as [r|r]; [discriminate|].
    destruct (evaluateSession_resume parseReport o) as [[r'|[|]]|];
      cbn; congruence.
Qed.

Lemma falsySettles_snoc es e :
  falsySettles parseReport (es ++ [e])
  = (falsySettles parseReport es
     + if settlesFalsy parseReport e then 1 else 0)%nat.
Proof. induction es as [|e' es IH]; cbn; [|rewrite IH]; lia. Qed.

Lemma evaluateSession_request p d r :
  evaluateSession p d = EvalAwait r →
  requestPlan r = p
  ∧ requestAnswersA r = answers (studentA d)
  ∧ requestAnswersB r = answers (studentB d)
  ∧ hasKeys (requestAnswersA r) || hasKeys (requestAnswersB r) = true.
Proof.
  unfold evaluateSession. intros H.
  destruct (hasKeys (answers (studentA d))) eqn:Ea,
    (hasKeys (answers (studentB d))) eqn:Eb; cbn [negb andb] in H;
    try discriminate; injection H as <-;
    cbn [requestPlan requestAnswersA requestAnswersB];
    rewrite ?Ea, ?Eb; repeat split; auto.
Qed.

(** X18.  The calls a session makes into the service.  Every request sent
    to the remote evaluator carries the plan of the session and at least
    one recorded answer, and every text handed to [playTextToSpeech] is the
    text of a question of the plan.  A request is sent only by a handler of
    the session screen that starts the evaluation, at most one by one
    handler.  The session screen comes back after an evaluation only when
    the response text parsed to a falsy value: the number of requests is at
    most one more than the number of such settled calls, and at most that
    number while the session screen is shown.  So where no response parsed
    to a falsy value, at most one request was sent, and none while the
    session screen is shown. *)
Theorem service_calls_sound p s0 es :
  mountSession platform p = Some s0 →
  let s := TestSession.run platform parseReport s0 es in
  Forall (λ r, requestPlan r = p
               ∧ hasKeys (requestAnswersA r) || hasKeys (requestAnswersB r)
                 = true)
         (evaluationRequests s)
  ∧ Forall (λ t, ∃ q, q ∈ questions p ∧ text q = t) (spokenTexts s)
  ∧ (∀ e, let s' := TestSession.step platform parseReport s e in
          evaluationRequests s' = evaluationRequests s
          ∨ sessionScreen s = true ∧ phase s' = evaluating
            ∧ ∃ r, evaluationRequests s' = evaluationRequests s ++ [r]
                   ∧ awaitedEvaluation s' = Some (EvalAwait r))
  ∧ (length (evaluationRequests s) ≤ S (falsySettles parseReport es))%nat
  ∧ (sessionScreen s = true →
     (length (evaluationRequests s) ≤ falsySettles parseReport es)%nat)
  ∧ (falsySettles parseReport es = 0%nat →
     (length (evaluationRequests s) ≤ 1)%nat
     ∧ (sessionScreen s = true → evaluationRequests s = [])).
Proof.
  intros Hm.
  destruct (wellFormed_mount platform p s0 Hm) as [Hwf0 Hplan0].
  assert (Hinv : let s := TestSession.run platform parseReport s0 es in
                 wellFormed s ∧ plan s = p
                 ∧ (length (evaluationRequests s)
                    ≤ S (falsySettles parseReport es))%nat
                 ∧ (sessionScreen s = true →
                    (length (evaluationRequests s)
                     ≤ falsySettles parseReport es)%nat)
                 ∧ Forall (λ r, requestPlan r = p
                                ∧ hasKeys (requestAnswersA r)
                                  || hasKeys (requestAnswersB r) = true)
                          (evaluationRequests s)
                 ∧ Forall (λ t, ∃ q, q ∈ questions p ∧ text q = t)
                          (spokenTexts s)).
  { cbn zeta. induction es as [|e es IH] using rev_ind.
    - assert (E : effects s0 = []).
      { revert Hm. unfold mountSession.
        destruct (questions p); [discriminate|]. now intros [= <-]. }
      unfold evaluationRequests, spokenTexts, TestSession.run. cbn [foldl].
      rewrite E. cbn.
      split; [exact Hwf0|]. split; [exact Hplan0|]. split; [lia|].
      split; [lia|]. split; constructor.
    - destruct IH as (Hwf & Hplan & Hlen & Hscr & Hreq & Hsp).
      rewrite run_snoc, falsySettles_snoc.
      set (s := TestSession.run platform parseReport s0 es) in *.
      split; [now apply wellFormed_step|].
      split; [now rewrite plan_step|].
      pose proof (screen_returns s e Hwf) as Hback.
      destruct (step_effects s e) as (l & El & Hl).
      assert (Hsame : evaluationRequests
                        (TestSession.step platform parseReport s e)
                      = evaluationRequests s →
                (length (evaluationRequests
                           (TestSession.step platform parseReport s e))
                 ≤ S (falsySettles parseReport es
                      + if settlesFalsy parseReport e then 1 else 0))%nat
                ∧ (sessionScreen (TestSession.step platform parseReport s e)
                   = true →
                   (length (evaluationRequests
                              (TestSession.step platform parseReport s e))
                    ≤ falsySettles parseReport es
                      + if settlesFalsy parseReport e then 1 else 0)%nat)).
      { intros ->. split; [lia|]. intros Hscr'.
        destruct (sessionScreen s) eqn:E0.
        - specialize (Hscr eq_refl). lia.
        - rewrite (Hback eq_refl Hscr'). lia. }
      unfold evaluationRequests, spokenTexts in *.
      rewrite El, !omap_app in *.
      destruct Hl as [->|[->|[(q & Hq & ->)|(Hscr0 & Hphase & ->)]]]; cbn;
        cbn in Hsame; rewrite ?app_nil_r in *.
      + destruct (Hsame eq_refl). auto.
      + destruct (Hsame eq_refl). auto.
      + destruct (Hsame eq_refl). repeat split; auto.
        apply Forall_app. split; [exact Hsp|]. apply Forall_singleton.
        exists q. split; [|reflexivity].
        unfold currentQuestion in Hq. rewrite Hplan in Hq.
        eapply list_elem_of_lookup_2. exact Hq.
      + specialize (Hscr Hscr0).
        assert (Hoff : sessionScreen
                         (TestSession.step platform parseReport s e) = false)
          by (unfold sessionScreen; now rewrite Hphase).
        rewrite Hoff.
        destruct (evaluateSession (plan s) (sessionData s)) as [r0|r] eqn:Er;
          cbn; rewrite ?app_nil_r, ?length_app; cbn.
        * repeat split; auto; try lia; discriminate.
        * repeat split; auto; try lia; try discriminate.
          apply Forall_app. split; [exact Hreq|]. apply Forall_singleton.
          destruct (evaluateSession_request _ _ _ Er) as (H1 & _ & _ & H4).
          split; [congruence|exact H4]. }
  cbn zeta in Hinv. cbn zeta.
  destruct Hinv as (Hwf & Hplan & Hlen & Hscr & Hreq & Hsp).
  split; [exact Hreq|]. split; [exact Hsp|]. split; [|split; [exact Hlen|]].
  - intros e. clear Hlen Hscr Hreq Hsp Hplan.
    set (s := TestSession.run platform parseReport s0 es) in *. clearbody s.
    destruct (step_effects s e) as (l & El & Hl).
    unfold evaluationRequests. rewrite El, omap_app.
    destruct Hl as [->|[->|[(q & Hq & ->)|(Hscr0 & Hphase & ->)]]];
      try (left; cbn; now rewrite app_nil_r).
    assert (Ha : awaitedEvaluation
                   (TestSession.step platform parseReport s e)
                 = Some (evaluateSession (plan s) (sessionData s))).
    { destruct (step_edge platform parseReport s e)
        as [_ E2 _ _ _
           |_ Ep E2 _ _ _ _
           |who f q _ _ _ _ _ _ _ _ Hmv
           |f _ _ _ _ _ _ _ E5
           |o pending _ _ E2 _ _ _ _]; try congruence.
      - exfalso. apply sessionScreen_phase in Hscr0. congruence.
      - destruct who; [destruct Hmv as (? & _); congruence|].
        destruct Hmv as [(_ & ? & _)|(_ & _ & _ & ?)]; congruence. }
    rewrite Ha.
    destruct (evaluateSession (plan s) (sessionData s)) as [r0|r].
    + left. cbn. now rewrite app_nil_r.
    + right. split; [exact Hscr0|]. split; [exact Hphase|].
      exists r. split; reflexivity.
  - split; [exact Hscr|]. intros Hk. rewrite Hk in *. split; [exact Hlen|].
    intros H. specialize (Hscr H).
    destruct (evaluationRequests _); [reflexivity|cbn in Hscr; lia].
Qed.


Lemma unmountBox_unmounted f b :
  returnsEarly platform = false →
  isMountedRef (unmountBox platform f b) = false.
Proof.
  unfold unmountBox, callRecognition. intros ->. cbn.
  destruct (recognitionInstanceRef b), (abortRaises f); reflexivity.
Qed.

(** A handler that changes neither the question nor the phase is followed
    by no effect of the render. *)
Lemma afterRender_same f old new :
  sessionScreen old = true →
  plan new = plan old →
  currentQuestionIdx new = currentQuestionIdx old →
  phase new = phase old → report new = report old →
  afterRender platform f old new = new.
Proof.
  intros Hscr Hplan Hidx Hphase Hreport. unfold afterRender.
  rewrite !bool_decide_eq_true_2 by congruence. cbn [andb].
  assert (Hscr' : sessionScreen new = true)
    by (unfold sessionScreen in *; now rewrite Hphase, Hreport).
  rewrite Hscr', Hscr. cbn [andb].
  rewrite bool_decide_eq_true_2; [reflexivity|].
  unfold currentQuestion. now rewrite Hplan, Hidx.
Qed.

(** The render that leaves the session screen for the spinner. *)
Lemma afterRender_leaving f old new :
  sessionScreen old = true → phase new = evaluating →
  let s' := afterRender platform f old new in
  tomBox s' = unmountBox platform f (tomBox new)
  ∧ bellaBox s' = unmountBox platform f (bellaBox new)
  ∧ autoplayTimer s' = false.
Proof.
  intros Hscr Hp. cbn zeta. unfold afterRender.
  rewrite (bool_decide_eq_false_2 (phase old = phase new))
    by (rewrite Hp; now apply sessionScreen_phase).
  rewrite andb_false_r.
  change (phase (set_autoplayTimer false new)) with (phase new).
  rewrite Hp.
  assert (Hs : sessionScreen (set_autoplayTimer false new) = false)
    by (unfold sessionScreen; cbn; now rewrite Hp).
  rewrite Hs, Hscr. cbn. auto.
Qed.

(** X19.  Finishing early takes two clicks.  On the session screen, with
    no confirmation pending, the first click on the finish button only
    arms it: the phase, the answers and the service calls stay, and a
    timer is scheduled.  If the timer fires first, the button is disarmed
    again.  A second click while armed stops the audio, unmounts both
    boxes, cancels the autoplay timer and starts the evaluation of the
    answers recorded so far (phase evaluating).  Unmounting marks the
    boxes as unmounted where their mount effect returned a cleanup, that
    is everywhere but on iOS outside Safari, where the boxes are left as
    they are. *)
Theorem early_finish_needs_confirmation s f1 f2 :
  sessionScreen s = true → isFinishing s = false → confirmExit s = false →
  let s1 := TestSession.step platform parseReport s (EarlyFinishClick f1) in
  let s2 := TestSession.step platform parseReport s1 (EarlyFinishClick f2) in
  (phase s1 = phase s ∧ sessionData s1 = sessionData s
   ∧ effects s1 = effects s ∧ awaitedEvaluation s1 = awaitedEvaluation s
   ∧ confirmExit s1 = true ∧ confirmTimers s1 = S (confirmTimers s))
  ∧ (phase s2 = evaluating ∧ isFinishing s2 = true
     ∧ sessionData s2 = sessionData s
     ∧ awaitedEvaluation s2
       = Some (evaluateSession (plan s) (sessionData s))
     ∧ effects s2
       = effects s ++ StopAllAudio
           :: match evaluateSession (plan s) (sessionData s) with
              | EvalAwait r => [EvaluateRemote r]
              | EvalReturned _ => []
              end
     ∧ tomBox s2 = unmountBox platform f2 (tomBox s)
     ∧ bellaBox s2 = unmountBox platform f2 (bellaBox s)
     ∧ (returnsEarly platform = false →
        isMountedRef (tomBox s2) = false
        ∧ isMountedRef (bellaBox s2) = false)
     ∧ (returnsEarly platform = true →
        tomBox s2 = tomBox s ∧ bellaBox s2 = bellaBox s)
     ∧ autoplayTimer s2 = false)
  ∧ (let s2' := TestSession.step platform parseReport s1 ConfirmTimerFired in
     confirmExit s2' = false ∧ phase s2' = phase s
     ∧ effects s2' = effects s).
Proof.
  intros Hscr Hfin Hconf. cbn zeta.
  assert (E1 : TestSession.step platform parseReport s (EarlyFinishClick f1)
               = set_confirmTimers (S (confirmTimers s))
                   (set_confirmExit true s)).
  { unfold TestSession.step. cbn [handle]. rewrite Hscr, Hfin. cbn [andb negb].
    unfold handleEarlyFinish. rewrite Hfin, Hconf. cbn [negb].
    now apply afterRender_same. }
  rewrite E1.
  set (s1 := set_confirmTimers (S (confirmTimers s)) (set_confirmExit true s)).
  assert (Hscr1 : sessionScreen s1 = true) by exact Hscr.
  split; [repeat split|].
  assert (E2 : TestSession.step platform parseReport s1 (EarlyFinishClick f2)
               = afterRender platform f2 s1
                   (finishSession (sessionData s) s1)).
  { unfold TestSession.step. cbn [handle faultsOf]. rewrite Hscr1.
    change (isFinishing s1) with (isFinishing s). rewrite Hfin.
    cbn [andb negb]. unfold handleEarlyFinish.
    change (isFinishing s1) with (isFinishing s). rewrite Hfin.
    reflexivity. }
  rewrite E2.
  destruct (afterRender_kept platform f2 s1 (finishSession (sessionData s) s1))
    as (_ & _ & K3 & K4 & _ & K6 & K7 & K8).
  destruct (finishSession_kept (sessionData s) s1)
    as (_ & _ & F3 & _ & F5 & F6).
  destruct (afterRender_leaving f2 s1 (finishSession (sessionData s) s1)
              Hscr1 F5) as (B1 & B2 & B3).
  split.
  - assert (Hboxes : tomBox (finishSession (sessionData s) s1) = tomBox s
                     ∧ bellaBox (finishSession (sessionData s) s1)
                       = bellaBox s).
    { unfold finishSession. cbn.
      destruct (evaluateSession (plan s) (sessionData s)); auto. }
    destruct Hboxes as [T1 T2].
    rewrite K3, K4, K6, K7, K8, F3, F5, F6, finishSession_effects, B1, B2, B3,
      T1, T2.
    repeat split; auto.
    + unfold finishSession. cbn.
      destruct (evaluateSession (plan s) (sessionData s)); reflexivity.
    + now apply unmountBox_unmounted.
    + now apply unmountBox_unmounted.
    + unfold unmountBox.
      match goal with H : returnsEarly _ = true |- _ => now rewrite H end.
    + unfold unmountBox.
      match goal with H : returnsEarly _ = true |- _ => now rewrite H end.
  - unfold TestSession.step. cbn [handle].
    change (confirmTimers s1) with (S (confirmTimers s)). cbn match.
    rewrite afterRender_same; auto.
Qed.


(** A handler that keeps the plan, the question, the phase and the report
    of a session screen is the whole step. *)
Lemma step_same s e :
  sessionScreen s = true →
  plan (handle platform parseReport s e) = plan s →
  currentQuestionIdx (handle platform parseReport s e)
  = currentQuestionIdx s →
  phase (handle platform parseReport s e) = phase s →
  report (handle platform parseReport s e) = report s →
  TestSession.step platform parseReport s e = handle platform parseReport s e.
Proof. intros. unfold TestSession.step. now apply afterRender_same. Qed.

(** X20.  Autoplay that fails.  In the examiner phase the autoplay timer
    calls [playTextToSpeech] with the text of the current question and
    shows the loading state, during which the examiner cannot be
    dismissed.  If the call returns false or throws, the session offers
    the manual play button instead: replay and the button that starts the
    answers are not available.  A click on manual play clears the blocked
    state and plays the same text again; whatever that call returns, the
    blocked state stays cleared, and the examiner can then be dismissed,
    which starts Tom's turn with the answers untouched. *)
Theorem autoplay_blocked_offers_manual_play s q r r' :
  sessionScreen s = true → phase s = examiner_speaking →
  currentQuestion s = Some q →
  autoplayTimer s = true → awaitedTts s = [] →
  r ≠ Ok true →
  let s1 := TestSession.step platform parseReport s AutoplayTimerFired in
  let s2 := TestSession.step platform parseReport s1 (TtsSettled 0 r) in
  let s3 := TestSession.step platform parseReport s2 ManualPlayClick in
  let s4 := TestSession.step platform parseReport s3 (TtsSettled 0 r') in
  (isTTSLoading s1 = true
   ∧ effects s1 = effects s ++ [PlayTextToSpeech (text q)]
   ∧ TestSession.step platform parseReport s1 ExaminerDoneClick = s1)
  ∧ (isTTSLoading s2 = false ∧ autoplayBlocked s2 = true
     ∧ TestSession.step platform parseReport s2 ExaminerDoneClick = s2
     ∧ TestSession.step platform parseReport s2 ReplayClick = s2)
  ∧ (isTTSLoading s3 = true ∧ autoplayBlocked s3 = false
     ∧ effects s3
       = effects s ++ [PlayTextToSpeech (text q); PlayTextToSpeech (text q)])
  ∧ (isTTSLoading s4 = false ∧ autoplayBlocked s4 = false
     ∧ phase s4 = examiner_speaking
     ∧ (let s5 := TestSession.step platform parseReport s4
                    ExaminerDoneClick in
        phase s5 = student_a_turn ∧ sessionData s5 = sessionData s)).
Proof.
  intros Hscr Hphase Hq Htimer Hawait Hr. cbn zeta.
  assert (E1 : TestSession.step platform parseReport s AutoplayTimerFired
               = set_awaitedTts [Autoplay]
                   (emit (PlayTextToSpeech (text q))
                      (set_isTTSLoading true (set_autoplayTimer false s)))).
  { assert (Eh : handle platform parseReport s AutoplayTimerFired
                 = set_awaitedTts [Autoplay]
                     (emit (PlayTextToSpeech (text q))
                        (set_isTTSLoading true (set_autoplayTimer false s)))).
    { cbn [handle]. rewrite Htimer. unfold callTts.
      change (currentQuestion (set_isTTSLoading true
                                 (set_autoplayTimer false s)))
        with (currentQuestion s).
      rewrite Hq. cbn. now rewrite Hawait. }
    rewrite step_same; rewrite ?Eh; auto. }
  rewrite E1.
  set (s1 := set_awaitedTts [Autoplay] _).
  assert (Hscr1 : sessionScreen s1 = true) by exact Hscr.
  assert (E2 : TestSession.step platform parseReport s1 (TtsSettled 0 r)
               = set_isTTSLoading false
                   (set_autoplayBlocked true (set_awaitedTts [] s1))).
  { assert (Eh : handle platform parseReport s1 (TtsSettled 0 r)
                 = set_isTTSLoading false
                     (set_autoplayBlocked true (set_awaitedTts [] s1))).
    { cbn [handle]. change (awaitedTts s1) with [Autoplay]. cbn.
      destruct r as [[|]|]; [congruence|reflexivity|reflexivity]. }
    rewrite step_same; rewrite ?Eh; auto. }
  rewrite E2.
  set (s2 := set_isTTSLoading false _).
  assert (Hscr2 : sessionScreen s2 = true) by exact Hscr.
  assert (E3 : TestSession.step platform parseReport s2 ManualPlayClick
               = set_awaitedTts [ManualPlay]
                   (emit (PlayTextToSpeech (text q))
                      (set_isTTSLoading true
                         (set_autoplayBlocked false s2)))).
  { assert (Eh : handle platform parseReport s2 ManualPlayClick
                 = set_awaitedTts [ManualPlay]
                     (emit (PlayTextToSpeech (text q))
                        (set_isTTSLoading true
                           (set_autoplayBlocked false s2)))).
    { cbn [handle]. rewrite Hscr2. cbn [andb negb isTTSLoading s2].
      change (isTTSLoading s2) with false.
      change (autoplayBlocked s2) with true. cbn [andb negb].
      unfold handleManualPlay, callTts.
      change (currentQuestion (set_isTTSLoading true
                                 (set_autoplayBlocked false s2)))
        with (currentQuestion s).
      rewrite Hq. reflexivity. }
    rewrite step_same; rewrite ?Eh; auto. }
  rewrite E3.
  set (s3 := set_awaitedTts [ManualPlay] _).
  assert (Hscr3 : sessionScreen s3 = true) by exact Hscr.
  assert (E4 : TestSession.step platform parseReport s3 (TtsSettled 0 r')
               = set_isTTSLoading false (set_awaitedTts [] s3)).
  { assert (Eh : handle platform parseReport s3 (TtsSettled 0 r')
                 = set_isTTSLoading false (set_awaitedTts [] s3)).
    { cbn [handle]. change (awaitedTts s3) with [ManualPlay]. cbn.
      reflexivity. }
    rewrite step_same; rewrite ?Eh; auto. }
  rewrite E4.
  set (s4 := set_isTTSLoading false (set_awaitedTts [] s3)).
  assert (Hscr4 : sessionScreen s4 = true) by exact Hscr.
  assert (Hnone1 : TestSession.step platform parseReport s1 ExaminerDoneClick
                   = s1).
  { assert (Eh : handle platform parseReport s1 ExaminerDoneClick = s1).
    { cbn [handle]. change (isTTSLoading s1) with true.
      now rewrite andb_false_r. }
    rewrite step_same; rewrite ?Eh; auto. }
  assert (Hnone2 : TestSession.step platform parseReport s2 ExaminerDoneClick
                   = s2).
  { assert (Eh : handle platform parseReport s2 ExaminerDoneClick = s2).
    { cbn [handle]. change (autoplayBlocked s2) with true.
      now rewrite andb_false_r. }
    rewrite step_same; rewrite ?Eh; auto. }
  assert (Hnone2' : TestSession.step platform parseReport s2 ReplayClick = s2).
  { assert (Eh : handle platform parseReport s2 ReplayClick = s2).
    { cbn [handle]. change (autoplayBlocked s2) with true.
      now rewrite andb_false_r. }
    rewrite step_same; rewrite ?Eh; auto. }
  assert (Hdone : handle platform parseReport s4 ExaminerDoneClick
                  = handleExaminerDone s4).
  { cbn [handle]. rewrite Hscr4.
    change (phase s4) with (phase s). rewrite Hphase.
    reflexivity. }
  split; [repeat split; auto|].
  split; [repeat split; auto|].
  split.
  { repeat split; auto. cbn. now rewrite <- app_assoc. }
  repeat split; auto.
  - unfold TestSession.step.
    destruct (afterRender_kept platform (faultsOf ExaminerDoneClick) s4
                (handle platform parseReport s4 ExaminerDoneClick))
      as (_ & _ & _ & -> & _).
    rewrite Hdone. reflexivity.
  - unfold TestSession.step.
    destruct (afterRender_kept platform (faultsOf ExaminerDoneClick) s4
                (handle platform parseReport s4 ExaminerDoneClick))
      as (_ & _ & -> & _).
    rewrite Hdone. reflexivity.
Qed.

(** X21.  Turns start as the protocol says, on every platform.  Tom's turn
    starts only when the examiner is dismissed in the examiner phase, and
    Bella's turn only when a submit of Tom is accepted: whenever it is
    Bella's turn, Tom has a recorded, non-empty answer for the current
    question.  (What escapes the protocol is the submit button of a box in
    manual mode, which is not tied to the turn.) *)
Theorem bella_turn_follows_tom p s :
  reachable platform parseReport p s →
  (phase s = student_b_turn →
   ∃ cur t, currentQuestion s = Some cur
            ∧ answersOf StudentA (sessionData s) !! id cur = Some t
            ∧ t ≠ [])
  ∧ (∀ e,
       phase (TestSession.step platform parseReport s e) = student_b_turn →
       phase s = student_b_turn ∨ ∃ f, e = BoxEv StudentA (SubmitClick f))
  ∧ (∀ e,
       phase (TestSession.step platform parseReport s e) = student_a_turn →
       phase s = student_a_turn
       ∨ e = ExaminerDoneClick ∧ phase s = examiner_speaking).
Proof.
  intros Hreach.
  assert (Hedges : ∀ s e,
            let s' := TestSession.step platform parseReport s e in
            (phase s' = student_b_turn →
             phase s = student_b_turn
             ∨ ∃ f q, e = BoxEv StudentA (SubmitClick f)
                      ∧ currentQuestion s = Some q
                      ∧ currentQuestionIdx s' = currentQuestionIdx s
                      ∧ sessionData s'
                        = recordAnswer StudentA (id q)
                            (submitText (tomBox s)) (sessionData s))
            ∧ (phase s' = student_a_turn →
               phase s = student_a_turn
               ∨ e = ExaminerDoneClick ∧ phase s = examiner_speaking)).
  { clear. intros s e. cbn zeta.
    destruct (step_edge platform parseReport s e)
      as [E1 E2 E3 E4 E5
         | -> Ep E2 E1 E3 E4 E5
         |who f q -> Escr Hq Hans _ Htext E3 E4 Hm
         |f -> Escr _ E2 E1 E3 E4 E5
         |o pending -> Ea E2 E1 E3 E4 E5];
      rewrite ?E2; try (split; intros; auto; congruence).
    destruct who.
    - destruct Hm as (Hp & Hi & _). rewrite Hp.
      split; [|discriminate]. intros _. right. exists f, q. auto.
    - destruct Hm as [(_ & Hp & _)|(_ & Hp & _)]; rewrite Hp;
        split; discriminate. }
  split; [|split].
  2:{ intros e He. destruct (Hedges s e) as [Hb _].
      destruct (Hb He) as [?|(f & q & -> & _)]; eauto. }
  2:{ intros e He. destruct (Hedges s e) as [_ Ha]. auto. }
  destruct Hreach as (s0 & es & Hm & <-).
  destruct (wellFormed_mount platform p s0 Hm) as [Hwf0 _].
  induction es as [|e es IH] using rev_ind.
  - revert Hm. unfold mountSession.
    destruct (questions p); [discriminate|]. intros [= <-]. discriminate.
  - rewrite run_snoc. intros Hp.
    pose proof (wellFormed_run platform parseReport es s0 Hwf0) as Hwf.
    set (s := TestSession.run platform parseReport s0 es) in *.
    destruct (Hedges s e) as [Hb _].
    destruct (Hb Hp) as [Hold|(f & q & -> & Hq & Hi & Hd)].
    + destruct (IH Hold) as (cur & t & Hcur & Ht & Hne).
      exists cur, t. split; [|split; [|exact Hne]].
      * rewrite <- Hcur. apply currentQuestion_same; [apply plan_step|].
        destruct (index_step s e) as [E|(f & q & _ & _ & _ & Hex & _)];
          [exact E|congruence].
      * now apply answers_step_kept.
    + exists q, (submitText (tomBox s)). split; [|split].
      * rewrite <- Hq. apply currentQuestion_same; [apply plan_step|exact Hi].
      * rewrite Hd. cbn. apply lookup_insert_eq.
      * pose proof (wellFormed_step platform parseReport s
                      (BoxEv StudentA (SubmitClick f)) Hwf)
          as (_ & _ & _ & Hne).
        apply (Hne StudentA (id q)). rewrite Hd. cbn. apply lookup_insert_eq.
Qed.

(** X22.  The loading state ends with the first call that settles.  When
    any awaited call of [playTextToSpeech] settles, whichever question it
    was made for and however many other calls are still awaited, the
    loading state is cleared; a call made by the autoplay effect that did
    not return true sets the blocked state, any other call leaves it.
    The phase, the question and the answers stay.  So in the examiner
    phase the examiner can be dismissed as soon as one call has settled
    without blocking, while others are still awaited. *)
Theorem loading_ends_with_first_settle s i who r :
  sessionScreen s = true → awaitedTts s !! i = Some who →
  let s' := TestSession.step platform parseReport s (TtsSettled i r) in
  isTTSLoading s' = false
  ∧ awaitedTts s' = delete i (awaitedTts s)
  ∧ autoplayBlocked s'
    = (match who, r with
       | Autoplay, Ok true => autoplayBlocked s
       | Autoplay, _ => true
       | _, _ => autoplayBlocked s
       end)
  ∧ phase s' = phase s
  ∧ currentQuestionIdx s' = currentQuestionIdx s
  ∧ sessionData s' = sessionData s
  ∧ effects s' = effects s
  ∧ (phase s = examiner_speaking → autoplayBlocked s' = false →
     phase (TestSession.step platform parseReport s' ExaminerDoneClick)
     = student_a_turn).
Proof.
  intros Hscr Hi. cbn zeta.
  set (h := handle platform parseReport s (TtsSettled i r)).
  assert (Hh : plan h = plan s ∧ currentQuestionIdx h = currentQuestionIdx s
               ∧ phase h = phase s ∧ report h = report s
               ∧ isTTSLoading h = false
               ∧ awaitedTts h = delete i (awaitedTts s)
               ∧ autoplayBlocked h
                 = (match who, r with
                    | Autoplay, Ok true => autoplayBlocked s
                    | Autoplay, _ => true
                    | _, _ => autoplayBlocked s
                    end)
               ∧ sessionData h = sessionData s
               ∧ effects h = effects s).
  { subst h. cbn [handle]. rewrite Hi.
    destruct who, r as [[|]|]; cbn; auto 10. }
  destruct Hh as (H1 & H2 & H3 & H4 & H5 & H6 & H7 & H8 & H9).
  rewrite (step_same s (TtsSettled i r) Hscr H1 H2 H3 H4). fold h.
  repeat split; auto.
  intros Hphase Hblocked.
  assert (Hscrh : sessionScreen h = true)
    by (unfold sessionScreen in *; now rewrite H3, H4).
  unfold TestSession.step.
  destruct (afterRender_kept platform (faultsOf ExaminerDoneClick) h
              (handle platform parseReport h ExaminerDoneClick))
    as (_ & _ & _ & -> & _).
  cbn [handle]. rewrite Hscrh, H3, Hphase, H5, Hblocked. reflexivity.
Qed.

(** X24.  What is recorded.  In every reachable state, every recorded
    answer is filed under the id of a question of the plan, and is a
    non-empty text without white space at either end. *)
Theorem recorded_answers_valid p s who q t :
  reachable platform parseReport p s →
  answersOf who (sessionData s) !! q = Some t →
  t ≠ [] ∧ trim t = t ∧ ∃ qu, qu ∈ questions p ∧ id qu = q.
Proof.
  intros Hreach Ht.
  pose proof (reachable_wellFormed platform parseReport p s Hreach)
    as (_ & _ & _ & Hne).
  split; [exact (Hne who q t Ht)|]. clear Hne.
  revert who q t Ht. destruct Hreach as (s0 & es & Hm & <-).
  destruct (wellFormed_mount platform p s0 Hm) as [Hwf0 Hplan0].
  induction es as [|e es IH] using rev_ind; intros who q t Ht.
  - revert Hm Ht. unfold mountSession.
    destruct (questions p); [discriminate|]. intros [= <-].
    destruct who; cbn; rewrite lookup_empty; discriminate.
  - rewrite run_snoc in Ht.
    pose proof (wellFormed_run platform parseReport es s0 Hwf0) as Hwf.
    assert (Hplan : plan (TestSession.run platform parseReport s0 es) = p).
    { apply reachable_plan. now exists s0, es. }
    set (s := TestSession.run platform parseReport s0 es) in *.
    destruct (answersOf who (sessionData s) !! q) as [t0|] eqn:Eold.
    + rewrite (answers_step_kept platform parseReport s e who q t0 Hwf Eold)
        in Ht.
      injection Ht as <-. now apply (IH who q).
    + destruct (answers_step_new platform parseReport s e who q t Eold Ht)
        as (f & cur & _ & Hcur & -> & -> & _).
      split; [apply trim_idempotent|].
      exists cur. split; [|reflexivity].
      unfold currentQuestion in Hcur. rewrite Hplan in Hcur.
      eapply list_elem_of_lookup_2. exact Hcur.
Qed.

(** X25.  A new question starts afresh.  When the question index moves
    on to a question with another id, the examiner phase begins with the
    question text hidden, the blocked state cleared and the autoplay timer
    set, and both boxes are mounted anew, so nothing dictated or typed for
    the previous question is shown.  The loading state and the awaited
    calls of [playTextToSpeech] are not reset. *)
Theorem next_question_starts_fresh s e q q' :
  let s' := TestSession.step platform parseReport s e in
  currentQuestion s = Some q → currentQuestion s' = Some q' →
  currentQuestionIdx s' ≠ currentQuestionIdx s →
  id q' ≠ id q →
  phase s' = examiner_speaking
  ∧ showQuestionText s' = false
  ∧ autoplayBlocked s' = false
  ∧ autoplayTimer s' = true
  ∧ tomBox s' = mountBox platform
  ∧ bellaBox s' = mountBox platform
  ∧ isTTSLoading s' = isTTSLoading s
  ∧ awaitedTts s' = awaitedTts s.
Proof.
  cbn zeta. intros Hq Hq' Hidx Hid.
  destruct (index_step s e)
    as [E|(f & cur & -> & Hcur & Ei & Ep & Hlt & _)]; [congruence|].
  clear Hidx. rewrite Hq in Hcur. injection Hcur as <-.
  (* the handler *)
  set (h := handle platform parseReport s (BoxEv StudentB (SubmitClick f))).
  assert (Hh : plan h = plan s
               ∧ currentQuestionIdx h = S (currentQuestionIdx s)
               ∧ phase h = examiner_speaking
               ∧ showQuestionText h = false
               ∧ isTTSLoading h = isTTSLoading s
               ∧ awaitedTts h = awaitedTts s
               ∧ report h = report s
               ∧ sessionScreen s = true).
  { unfold TestSession.step in Ei.
    destruct (afterRender_kept platform
                (faultsOf (BoxEv StudentB (SubmitClick f))) s h)
      as (_ & K2 & _).
    fold h in Ei. rewrite K2 in Ei. clear K2. revert Ei. subst h.
    cbn [handle].
    destruct (sessionScreen s) eqn:Escr; [|intros; lia].
    destruct (boxStep platform (propsOf StudentB s) (boxOf StudentB s)
                (SubmitClick f)) as [[b stopped] [t|]] eqn:Eb.
    2:{ destruct stopped; cbn; intros; lia. }
    apply boxStep_answer in Eb as (f' & _ & -> & _).
    unfold onAnswerComplete.
    change (currentQuestion (set_boxOf StudentB b s))
      with (currentQuestion s).
    rewrite Hq. unfold handleStudentBComplete, goToNextQuestion.
    destruct (_ <? _)%nat.
    - intros _. cbn. auto 10.
    - destruct (finishSession_kept
                  (sessionData (set_boxOf StudentB b s))
                  (set_sessionData
                     {| studentA := studentA (sessionData
                                                (set_boxOf StudentB b s));
                        studentB :=
                          {| answers :=
                               <[id q := t]>
                                 (answers
                                    (studentB
                                       (sessionData
                                          (set_boxOf StudentB b s)))) |} |}
                     (set_boxOf StudentB b s)))
        as (_ & F2 & _).
      intros E. rewrite F2 in E. cbn in E. lia. }
  destruct Hh as (H1 & H2 & H3 & H4 & H5 & H6 & H7 & Hscr).
  (* the render after it *)
  assert (Hcurh : currentQuestion h = Some q').
  { rewrite <- Hq'. symmetry. unfold TestSession.step. fold h.
    destruct (afterRender_kept platform
                (faultsOf (BoxEv StudentB (SubmitClick f))) s h)
      as (K1 & K2 & _).
    now apply currentQuestion_same. }
  unfold TestSession.step. fold h. unfold afterRender. cbv zeta.
  rewrite (bool_decide_eq_false_2 (currentQuestionIdx s = currentQuestionIdx h))
    by (rewrite H2; lia).
  cbn [andb].
  change (phase (set_autoplayTimer false h)) with (phase h).
  change (currentQuestion (set_autoplayTimer false h))
    with (currentQuestion h).
  rewrite H3, Hcurh.
  set (n := set_autoplayTimer true
              (set_autoplayBlocked false (set_autoplayTimer false h))).
  assert (Hscrn : sessionScreen n = true).
  { unfold sessionScreen. change (phase n) with (phase h).
    now rewrite H3. }
  rewrite Hscrn, Hscr. cbn [andb].
  change (currentQuestion n) with (currentQuestion h).
  rewrite Hq, Hcurh.
  rewrite bool_decide_eq_false_2
    by (cbn; intros [= E]; now apply Hid).
  cbn. auto 10.
Qed.

End SessionMore.

(** ** The day selector *)

Section AppFacts.
Import JsString Evaluation App.
Variable parsePlan : list N → option PlanValue.

Lemma days_spec day : day ∈ days ↔ 1 <= day <= 30.
Proof.
  unfold days. rewrite list_elem_of_fmap. split.
  - intros (i & -> & Hi). apply elem_of_seq in Hi. lia.
  - intros H. exists (Z.to_nat (day - 1)). split; [lia|].
    apply elem_of_seq. lia.
Qed.

Lemma screen_DayGrid s :
  screen s = DayGrid →
  loading s = false
  ∧ (plan s = None ∨ plan s = Some (OtherValue false)).
Proof.
  unfold screen. destruct (loading s); [discriminate|].
  destruct (plan s) as [[p|[|]]|]; try discriminate; auto.
Qed.

(** What holds between the handlers: no call is awaited and the spinner is
    off, or one call is awaited, for the selected day, and the spinner is
    on. *)
Lemma step_pending s e :
  (loading s = false ∧ pending s = []
   ∨ loading s = true
     ∧ ∃ d, pending s = [d] ∧ selectedDay s = Some d ∧ 1 <= d <= 30) →
  let s' := step parsePlan s e in
  loading s' = false ∧ pending s' = []
  ∨ loading s' = true
    ∧ ∃ d, pending s' = [d] ∧ selectedDay s' = Some d ∧ 1 <= d <= 30.
Proof.
  intros H. cbn zeta. destruct e as [day|i o|]; cbn [step].
  - destruct (screen s) eqn:Es; auto.
    case_bool_decide as Hd; [|auto].
    apply days_spec in Hd. apply screen_DayGrid in Es as (Hl & _).
    destruct H as [(_ & Hp)|(Hl' & _)]; [|congruence].
    right. cbn. rewrite Hp. eauto.
  - destruct (pending s !! i) as [d|] eqn:Ei; [|auto].
    destruct H as [(_ & Hp)|(_ & d' & Hp & _)].
    + rewrite Hp in Ei. discriminate.
    + rewrite Hp in Ei |- *. destruct i as [|i]; [|discriminate].
      left. destruct (generateDayPlan_resume parsePlan o); cbn; auto.
  - destruct (screen s) eqn:Es; auto.
    unfold screen in Es. destruct (loading s) eqn:El; [discriminate|].
    destruct H as [(_ & Hp)|(Hl' & _)]; [|congruence].
    left. cbn. auto.
Qed.

(** X26.  In every state the day selector reaches, at most one call of
    [generateDayPlan] is awaited; the spinner is shown exactly while one
    is; the awaited call is for the selected day, which is one of the days
    1 to 30. *)
Theorem one_plan_request es :
  let s := run parsePlan initial es in
  (length (pending s) ≤ 1)%nat
  ∧ (screen s = Spinner ↔ pending s ≠ [])
  ∧ (∀ d, d ∈ pending s → selectedDay s = Some d ∧ d ∈ days).
Proof.
  cbn zeta.
  assert (H : let s := run parsePlan initial es in
              loading s = false ∧ pending s = []
              ∨ loading s = true
                ∧ ∃ d, pending s = [d] ∧ selectedDay s = Some d
                       ∧ 1 <= d <= 30).
  { induction es as [|e es IH] using rev_ind; [left; auto|].
    unfold run in *. rewrite foldl_app. cbn [foldl].
    now apply step_pending. }
  cbn zeta in H. unfold screen.
  destruct H as [(Hl & Hp)|(Hl & d & Hp & Hd & Hr)]; rewrite Hl, Hp.
  - split; [cbn; lia|]. split.
    + split; [|congruence].
      destruct (plan _) as [[p|[|]]|]; discriminate.
    + intros d Hd. inversion Hd.
  - split; [cbn; lia|]. split.
    + split; [discriminate|reflexivity].
    + intros d' Hd'. apply list_elem_of_singleton in Hd'. subst d'.
      split; [exact Hd|now apply days_spec].
Qed.

(** X27.  Choosing a day on the grid shows the spinner until the call of
    [generateDayPlan] settles.  If the call fails (rejected request, empty
    response, text that is not JSON) the user is alerted once, no day is
    selected and the grid is shown again.  Otherwise the parsed value is
    stored without any validation and, unless it is falsy, the session is
    shown for it: in particular a plan with no questions is accepted,
    although [TestSession] cannot render it. *)
Theorem plan_load_outcome s day o :
  screen s = DayGrid → pending s = [] → 1 <= day <= 30 →
  let s1 := step parsePlan s (DayClick day) in
  let s2 := step parsePlan s1 (PlanSettled 0 o) in
  screen s1 = Spinner ∧ pending s1 = [day] ∧ selectedDay s1 = Some day
  ∧ pending s2 = []
  ∧ match generateDayPlan_resume parsePlan o with
    | Ok v =>
        plan s2 = Some v ∧ selectedDay s2 = Some day
        ∧ alerts s2 = alerts s
        ∧ screen s2 = match v with
                      | OtherValue false => DayGrid
                      | _ => SessionFor v
                      end
    | Raise =>
        plan s2 = plan s ∧ selectedDay s2 = None
        ∧ alerts s2 = S (alerts s) ∧ screen s2 = DayGrid
    end
  ∧ (∀ p platform,
       generateDayPlan_resume parsePlan o = Ok (PlanObject p) →
       screen s2 = SessionFor (PlanObject p)
       ∧ (questions p = [] → TestSession.mountSession platform p = None)).
Proof.
  intros Hscr Hp Hday. cbn zeta. cbn [step]. rewrite Hscr.
  rewrite bool_decide_eq_true_2 by now apply days_spec.
  unfold handleDaySelect. cbn. rewrite Hp. cbn.
  apply screen_DayGrid in Hscr as (Hl & Hplan).
  split; [reflexivity|]. split; [reflexivity|]. split; [reflexivity|].
  destruct (generateDayPlan_resume parsePlan o) as [v|] eqn:Er; cbn.
  - split; [reflexivity|]. split.
    + repeat split; auto. destruct v as [p|[|]]; reflexivity.
    + intros p platform [= ->]. split; [reflexivity|].
      intros Hq. unfold TestSession.mountSession. now rewrite Hq.
  - split; [reflexivity|]. split; [|discriminate].
    repeat split; auto. unfold screen. cbn.
    destruct Hplan as [-> | ->]; reflexivity.
Qed.

End AppFacts.

(** ** Instances *)

Section PlayerMoreWitnesses.
Import Player JsString.

Lemma one_element_plays_witness :
  let atob := λ b : list N, Some b in
  let w := world (Player.run atob (initialSys true)
                    [Call noFaults (lit "Q1");
                     Settle noFaults 0 (Fulfilled (Some (lit "AAAA")));
                     Call noFaults (lit "Q2");
                     Settle noFaults 1 (Fulfilled (Some (lit "BBBB")))]) in
  audios w = [{| src := SrcNone; paused := true |};
              {| src := SrcUrl 1; paused := false |}]
  ∧ currentAudio w = Some 1%nat ∧ isAudioPlaying w = true.
Proof.
  intros atob w. split; [vm_compute; reflexivity|].
  apply (one_element_plays atob true
           [Call noFaults (lit "Q1");
            Settle noFaults 0 (Fulfilled (Some (lit "AAAA")));
            Call noFaults (lit "Q2");
            Settle noFaults 1 (Fulfilled (Some (lit "BBBB")))]
           ltac:(repeat constructor) 1%nat 1%nat
           {| src := SrcUrl 1; paused := false |}
           {| src := SrcUrl 1; paused := false |});
    reflexivity.
Defined.

Lemma failed_synthesis_falls_back_witness :
  let atob := λ b : list N, Some b in
  let s := Player.step atob (initialSys true) (Call noFaults (lit "Q1")) in
  let s' := Player.step atob s (Settle noFaults 0 Rejected) in
  returns s' = [(1%N, true)]
  ∧ inflight s' = []
  ∧ speechSynthesis (world s') = Some [(lit "Q1", lit "en-GB")]
  ∧ ∀ a, silent a (world s').
Proof.
  intros atob s.
  destruct (failed_synthesis_falls_back atob s 0 1%N (lit "Q1") noFaults
              Rejected)
    as (H1 & H2 & H3 & _ & _ & _ & _ & _ & H9);
    [reflexivity|reflexivity|reflexivity|].
  split; [exact H1|]. split; [exact H2|]. split; [exact H3|].
  apply H9; [reflexivity|vm_compute; eauto|].
  intros a e. vm_compute. destruct a; discriminate.
Defined.

Lemma failed_synthesis_asked_again_witness :
  let atob := λ b : list N, None in
  let s1 := Player.step atob (initialSys false) (Call noFaults (lit "Q1")) in
  let s2 := Player.step atob s1
              (Settle noFaults 0 (Fulfilled (Some (lit "????")))) in
  let s3 := Player.step atob s2 (Call noFaults (lit "Q1")) in
  audioCache (world s2) !! lit "Q1" = None
  ∧ synthesisRequests (world s3) = [lit "Q1"; lit "Q1"]
  ∧ inflight s3 = [AwaitSynthesis 2 (lit "Q1")].
Proof.
  intros atob.
  destruct (failed_synthesis_asked_again atob (initialSys false)
              noFaults noFaults noFaults (lit "Q1")
              (Fulfilled (Some (lit "????"))))
    as (H1 & _ & _ & H4 & _ & H6); [reflexivity|reflexivity|].
  split; [exact H1|]. split; [exact H4|exact H6].
Defined.

Lemma request_ids_distinct_witness :
  let atob := λ b : list N, Some b in
  let s := Player.run atob (initialSys true)
             [Call noFaults (lit "Q1"); Call noFaults (lit "Q2");
              Settle noFaults 0 (Fulfilled (Some (lit "AAAA")));
              Call noFaults (lit "Q1")] in
  latestTtsRequestId (world s) = 3%N ∧ NoDup (inflightIds s).
Proof.
  intros atob.
  destruct (request_ids_distinct atob true
              [Call noFaults (lit "Q1"); Call noFaults (lit "Q2");
               Settle noFaults 0 (Fulfilled (Some (lit "AAAA")));
               Call noFaults (lit "Q1")])
    as (H1 & H2 & _); [reflexivity|].
  split; [exact H1|exact H2].
Defined.

End PlayerMoreWitnesses.

Section BoxMoreWitnesses.
Import JsString StudentBox.

Lemma unmounted_box_ignores_callbacks_witness :
  let b := set_isRecording true
             (set_recognitionInstanceRef
                (Some {| calls := [RecStartCall] |})
                (feed [[final "I like"]] (mountBox TestSession.chrome))) in
  let p := {| hasAnswered := false; isActive := true; disabled := false |} in
  let u := unmountBox TestSession.chrome TestSession.noRecFaults b in
  boxRun TestSession.chrome u
    [(p, RecResult [final "football"]); (p, RecError (lit "aborted"));
     (p, RecEnd)] = u
  ∧ transcript u = lit "I like"
  ∧ recognitionInstanceRef u
    = Some {| calls := [RecStartCall; RecAbortCall] |}
  ∧ unmountBox TestSession.chromeIOS TestSession.noRecFaults b = b.
Proof.
  intros b p.
  destruct (unmounted_box_ignores_callbacks TestSession.chrome
              TestSession.noRecFaults b
              [(p, RecResult [final "football"]);
               (p, RecError (lit "aborted")); (p, RecEnd)])
    as (Hclean & _); [repeat constructor|].
  destruct (Hclean eq_refl) as (H1 & _ & H3 & _ & _ & _ & _ & H8).
  destruct (unmounted_box_ignores_callbacks TestSession.chromeIOS
              TestSession.noRecFaults b [])
    as (_ & Hearly & _); [constructor|].
  split; [exact H1|]. split; [exact H3|]. split; [exact H8|].
  exact (Hearly eq_refl).
Defined.

Lemma mic_click_starts_or_degrades_witness :
  let b' := (handleMicClick TestSession.chrome TestSession.noRecFaults
               (mountBox TestSession.chrome)).1 in
  ∃ r, recognitionInstanceRef b' = Some r
       ∧ last (calls r) = Some RecStartCall
       ∧ isManualMode b' = false.
Proof.
  destruct (mic_click_starts_or_degrades TestSession.chrome
              TestSession.noRecFaults (mountBox TestSession.chrome))
    as (_ & _ & _ & _ & _ & Hstart & _); [reflexivity|].
  destruct Hstart as (r & H1 & H2 & _ & _ & H5).
  { split; [right; split; reflexivity|reflexivity]. }
  exists r. split; [exact H1|]. split; [exact H2|exact H5].
Defined.

End BoxMoreWitnesses.

Section SessionMoreWitnesses.
Import JsString Evaluation StudentBox TestSession.

Lemma results_are_final_witness :
  ∃ s0, mountSession chrome oneQuestion = Some s0
    ∧ let s := TestSession.run chrome (λ _, None) s0
                 (bothAnswer ++ [EvaluationSettled Rejected]) in
      let s' := TestSession.run chrome (λ _, None) s
                  [EarlyFinishClick noRecFaults;
                   BoxEv StudentA (SubmitClick noRecFaults);
                   EvaluationSettled (Fulfilled None)] in
      phase s' = results
      ∧ report s' = Some (ReportObject fallbackReport)
      ∧ sessionScreen s' = false.
Proof.
  eexists. split; [reflexivity|]. intros s.
  assert (Hreach : reachable chrome (λ _, None) oneQuestion s)
    by (eexists _, (bothAnswer ++ [EvaluationSettled Rejected]);
        split; reflexivity).
  destruct (results_are_final chrome (λ _, None) oneQuestion s
              [EarlyFinishClick noRecFaults;
               BoxEv StudentA (SubmitClick noRecFaults);
               EvaluationSettled (Fulfilled None)] Hreach)
    as (H1 & H2 & _ & _ & _ & _ & H7);
    [vm_compute; reflexivity|vm_compute; reflexivity|].
  split; [exact H1|]. split; [|exact H7]. rewrite H2. vm_compute. reflexivity.
Defined.

Lemma questions_left_answered_witness :
  ∃ s0, mountSession chrome twoQuestions = Some s0
    ∧ let s := TestSession.run chrome (λ _, None) s0 bothAnswer in
      currentQuestionIdx s = 1%nat
      ∧ is_Some (answersOf StudentB (sessionData s) !! lit "q1").
Proof.
  eexists. split; [reflexivity|]. intros s.
  assert (Hreach : reachable chrome (λ _, None) twoQuestions s)
    by (eexists _, bothAnswer; split; reflexivity).
  destruct (questions_left_answered chrome (λ _, None) twoQuestions s Hreach)
    as (H1 & _).
  split; [vm_compute; reflexivity|].
  apply (H1 0%nat {| id := lit "q1"; text := lit "What do you like doing?";
                     part := Part1; target := Tom |});
    [vm_compute; lia|reflexivity].
Defined.

Lemma final_answer_left_out_witness :
  ∃ s0, mountSession chrome oneQuestion = Some s0
    ∧ let s := TestSession.run chrome (λ _, None) s0 bellaReady in
      let s' := TestSession.step chrome (λ _, None) s
                  (BoxEv StudentB (SubmitClick noRecFaults)) in
      answersOf StudentB (sessionData s') !! lit "q1" = Some (lit "Me too")
      ∧ phase s' = evaluating
      ∧ ∀ r, awaitedEvaluation s' = Some (EvalAwait r) →
             requestAnswersB r !! lit "q1" = None.
Proof.
  eexists. split; [reflexivity|]. intros s s'.
  assert (Hreach : reachable chrome (λ _, None) oneQuestion s)
    by (eexists _, bellaReady; split; reflexivity).
  assert (Hsome : answersOf StudentB (sessionData s') !! lit "q1"
                  = Some (lit "Me too")) by (vm_compute; reflexivity).
  destruct (final_answer_left_out chrome (λ _, None) oneQuestion s
              noRecFaults
              {| id := lit "q1"; text := lit "Do you like sport?";
                 part := Part1; target := Both |}
              (lit "Me too") Hreach)
    as (_ & _ & H3 & _ & H5 & _);
    [vm_compute; reflexivity|vm_compute; lia|vm_compute; reflexivity
    |exact Hsome|].
  split; [exact Hsome|]. split; [exact H3|].
  intros r Hr. now destruct (H5 r Hr) as (H & _).
Defined.

Lemma repeated_id_blocks_progress_witness :
  ∃ s0, mountSession chrome sameIds = Some s0
    ∧ let s := TestSession.run chrome (λ _, None) s0 bothAnswer in
      let s' := TestSession.run chrome (λ _, None) s
                  [AutoplayTimerFired; TtsSettled 0 (Ok true);
                   ExaminerDoneClick;
                   BoxEv StudentA (ManualChange (lit "Yes"));
                   BoxEv StudentA (SubmitClick noRecFaults);
                   BoxEv StudentB (SubmitClick noRecFaults)] in
      currentQuestionIdx s = 1%nat
      ∧ currentQuestionIdx s' = 1%nat
      ∧ answersOf StudentB (sessionData s') !! lit "q1"
        = Some (lit "Me too").
Proof.
  eexists. split; [reflexivity|]. intros s.
  assert (Hreach : reachable chrome (λ _, None) sameIds s)
    by (eexists _, bothAnswer; split; reflexivity).
  assert (Hidx : currentQuestionIdx s = 1%nat) by (vm_compute; reflexivity).
  destruct (repeated_id_blocks_progress chrome (λ _, None) sameIds s
              {| id := lit "q1"; text := lit "Do you like cooking?";
                 part := Part1; target := Bella |}
              [AutoplayTimerFired; TtsSettled 0 (Ok true);
               ExaminerDoneClick;
               BoxEv StudentA (ManualChange (lit "Yes"));
               BoxEv StudentA (SubmitClick noRecFaults);
               BoxEv StudentB (SubmitClick noRecFaults)] Hreach)
    as (H1 & H2 & _); [vm_compute; reflexivity|vm_compute; eauto|].
  cbn zeta. split; [exact Hidx|]. split; [now rewrite H1|].
  rewrite H2. vm_compute. reflexivity.
Defined.

Lemma service_calls_sound_witness :
  ∃ s0, mountSession chrome oneQuestion = Some s0
    ∧ let s := TestSession.run chrome parseNull s0 bothAnswer in
      let again := bothAnswer
                   ++ [EvaluationSettled (Fulfilled (Some (lit "null")));
                       EarlyFinishClick noRecFaults;
                       EarlyFinishClick noRecFaults] in
      let s' := TestSession.run chrome parseNull s0 again in
      (length (evaluationRequests s) ≤ 1)%nat
      ∧ Forall (λ t, ∃ q, q ∈ questions oneQuestion ∧ text q = t)
               (spokenTexts s)
      ∧ falsySettles parseNull again = 1%nat
      ∧ length (evaluationRequests s') = 2%nat
      ∧ (length (evaluationRequests s') ≤ 2)%nat.
Proof.
  eexists. split; [reflexivity|].
  match goal with
  | |- context [TestSession.run _ _ ?s0 bothAnswer] =>
      destruct (service_calls_sound chrome parseNull oneQuestion s0 bothAnswer
                  eq_refl)
        as (_ & H2 & _ & _ & _ & H6);
      destruct (service_calls_sound chrome parseNull oneQuestion s0
                  (bothAnswer
                   ++ [EvaluationSettled (Fulfilled (Some (lit "null")));
                       EarlyFinishClick noRecFaults;
                       EarlyFinishClick noRecFaults])
                  eq_refl)
        as (_ & _ & _ & H4' & _)
  end.
  cbn zeta. split; [now apply H6|]. split; [exact H2|].
  split; [vm_compute; reflexivity|]. split; [vm_compute; reflexivity|].
  exact H4'.
Defined.

Lemma early_finish_needs_confirmation_witness :
  ∃ s0, mountSession chrome oneQuestion = Some s0
    ∧ let s1 := TestSession.step chrome (λ _, None) s0
                  (EarlyFinishClick noRecFaults) in
      let s2 := TestSession.step chrome (λ _, None) s1
                  (EarlyFinishClick noRecFaults) in
      phase s1 = examiner_speaking ∧ confirmExit s1 = true
      ∧ phase s2 = evaluating
      ∧ awaitedEvaluation s2 = Some (EvalReturned noAnswersReport).
Proof.
  eexists. split; [reflexivity|].
  match goal with
  | |- context [TestSession.step _ _ ?s0 (EarlyFinishClick noRecFaults)] =>
      destruct (early_finish_needs_confirmation chrome (λ _, None) s0
                  noRecFaults noRecFaults)
        as ((H1 & _ & _ & _ & H5 & _) & (H6 & _ & _ & H9 & _) & _);
        [reflexivity|reflexivity|reflexivity|]
  end.
  cbn zeta. split; [exact H1|]. split; [exact H5|]. split; [exact H6|].
  exact H9.
Defined.

Lemma autoplay_blocked_offers_manual_play_witness :
  ∃ s0, mountSession chrome oneQuestion = Some s0
    ∧ let s2 := TestSession.run chrome (λ _, None) s0
                  [AutoplayTimerFired; TtsSettled 0 (Ok false)] in
      let s4 := TestSession.run chrome (λ _, None) s2
                  [ManualPlayClick; TtsSettled 0 Raise] in
      autoplayBlocked s2 = true
      ∧ TestSession.step chrome (λ _, None) s2 ExaminerDoneClick = s2
      ∧ autoplayBlocked s4 = false
      ∧ phase (TestSession.step chrome (λ _, None) s4 ExaminerDoneClick)
        = student_a_turn.
Proof.
  eexists. split; [reflexivity|].
  match goal with
  | |- context [TestSession.run _ _ ?s0 (AutoplayTimerFired :: _)] =>
      destruct (autoplay_blocked_offers_manual_play chrome (λ _, None) s0
                  {| id := lit "q1"; text := lit "Do you like sport?";
                     part := Part1; target := Both |}
                  (Ok false) Raise)
        as (_ & (_ & H2 & H3 & _) & _ & (_ & H5 & _ & H7 & _));
        [reflexivity|reflexivity|reflexivity|reflexivity|reflexivity
        |discriminate|]
  end.
  cbn zeta. split; [exact H2|]. split; [exact H3|]. split; [exact H5|].
  exact H7.
Defined.

Lemma loading_ends_with_first_settle_witness :
  ∃ s0, mountSession chrome twoQuestions = Some s0
    ∧ let s := TestSession.run chrome (λ _, None) s0
                 ([AutoplayTimerFired; TtsSettled 0 (Ok true);
                   ExaminerDoneClick;
                   BoxEv StudentA (MicClick noRecFaults);
                   BoxEv StudentA RecStart;
                   BoxEv StudentA (RecResult [final "I like football"]);
                   BoxEv StudentA (SubmitClick noRecFaults);
                   ReplayClick;
                   BoxEv StudentB (MicClick noRecFaults);
                   BoxEv StudentB RecStart;
                   BoxEv StudentB (RecResult [final "Me too"]);
                   BoxEv StudentB (SubmitClick noRecFaults);
                   AutoplayTimerFired]) in
      let s' := TestSession.step chrome (λ _, None) s
                  (TtsSettled 0 (Ok false)) in
      awaitedTts s = [Replay; Autoplay]
      ∧ currentQuestionIdx s = 1%nat
      ∧ awaitedTts s' = [Autoplay]
      ∧ isTTSLoading s' = false
      ∧ phase (TestSession.step chrome (λ _, None) s' ExaminerDoneClick)
        = student_a_turn.
Proof.
  eexists. split; [reflexivity|]. intros s.
  assert (Ha : awaitedTts s = [Replay; Autoplay]) by (vm_compute; reflexivity).
  destruct (loading_ends_with_first_settle chrome (λ _, None) s 0%nat Replay
              (Ok false))
    as (H1 & H2 & H3 & _ & _ & _ & _ & H8);
    [vm_compute; reflexivity|now rewrite Ha|].
  cbn zeta. split; [exact Ha|]. split; [vm_compute; reflexivity|].
  split; [now rewrite H2, Ha|]. split; [exact H1|].
  apply H8; [vm_compute; reflexivity|]. rewrite H3. vm_compute. reflexivity.
Defined.

Lemma bella_turn_follows_tom_witness :
  ∃ s0, mountSession chrome oneQuestion = Some s0
    ∧ let s := TestSession.run chrome (λ _, None) s0 (take 8 bothAnswer) in
      phase s = student_b_turn
      ∧ ∃ cur t, currentQuestion s = Some cur
                 ∧ answersOf StudentA (sessionData s) !! id cur = Some t
                 ∧ t ≠ [].
Proof.
  eexists. split; [reflexivity|]. intros s.
  assert (Hreach : reachable chrome (λ _, None) oneQuestion s)
    by (eexists _, (take 8 bothAnswer); split; reflexivity).
  assert (Hp : phase s = student_b_turn) by (vm_compute; reflexivity).
  destruct (bella_turn_follows_tom chrome (λ _, None) oneQuestion s Hreach)
    as (H1 & _).
  split; [exact Hp|exact (H1 Hp)].
Defined.

Lemma recorded_answers_valid_witness :
  ∃ s0, mountSession chrome oneQuestion = Some s0
    ∧ let s := TestSession.run chrome (λ _, None) s0 bothAnswer in
      answersOf StudentB (sessionData s) !! lit "q1" = Some (lit "Me too")
      ∧ trim (lit "Me too") = lit "Me too"
      ∧ ∃ qu, qu ∈ questions oneQuestion ∧ id qu = lit "q1".
Proof.
  eexists. split; [reflexivity|]. intros s.
  assert (Hreach : reachable chrome (λ _, None) oneQuestion s)
    by (eexists _, bothAnswer; split; reflexivity).
  assert (Ht : answersOf StudentB (sessionData s) !! lit "q1"
               = Some (lit "Me too")) by (vm_compute; reflexivity).
  destruct (recorded_answers_valid chrome (λ _, None) oneQuestion s StudentB
              (lit "q1") (lit "Me too") Hreach Ht)
    as (_ & H2 & H3).
  split; [exact Ht|]. split; [exact H2|exact H3].
Defined.

Lemma next_question_starts_fresh_witness :
  ∃ s0, mountSession chrome twoQuestions = Some s0
    ∧ let s := TestSession.run chrome (λ _, None) s0 bellaReady in
      let s' := TestSession.step chrome (λ _, None) s
                  (BoxEv StudentB (SubmitClick noRecFaults)) in
      transcript (bellaBox s) = lit "Me too"
      ∧ currentQuestionIdx s' = 1%nat
      ∧ phase s' = examiner_speaking
      ∧ autoplayTimer s' = true
      ∧ bellaBox s' = mountBox chrome.
Proof.
  eexists. split; [reflexivity|]. intros s.
  destruct (next_question_starts_fresh chrome (λ _, None) s
              (BoxEv StudentB (SubmitClick noRecFaults))
              {| id := lit "q1"; text := lit "What do you like doing?";
                 part := Part1; target := Tom |}
              {| id := lit "q2"; text := lit "Do you like football?";
                 part := Part1; target := Bella |})
    as (H1 & _ & _ & H4 & _ & H6 & _);
    [vm_compute; reflexivity|vm_compute; reflexivity
    |vm_compute; discriminate|vm_compute; discriminate|].
  cbn zeta. split; [vm_compute; reflexivity|].
  split; [vm_compute; reflexivity|]. split; [exact H1|].
  split; [exact H4|exact H6].
Defined.

Lemma turn_order_voice_witness :
  ∃ s0, mountSession chrome oneQuestion = Some s0
    ∧ let s := TestSession.run chrome (λ _, None) s0 bothAnswer in
      is_Some (answersOf StudentB (sessionData s) !! lit "q1")
      ∧ is_Some (answersOf StudentA (sessionData s) !! lit "q1").
Proof.
  eexists. split; [reflexivity|]. intros s.
  assert (Hreach : reachable chrome (λ _, None) oneQuestion s)
    by (eexists _, bothAnswer; split; reflexivity).
  assert (HB : is_Some (answersOf StudentB (sessionData s) !! lit "q1"))
    by (vm_compute; eauto).
  split; [exact HB|].
  apply (turn_order_voice chrome (λ _, None) oneQuestion s (lit "q1"));
    [reflexivity|exact Hreach|exact HB].
Defined.

End SessionMoreWitnesses.

Section AppWitnesses.
Import JsString Evaluation App.

Lemma plan_load_outcome_witness :
  let parsePlan := λ _ : list N, Some (PlanObject TestSession.oneQuestion) in
  let s2 := App.run parsePlan initial
              [DayClick 3; PlanSettled 0 (Fulfilled (Some (lit "{}")))] in
  let s2' := App.run parsePlan initial [DayClick 3; PlanSettled 0 Rejected] in
  screen s2 = SessionFor (PlanObject TestSession.oneQuestion)
  ∧ selectedDay s2 = Some 3
  ∧ screen s2' = DayGrid ∧ alerts s2' = 1%nat.
Proof.
  intros parsePlan.
  destruct (plan_load_outcome parsePlan initial 3
              (Fulfilled (Some (lit "{}"))))
    as (_ & _ & _ & _ & (_ & H2 & _ & H4) & _);
    [reflexivity|reflexivity|lia|].
  destruct (plan_load_outcome parsePlan initial 3 Rejected)
    as (_ & _ & _ & _ & (_ & _ & H3' & H4') & _);
    [reflexivity|reflexivity|lia|].
  cbn zeta. split; [exact H4|]. split; [exact H2|]. split; [exact H4'|].
  exact H3'.
Defined.

End AppWitnesses.
